(** * Verification of the product ranking program (5000.py)

    The program reads a catalogue of products, sorts it with a top-down
    merge sort under a two-key comparator (rating descending, then price
    ascending), prints statistics and writes the ranked catalogue.

    Python's [int] is modelled by [Z], Python's [float] by the kernel's
    binary64 numbers ([PrimFloat.float]), whose operations are specified
    by [SpecFloat] through [FloatAxioms]. *)

From Stdlib Require Import ZArith Lia Floats.
From Stdlib Require Import Sorting.Sorted.
From stdpp Require Import gmap strings list fin_maps.

Open Scope Z_scope.

(** ** Data model *)

(** [class Producto]: five attributes set by [__init__]. *)
Record Producto := mkProducto {
  id : Z;
  nombre : string;
  precio : float;
  calificacion : Z;
  stock : Z
}.

(** A Python number as [comparar_productos] returns it: the rating
    branch returns an [int], the price branch a [float]. *)
Inductive numero :=
  | Entero (z : Z)
  | Flotante (f : float).

(** [n <= 0], [n < 0], [n == 0] and [n > 0] for a Python number [n]
    (comparison of a float with the integer 0 is IEEE comparison with
    0.0). *)
Definition no_positivo (n : numero) : bool :=
  match n with
  | Entero z => z <=? 0
  | Flotante f => (f <=? 0)%float
  end.

Definition es_negativo (n : numero) : bool :=
  match n with
  | Entero z => z <? 0
  | Flotante f => (f <? 0)%float
  end.

Definition es_cero (n : numero) : bool :=
  match n with
  | Entero z => z =? 0
  | Flotante f => (f =? 0)%float
  end.

Definition es_positivo (n : numero) : bool :=
  match n with
  | Entero z => 0 <? z
  | Flotante f => (0 <? f)%float
  end.

(** ** The comparator *)

(** [comparar_productos(a, b)]. [!=] on ints is disequality on [Z]; on
    floats it is the negation of IEEE equality. *)
Definition comparar_productos (a b : Producto) : numero :=
  if negb (calificacion a =? calificacion b) then
    Entero (calificacion b - calificacion a)
  else if negb (precio a =? precio b)%float then
    Flotante (precio a - precio b)%float
  else
    Entero 0.

(** The test of the merge loop: [comparar_productos(a, b) <= 0]. *)
Definition antes_o_igual (a b : Producto) : bool :=
  no_positivo (comparar_productos a b).

(** ** The merge engine *)

(** The [while] loop of [mezclar]: cursors [i] and [j] into the two
    lists and the list [resultado] built by [append]. The loop runs
    while both cursors are in range; [n] bounds the number of
    iterations. *)
Fixpoint mezclar_bucle (n : nat) (izquierda derecha : list Producto)
    (i j : nat) (resultado : list Producto) : nat * nat * list Producto :=
  match n with
  | O => (i, j, resultado)
  | S n' =>
      match izquierda !! i, derecha !! j with
      | Some a, Some b =>
          if antes_o_igual a b
          then mezclar_bucle n' izquierda derecha (S i) j (resultado ++ [a])
          else mezclar_bucle n' izquierda derecha i (S j) (resultado ++ [b])
      | _, _ => (i, j, resultado)
      end
  end.

(** [mezclar(izquierda, derecha)]: the loop, then the two [extend]s
    with the slices [izquierda[i:]] and [derecha[j:]]. Each iteration
    advances one cursor, so the sum of the lengths bounds the loop. *)
Definition mezclar (izquierda derecha : list Producto) : list Producto :=
  let '(i, j, resultado) :=
    mezclar_bucle (length izquierda + length derecha) izquierda derecha 0 0 [] in
  (resultado ++ drop i izquierda) ++ drop j derecha.

(** [merge_sort(productos)], with the recursion depth bounded by [n]. *)
Fixpoint merge_sort_rec (n : nat) (productos : list Producto) : list Producto :=
  match n with
  | O => productos
  | S n' =>
      if (length productos <=? 1)%nat then productos
      else
        let medio := (length productos / 2)%nat in
        let izquierda := take medio productos in
        let derecha := drop medio productos in
        let izquierda_ordenada := merge_sort_rec n' izquierda in
        let derecha_ordenada := merge_sort_rec n' derecha in
        mezclar izquierda_ordenada derecha_ordenada
  end.

(** Every recursive call is on a strictly shorter list, so the length
    of the list is depth enough (lemma [merge_sort_eq]). *)
Definition merge_sort (productos : list Producto) : list Producto :=
  merge_sort_rec (length productos) productos.

(** ** Exceptions, output and the outside world *)

(** The exceptions the program can raise. *)
Inductive excepcion :=
  | KeyError (k : Z)              (* a dict of ints indexed with a missing key *)
  | KeyError_campo (campo : string) (* a row of the file without the column *)
  | ValueError                    (* [int] or [float] of text that is no number *)
  | ZeroDivisionError
  | IndexError
  | TypeError.

(** What the program prints, one constructor per [print] (the wording
    and number formatting of the lines is presentation). *)
Inductive evento :=
  | Ev_leidos (n : nat) (archivo : string)
  | Ev_no_existe (archivo : string)
  | Ev_cabecera_top (n : Z)
  | Ev_puesto (i : nat) (p : Producto)
  | Ev_cabecera_analisis
  | Ev_calificacion (calif cantidad : Z) (porcentaje : float)
  | Ev_cinco_estrellas (n : nat)
  | Ev_mas_barato (nombre_p : string) (precio_p : float)
  | Ev_guardado (archivo : string)
  | Ev_banner
  | Ev_paso_lectura
  | Ev_saliendo
  | Ev_paso_muestra
  | Ev_producto (p : Producto)
  | Ev_paso_orden (n : nat)
  | Ev_completada
  | Ev_paso_guardado
  | Ev_fin.

(** A delimited file as [csv.DictReader] presents it: one dictionary
    from column name to text per data row. *)
Definition fila := gmap string string.

(** The files that exist, by name, and the lines printed so far. *)
Record mundo := mkMundo {
  archivos : gmap string (list fila);
  salida : list evento
}.

(** A computation either returns a value or raises. *)
Definition R (A : Type) : Type := (excepcion + A)%type.

#[global] Instance R_ret : MRet R := fun _ x => inr x.
#[global] Instance R_bind : MBind R :=
  fun _ _ f m => match m with inl e => inl e | inr x => f x end.

(** An effectful computation: it changes the world and returns or
    raises. The effects made before an exception stay. *)
Definition M (A : Type) : Type := mundo -> mundo * R A.

#[global] Instance M_ret : MRet M := fun _ x w => (w, inr x).
#[global] Instance M_bind : MBind M :=
  fun _ _ f m w =>
    match m w with
    | (w', inr x) => f x w'
    | (w', inl e) => (w', inl e)
    end.

Definition elevar {A} (r : R A) : M A := fun w => (w, r).

Definition imprimir (ev : evento) : M unit :=
  fun w => (mkMundo (archivos w) (salida w ++ [ev]), inr tt).

(** [for x in l: cuerpo(x)] over an immutable sequence. *)
Fixpoint para_cada {A} (cuerpo : A -> M unit) (l : list A) : M unit :=
  match l with
  | [] => mret tt
  | x :: resto => cuerpo x;; para_cada cuerpo resto
  end.

(** ** Reporting *)

(** [int] to [float], rounded to nearest even as Python converts. *)
Definition Z_a_float (z : Z) : float :=
  SF2Prim (binary_normalize prec emax z 0 false).

(** [a / b] on two ints: [ZeroDivisionError] when [b] is zero, else the
    quotient as a float (for operands below 2^53, the float quotient of
    the two conversions is Python's correctly rounded quotient). *)
Definition division_real (a b : Z) : R float :=
  if b =? 0 then inl ZeroDivisionError
  else inr (Z_a_float a / Z_a_float b)%float.

(** [calificaciones = {1: 0, 2: 0, 3: 0, 4: 0, 5: 0}] *)
Definition calificaciones_iniciales : gmap Z Z :=
  <[1 := 0]> (<[2 := 0]> (<[3 := 0]> (<[4 := 0]> (<[5 := 0]> ∅)))).

(** The counting loop:
    [for producto in productos: calificaciones[producto.calificacion] += 1].
    Reading a missing key raises [KeyError]. *)
Fixpoint contar (productos : list Producto) (calificaciones : gmap Z Z)
    : R (gmap Z Z) :=
  match productos with
  | [] => inr calificaciones
  | producto :: resto =>
      match calificaciones !! calificacion producto with
      | None => inl (KeyError (calificacion producto))
      | Some cantidad =>
          contar resto (<[calificacion producto := cantidad + 1]> calificaciones)
      end
  end.

(** Python's order on pairs of ints, and
    [sorted(calificaciones.items(), reverse=True)]: the pairs in
    descending order. The order is total on pairs, so the sorted list
    does not depend on the sorting method. *)
Definition tupla_menor (a b : Z * Z) : bool :=
  (a.1 <? b.1) || ((a.1 =? b.1) && (a.2 <? b.2)).

Fixpoint insertar_desc (x : Z * Z) (l : list (Z * Z)) : list (Z * Z) :=
  match l with
  | [] => [x]
  | y :: resto =>
      if tupla_menor y x then x :: y :: resto else y :: insertar_desc x resto
  end.

Definition sorted_reverse (l : list (Z * Z)) : list (Z * Z) :=
  foldr insertar_desc [] l.

(** [min(l, key=lambda x: x.precio)] on a non-empty list: the first
    element stays until a later one has a strictly smaller key. *)
Fixpoint min_precio (actual : Producto) (resto : list Producto) : Producto :=
  match resto with
  | [] => actual
  | p :: resto' =>
      if (precio p <? precio actual)%float then min_precio p resto'
      else min_precio actual resto'
  end.

(** [analizar_datos(productos)] *)
Definition analizar_datos (productos : list Producto) : M unit :=
  imprimir Ev_cabecera_analisis;;
  calificaciones ← elevar (contar productos calificaciones_iniciales);
  para_cada
    (fun '(calif, cantidad) =>
       cociente ← elevar (division_real cantidad (Z.of_nat (length productos)));
       imprimir (Ev_calificacion calif cantidad (cociente * Z_a_float 100)%float))
    (sorted_reverse (map_to_list calificaciones));;
  let productos_5_estrellas :=
    List.filter (fun p => calificacion p =? 5) productos in
  imprimir (Ev_cinco_estrellas (length productos_5_estrellas));;
  match productos_5_estrellas with
  | [] => mret tt
  | primero :: resto =>
      let mas_barato_5 := min_precio primero resto in
      imprimir (Ev_mas_barato (nombre mas_barato_5) (precio mas_barato_5))
  end.

(** [l[:n]] for an int [n]: a negative [n] counts from the end (the
    stop index is [len(l) + n]), and a stop index below 0 or above the
    length is clamped. *)
Definition hasta {A} (n : Z) (l : list A) : list A :=
  take (Z.to_nat (if n <? 0 then Z.of_nat (length l) + n else n)) l.

(** [mostrar_mejores_productos(productos, n)]: the heading, then the
    products of [productos[:n]] numbered from 1. *)
Definition mostrar_mejores_productos (productos : list Producto) (n : Z)
    : M unit :=
  imprimir (Ev_cabecera_top n);;
  para_cada (fun '(i, producto) => imprimir (Ev_puesto i producto))
    (zip (seq 1 (length (hasta n productos))) (hasta n productos)).

(** ** Loading, saving and the main program *)

Section Entorno.
(** Python's conversions between text and numbers: [int(s)] and
    [float(s)] ([None] when they raise [ValueError]), and the text
    [csv.writer] writes for an int and for a float. *)
Variable int_de : string -> option Z.
Variable float_de : string -> option float.
Variable texto_de_int : Z -> string.
Variable texto_de_float : float -> string.

(** [fila[columna]]: [KeyError] when the row has no such key, which is
    the case of a file whose header lacks the column. (A row shorter
    than the header, to which [csv.DictReader] gives the key with the
    value [None], is not represented: the rows of a file have text in
    every column of its header.) *)
Definition campo (f : fila) (columna : string) : R string :=
  match f !! columna with
  | Some v => inr v
  | None => inl (KeyError_campo columna)
  end.

Definition convertir {A} (de : string -> option A) (s : string) : R A :=
  match de s with
  | Some x => inr x
  | None => inl ValueError
  end.

(** The [Producto(...)] built from a row, arguments evaluated from
    left to right. *)
Definition producto_de_fila (f : fila) : R Producto :=
  t_id ← campo f "id";
  v_id ← convertir int_de t_id;
  v_nombre ← campo f "nombre";
  t_precio ← campo f "precio";
  v_precio ← convertir float_de t_precio;
  t_calificacion ← campo f "calificacion";
  v_calificacion ← convertir int_de t_calificacion;
  t_stock ← campo f "stock";
  v_stock ← convertir int_de t_stock;
  mret (mkProducto v_id v_nombre v_precio v_calificacion v_stock).

(** The loop over the rows, appending to [productos]. *)
Fixpoint leer_filas (filas : list fila) (productos : list Producto)
    : R (list Producto) :=
  match filas with
  | [] => inr productos
  | f :: resto =>
      producto ← producto_de_fila f;
      leer_filas resto (productos ++ [producto])
  end.

(** [leer_csv(nombre_archivo)]: [open] raises [FileNotFoundError] when
    the file does not exist, and the handler prints and falls through
    to [return productos]; any other exception propagates. *)
Definition leer_csv (nombre_archivo : string) : M (list Producto) :=
  fun w =>
    match archivos w !! nombre_archivo with
    | None =>
        (imprimir (Ev_no_existe nombre_archivo);; mret []) w
    | Some filas =>
        (productos ← elevar (leer_filas filas []);
         imprimir (Ev_leidos (length productos) nombre_archivo);;
         mret productos) w
    end.

Definition fila_de_producto (p : Producto) : fila :=
  <["id" := texto_de_int (id p)]>
    (<["nombre" := nombre p]>
       (<["precio" := texto_de_float (precio p)]>
          (<["calificacion" := texto_de_int (calificacion p)]>
             (<["stock" := texto_de_int (stock p)]> ∅)))).

(** [guardar_resultados(productos, nombre_archivo)]: the file is
    created or overwritten with one row per product. (The row holds
    the fields as they are written; how the [csv] module quotes a
    field, and what a later read in universal-newline mode makes of a
    carriage return inside a name, is not represented.) *)
Definition guardar_resultados (productos : list Producto)
    (nombre_archivo : string) : M unit :=
  (fun w =>
     (mkMundo (<[nombre_archivo := fila_de_producto <$> productos]> (archivos w))
              (salida w), inr tt));;
  imprimir (Ev_guardado nombre_archivo).

Definition indice {A} (l : list A) (i : nat) : R A :=
  match l !! i with
  | Some x => inr x
  | None => inl IndexError
  end.

(** [main()] *)
Definition main : M unit :=
  imprimir Ev_banner;;
  imprimir Ev_paso_lectura;;
  productos ← leer_csv "productos.csv";
  match productos with
  | [] => imprimir Ev_saliendo
  | _ :: _ =>
      imprimir Ev_paso_muestra;;
      para_cada
        (fun i => p ← elevar (indice productos i); imprimir (Ev_producto p))
        (seq 0 5);;
      analizar_datos productos;;
      imprimir (Ev_paso_orden (length productos));;
      let productos_ordenados := merge_sort productos in
      imprimir Ev_completada;;
      mostrar_mejores_productos productos_ordenados 25;;
      imprimir Ev_paso_guardado;;
      guardar_resultados productos_ordenados "productos_ordenados.csv";;
      imprimir Ev_fin
  end.
End Entorno.

(** ** The program on Python's object store

    Lists and dictionaries are mutable objects and a list holds
    references to its elements. This second model of [mezclar],
    [merge_sort] and [analizar_datos] makes every allocation, read and
    write of an object explicit, to state what the functions leave
    untouched. *)
Module Memoria.

(** Object identities. *)
Definition dir := nat.

Inductive objeto :=
  | Obj_producto (p : Producto)
  | Obj_lista (elementos : list dir)
  | Obj_dict (d : gmap Z Z).

Record estado := mkEstado {
  objetos : gmap dir objeto;
  salida : list evento
}.

Definition M (A : Type) : Type := estado -> estado * R A.

#[global] Instance M_ret : MRet M := fun _ x s => (s, inr x).
#[global] Instance M_bind : MBind M :=
  fun _ _ f m s =>
    match m s with
    | (s', inr x) => f x s'
    | (s', inl e) => (s', inl e)
    end.

Definition lanzar {A} (e : excepcion) : M A := fun s => (s, inl e).

Definition elevar {A} (r : R A) : M A := fun s => (s, r).

Definition imprimir (ev : evento) : M unit :=
  fun s => (mkEstado (objetos s) (salida s ++ [ev]), inr tt).

(** The store with the object [o] at the identity [a]. *)
Definition poner (a : dir) (o : objeto) (s : estado) : estado :=
  mkEstado (<[a := o]> (objetos s)) (salida s).
Arguments poner _ _ _ /.

(** A new object, at an identity not in use. *)
Definition nuevo (o : objeto) : M dir :=
  fun s => let a := fresh (dom (objetos s)) in (poner a o s, inr a).

Definition escribir (a : dir) (o : objeto) : M unit :=
  fun s => (poner a o s, inr tt).

Definition leer_lista (a : dir) : M (list dir) :=
  fun s =>
    match objetos s !! a with
    | Some (Obj_lista l) => (s, inr l)
    | _ => (s, inl TypeError)
    end.

Definition leer_dict (a : dir) : M (gmap Z Z) :=
  fun s =>
    match objetos s !! a with
    | Some (Obj_dict d) => (s, inr d)
    | _ => (s, inl TypeError)
    end.

(** The attributes of the [Producto] at [a]. *)
Definition leer_producto (a : dir) : M Producto :=
  fun s =>
    match objetos s !! a with
    | Some (Obj_producto p) => (s, inr p)
    | _ => (s, inl TypeError)
    end.

(** [len(l)] *)
Definition len (l : dir) : M nat :=
  elementos ← leer_lista l; mret (length elementos).

(** [l[i]] *)
Definition elemento (l : dir) (i : nat) : M dir :=
  elementos ← leer_lista l;
  match elementos !! i with
  | Some x => mret x
  | None => lanzar IndexError
  end.

(** [l[:n]] and [l[n:]]: new lists. *)
Definition rebanada_hasta (l : dir) (n : nat) : M dir :=
  elementos ← leer_lista l; nuevo (Obj_lista (take n elementos)).

Definition rebanada_desde (l : dir) (n : nat) : M dir :=
  elementos ← leer_lista l; nuevo (Obj_lista (drop n elementos)).

(** [l.append(x)] and [l.extend(otra)]: the list [l] is changed in
    place. *)
Definition append (l : dir) (x : dir) : M unit :=
  elementos ← leer_lista l; escribir l (Obj_lista (elementos ++ [x])).

Definition extend (l : dir) (otra : dir) : M unit :=
  nuevos ← leer_lista otra;
  elementos ← leer_lista l;
  escribir l (Obj_lista (elementos ++ nuevos)).

(** [d[k]] and [d[k] = v] *)
Definition dict_obtener (d : dir) (k : Z) : M Z :=
  contenido ← leer_dict d;
  match contenido !! k with
  | Some v => mret v
  | None => lanzar (KeyError k)
  end.

Definition dict_asignar (d : dir) (k v : Z) : M unit :=
  contenido ← leer_dict d; escribir d (Obj_dict (<[k := v]> contenido)).

(** [for x in l: cuerpo(x)]: the list iterator keeps an index and
    stops when it reaches the current length. [n] bounds the number
    of iterations. *)
Fixpoint iterar (n : nat) (l : dir) (i : nat) (cuerpo : dir -> M unit)
    : M unit :=
  match n with
  | O => mret tt
  | S n' =>
      largo ← len l;
      if (i <? largo)%nat then
        x ← elemento l i;
        cuerpo x;;
        iterar n' l (S i) cuerpo
      else mret tt
  end.

Definition para_cada_en (l : dir) (cuerpo : dir -> M unit) : M unit :=
  largo ← len l; iterar (S largo) l 0 cuerpo.

Fixpoint para_cada {A} (cuerpo : A -> M unit) (l : list A) : M unit :=
  match l with
  | [] => mret tt
  | x :: resto => cuerpo x;; para_cada cuerpo resto
  end.

(** The [while] loop of [mezclar]. *)
Fixpoint mezclar_bucle (n : nat) (izquierda derecha resultado : dir)
    (i j : nat) : M (nat * nat) :=
  match n with
  | O => mret (i, j)
  | S n' =>
      largo_i ← len izquierda;
      largo_d ← len derecha;
      if (i <? largo_i)%nat && (j <? largo_d)%nat then
        a ← elemento izquierda i;
        b ← elemento derecha j;
        pa ← leer_producto a;
        pb ← leer_producto b;
        if antes_o_igual pa pb then
          append resultado a;;
          mezclar_bucle n' izquierda derecha resultado (S i) j
        else
          append resultado b;;
          mezclar_bucle n' izquierda derecha resultado i (S j)
      else mret (i, j)
  end.

Definition mezclar (izquierda derecha : dir) : M dir :=
  resultado ← nuevo (Obj_lista []);
  largo_i ← len izquierda;
  largo_d ← len derecha;
  '(i, j) ← mezclar_bucle (largo_i + largo_d) izquierda derecha resultado 0 0;
  resto_i ← rebanada_desde izquierda i;
  extend resultado resto_i;;
  resto_d ← rebanada_desde derecha j;
  extend resultado resto_d;;
  mret resultado.

Fixpoint merge_sort_rec (n : nat) (productos : dir) : M dir :=
  match n with
  | O => mret productos
  | S n' =>
      largo ← len productos;
      if (largo <=? 1)%nat then mret productos
      else
        let medio := (largo / 2)%nat in
        izquierda ← rebanada_hasta productos medio;
        derecha ← rebanada_desde productos medio;
        izquierda_ordenada ← merge_sort_rec n' izquierda;
        derecha_ordenada ← merge_sort_rec n' derecha;
        mezclar izquierda_ordenada derecha_ordenada
  end.

(** [merge_sort(productos)]: a list of at most one element is
    returned as it is (the same object), a longer one is sorted into
    a new list. *)
Definition merge_sort (productos : dir) : M dir :=
  largo ← len productos; merge_sort_rec largo productos.

(** [min(l, key=lambda x: x.precio)] over the elements of a list. *)
Fixpoint min_precio (actual : dir) (resto : list dir) : M dir :=
  match resto with
  | [] => mret actual
  | x :: resto' =>
      px ← leer_producto x;
      pa ← leer_producto actual;
      if (precio px <? precio pa)%float then min_precio x resto'
      else min_precio actual resto'
  end.

Definition analizar_datos (productos : dir) : M unit :=
  imprimir Ev_cabecera_analisis;;
  calificaciones ← nuevo (Obj_dict calificaciones_iniciales);
  para_cada_en productos
    (fun producto =>
       p ← leer_producto producto;
       cantidad ← dict_obtener calificaciones (calificacion p);
       dict_asignar calificaciones (calificacion p) (cantidad + 1));;
  contenido ← leer_dict calificaciones;
  para_cada
    (fun '(calif, cantidad) =>
       largo ← len productos;
       cociente ← elevar (division_real cantidad (Z.of_nat largo));
       imprimir (Ev_calificacion calif cantidad (cociente * Z_a_float 100)%float))
    (sorted_reverse (map_to_list contenido));;
  productos_5_estrellas ← nuevo (Obj_lista []);
  para_cada_en productos
    (fun producto =>
       p ← leer_producto producto;
       if calificacion p =? 5 then append productos_5_estrellas producto
       else mret tt);;
  cinco ← leer_lista productos_5_estrellas;
  imprimir (Ev_cinco_estrellas (length cinco));;
  match cinco with
  | [] => mret tt
  | primero :: resto =>
      mas_barato_5 ← min_precio primero resto;
      p ← leer_producto mas_barato_5;
      imprimir (Ev_mas_barato (nombre p) (precio p))
  end.

End Memoria.

(** * Specification vocabulary *)

(** Every adjacent pair of the list passes the test of the merge loop,
    [comparar_productos(x, y) <= 0]. *)
Definition ordenada (l : list Producto) : Prop :=
  forall i x y, l !! i = Some x -> l !! S i = Some y ->
                antes_o_igual x y = true.

(** The same test as a relation. *)
Definition precede (a b : Producto) : Prop := antes_o_igual a b = true.

(** No price of the list is NaN. *)
Definition sin_nan (l : list Producto) : Prop :=
  forall p, In p l -> is_nan (precio p) = false.

(** Same rating and same price (as [==] compares them). *)
Definition misma_clave (x y : Producto) : bool :=
  (calificacion x =? calificacion y) && (precio x =? precio y)%float.

(** The merge as a structural recursion on the two lists. *)
Fixpoint mezcla (l1 : list Producto) : list Producto -> list Producto :=
  fix resto (l2 : list Producto) : list Producto :=
    match l1, l2 with
    | [], _ => l2
    | _, [] => l1
    | a :: l1', b :: l2' =>
        if antes_o_igual a b then a :: mezcla l1' l2 else b :: resto l2'
    end.

(** ** Binary64 numbers: sign and order *)

(** [r] is an infinity or a finite non-zero number of sign [s]. *)
Definition con_signo (s : bool) (r : spec_float) : Prop :=
  match r with
  | S754_finite s' _ _ | S754_infinity s' => s' = s
  | _ => False
  end.

(** An order-preserving key for the numbers that are not NaN. *)
Definition rango (x : spec_float) : Z * (Z * Z) :=
  match x with
  | S754_nan | S754_zero _ => (0, (0, 0))
  | S754_infinity s => (if s then -2 else 2, (0, 0))
  | S754_finite s m e => if s then (-1, (- e, Z.neg m)) else (1, (e, Z.pos m))
  end.

(** Lexicographic comparison of two keys. *)
Definition lex_compare (a b : Z * (Z * Z)) : comparison :=
  match a.1 ?= b.1 with
  | Eq => match a.2.1 ?= b.2.1 with Eq => a.2.2 ?= b.2.2 | c => c end
  | c => c
  end.

(** The comparison of two binary64 numbers: [None] when one is NaN. *)
Definition fcompare (x y : float) : option comparison :=
  SFcompare (Prim2SF x) (Prim2SF y).

(** ** Concrete inputs *)

(** The four products of the ranking scenario. *)
Definition prod_1 := mkProducto 1 "A" 10.0 3 5.
Definition prod_2 := mkProducto 2 "B" 5.0 5 2.
Definition prod_3 := mkProducto 3 "C" 20.0 5 1.
Definition prod_4 := mkProducto 4 "D" 8.0 3 9.
Definition catalogo_4 : list Producto := [prod_1; prod_2; prod_3; prod_4].

(** Products of one rating; [prod_nan] is what the loader builds from a
    row whose price column reads [nan]. *)
Definition prod_a := mkProducto 1 "A" 1.0 3 1.
Definition prod_nan := mkProducto 2 "C" nan 3 1.
Definition prod_b := mkProducto 3 "B" 1.0 3 1.
Definition prod_d := mkProducto 4 "D" 2.0 3 1.

(** A catalogue with a tie: [prod_a] and [prod_b] have the same rating
    and price, [prod_a] is in the first half and [prod_b] in the
    second. *)
Definition catalogo_empate : list Producto := [prod_d; prod_a; prod_2; prod_b].

(** A world with no file and nothing printed. *)
Definition mundo_vacio : mundo := mkMundo ∅ [].

(** Rating within the keys of the histogram. *)
Definition en_dominio (p : Producto) : Prop :=
  1 <= calificacion p <= 5.

(** The dictionary has exactly the keys 1 to 5. *)
Definition claves_1_5 (d : gmap Z Z) : Prop :=
  forall k, is_Some (d !! k) <-> 1 <= k <= 5.

(** The computation never raises the exception [e]. *)
Definition no_lanza {A} (e : excepcion) (m : M A) : Prop :=
  forall w, (m w).2 <> inl e.

(** ** Vocabulary for the object store *)

(** Every object of [s] is in [s'], unchanged. *)
Definition conserva (s s' : Memoria.estado) : Prop :=
  forall a o,
    Memoria.objetos s !! a = Some o -> Memoria.objetos s' !! a = Some o.

(** Started in any state that conserves [s0], the computation ends
    (returning or raising) in a state that conserves [s0], and a value
    it returns satisfies [Q]. *)
Definition marco (s0 : Memoria.estado) {A} (m : Memoria.M A) (Q : A -> Prop)
    : Prop :=
  forall s, conserva s0 s ->
    conserva s0 (m s).1 /\ forall x, (m s).2 = inr x -> Q x.

(** No object of [s0] has the identity [a]. *)
Definition nueva_en (s0 : Memoria.estado) (a : Memoria.dir) : Prop :=
  Memoria.objetos s0 !! a = None.

(** The object at [a] is the product [p]. *)
Definition apunta (s : Memoria.estado) (a : Memoria.dir) (p : Producto) : Prop :=
  Memoria.objetos s !! a = Some (Memoria.Obj_producto p).

(** The object at [l] is a list whose elements are the products [ps],
    in order. *)
Definition lista_en (s : Memoria.estado) (l : Memoria.dir) (ps : list Producto)
    : Prop :=
  exists elementos,
    Memoria.objetos s !! l = Some (Memoria.Obj_lista elementos) /\
    Forall2 (apunta s) elementos ps.

(** The counting loop, as a function of the product read. *)
Definition cuerpo_contar (calificaciones : Memoria.dir) (producto : Memoria.dir)
    : Memoria.M unit :=
  p ← Memoria.leer_producto producto;
  cantidad ← Memoria.dict_obtener calificaciones (calificacion p);
  Memoria.dict_asignar calificaciones (calificacion p) (cantidad + 1).

Definition cuerpo_filtrar (cinco : Memoria.dir) (producto : Memoria.dir)
    : Memoria.M unit :=
  p ← Memoria.leer_producto producto;
  if calificacion p =? 5 then Memoria.append cinco producto else mret tt.

(** The last part of [analizar_datos]: the five-star products. *)
Definition cola_cinco_mem (productos : Memoria.dir) : Memoria.M unit :=
  productos_5_estrellas ← Memoria.nuevo (Memoria.Obj_lista []);
  Memoria.para_cada_en productos (cuerpo_filtrar productos_5_estrellas);;
  cinco ← Memoria.leer_lista productos_5_estrellas;
  Memoria.imprimir (Ev_cinco_estrellas (length cinco));;
  match cinco with
  | [] => mret tt
  | primero :: resto =>
      mas_barato_5 ← Memoria.min_precio primero resto;
      p ← Memoria.leer_producto mas_barato_5;
      Memoria.imprimir (Ev_mas_barato (nombre p) (precio p))
  end.

Definition cola_cinco (productos : list Producto) : M unit :=
  let productos_5_estrellas :=
    List.filter (fun p => calificacion p =? 5) productos in
  imprimir (Ev_cinco_estrellas (length productos_5_estrellas));;
  match productos_5_estrellas with
  | [] => mret tt
  | primero :: resto =>
      let mas_barato_5 := min_precio primero resto in
      imprimir (Ev_mas_barato (nombre mas_barato_5) (precio mas_barato_5))
  end.

Definition lineas_porcentaje_mem (productos : Memoria.dir)
    (items : list (Z * Z)) : Memoria.M unit :=
  Memoria.para_cada
    (fun '(calif, cantidad) =>
       largo ← Memoria.len productos;
       cociente ← Memoria.elevar (division_real cantidad (Z.of_nat largo));
       Memoria.imprimir
         (Ev_calificacion calif cantidad (cociente * Z_a_float 100)%float))
    items.

Definition lineas_porcentaje (productos : list Producto)
    (items : list (Z * Z)) : M unit :=
  para_cada
    (fun '(calif, cantidad) =>
       cociente ← elevar (division_real cantidad (Z.of_nat (length productos)));
       imprimir (Ev_calificacion calif cantidad (cociente * Z_a_float 100)%float))
    items.

(** A store with the four products of the ranking scenario and the
    list that holds them. *)
Definition estado_4 : Memoria.estado :=
  Memoria.mkEstado
    (list_to_map
       [(0%nat, Memoria.Obj_producto prod_1);
        (1%nat, Memoria.Obj_producto prod_2);
        (2%nat, Memoria.Obj_producto prod_3);
        (3%nat, Memoria.Obj_producto prod_4);
        (4%nat, Memoria.Obj_lista [0; 1; 2; 3]%nat)])
    [].

(** ** Vocabulary for the report, the files and the main program *)

(** The number of products of the list with the rating [k]. *)
Definition cuenta (k : Z) (l : list Producto) : Z :=
  Z.of_nat (length (List.filter (fun p => calificacion p =? k) l)).

(** The histogram line of the rating [k]: its count and the
    percentage, computed as the program does. *)
Definition linea_calificacion (l : list Producto) (k : Z) : evento :=
  Ev_calificacion k (cuenta k l)
    (Z_a_float (cuenta k l) / Z_a_float (Z.of_nat (length l))
     * Z_a_float 100)%float.

(** The lines about the five-star products. *)
Definition lineas_cinco (l : list Producto) : list evento :=
  let cinco := List.filter (fun p => calificacion p =? 5) l in
  Ev_cinco_estrellas (length cinco) ::
  match cinco with
  | [] => []
  | primero :: resto =>
      [Ev_mas_barato (nombre (min_precio primero resto))
         (precio (min_precio primero resto))]
  end.

(** The ranking lines of [mostrar_mejores_productos]: the products
    numbered from 1. *)
Definition puestos (l : list Producto) : list evento :=
  imap (fun i p => Ev_puesto (S i) p) l.

(** What [main] prints when it runs to the end on the products [ps]. *)
Definition salida_main (ps : list Producto) : list evento :=
  [Ev_banner; Ev_paso_lectura; Ev_leidos (length ps) "productos.csv";
   Ev_paso_muestra]
  ++ (Ev_producto <$> take 5 ps)
  ++ [Ev_cabecera_analisis]
  ++ (linea_calificacion ps <$> [5; 4; 3; 2; 1])
  ++ lineas_cinco ps
  ++ [Ev_paso_orden (length ps); Ev_completada; Ev_cabecera_top 25]
  ++ puestos (take 25 (merge_sort ps))
  ++ [Ev_paso_guardado; Ev_guardado "productos_ordenados.csv"; Ev_fin].

(** The computation changes no file. *)
Definition no_toca {A} (m : M A) : Prop :=
  forall w, archivos (m w).1 = archivos w.

(** The computation changes no file other than [nombre_archivo], and
    what was printed before it stays printed. *)
Definition solo_escribe {A} (nombre_archivo : string) (m : M A) : Prop :=
  forall w,
    delete nombre_archivo (archivos (m w).1)
    = delete nombre_archivo (archivos w)
    /\ salida w `prefix_of` salida (m w).1.

(** When the computation raises, it has changed no file. *)
Definition falla_limpia {A} (m : M A) : Prop :=
  forall w e, (m w).2 = inl e -> archivos (m w).1 = archivos w.

(** The rating does not increase along the list. *)
Definition por_calificacion (l : list Producto) : Prop :=
  forall i x y, l !! i = Some x -> l !! S i = Some y ->
                calificacion y <= calificacion x.

(** The same for a pair of products. *)
Definition no_peor (a b : Producto) : Prop := calificacion b <= calificacion a.

(** The part of [main] after the call of [leer_csv], from the test
    [if not productos] on. *)
Definition main_con_productos (texto_de_int : Z -> string)
    (texto_de_float : float -> string) (productos : list Producto) : M unit :=
  match productos with
  | [] => imprimir Ev_saliendo
  | _ :: _ =>
      imprimir Ev_paso_muestra;;
      para_cada
        (fun i => p ← elevar (indice productos i); imprimir (Ev_producto p))
        (seq 0 5);;
      analizar_datos productos;;
      imprimir (Ev_paso_orden (length productos));;
      let productos_ordenados := merge_sort productos in
      imprimir Ev_completada;;
      mostrar_mejores_productos productos_ordenados 25;;
      imprimir Ev_paso_guardado;;
      guardar_resultados texto_de_int texto_de_float productos_ordenados
        "productos_ordenados.csv";;
      imprimir Ev_fin
  end.

Section Entorno_vocab.
Variable int_de : string -> option Z.
Variable float_de : string -> option float.
Variable texto_de_int : Z -> string.
Variable texto_de_float : float -> string.

(** The row [f] converts to the product [p]. *)
Definition convierte (f : fila) (p : Producto) : Prop :=
  producto_de_fila int_de float_de f = inr p.
End Entorno_vocab.

(** The columns that [leer_csv] reads. *)
Definition columnas : list string :=
  ["id"; "nombre"; "precio"; "calificacion"; "stock"].

(** ** Concrete files *)

From Stdlib Require Import DecimalString.

(** A fifth product for the scenario, and the catalogue of five. *)
Definition prod_5 := mkProducto 5 "E" 2.0 4 7.
Definition catalogo_5 : list Producto := catalogo_4 ++ [prod_5].

(** Conversions for the texts of the scenario: integers as decimal
    numerals with an optional minus sign, which is what [str] writes
    ([int] accepts more: spaces, a plus sign, underscores), and the
    prices of the scenario as [repr] writes them. *)
Definition texto_de_int_decimal (z : Z) : string :=
  NilZero.string_of_int (Z.to_int z).

Definition int_de_decimal (s : string) : option Z :=
  Z.of_int <$> NilZero.int_of_string s.

Definition tabla_precios : list (string * float) :=
  [("10.0", 10.0%float); ("5.0", 5.0%float); ("20.0", 20.0%float);
   ("8.0", 8.0%float); ("2.0", 2.0%float)].

Definition texto_de_float_tabla (x : float) : string :=
  match List.find (fun '(_, y) => (x =? y)%float) tabla_precios with
  | Some (s, _) => s
  | None => "nan"
  end.

Definition float_de_tabla (s : string) : option float :=
  snd <$> List.find (fun '(t, _) => String.eqb s t) tabla_precios.

(** The rows written for a list of products, and the world whose only
    file is "productos.csv" with these rows. *)
Definition filas_de (ps : list Producto) : list fila :=
  fila_de_producto texto_de_int_decimal texto_de_float_tabla <$> ps.

Definition mundo_con (filas : list fila) : mundo :=
  mkMundo {["productos.csv" := filas]} [].

(** The row of [prod_2] with a price that is no number. *)
Definition fila_mala : fila :=
  <["precio" := "caro"]>
    (fila_de_producto texto_de_int_decimal texto_de_float_tabla prod_2).

(** * Binary64 arithmetic

    Facts about the kernel's floating-point numbers that the comparator
    depends on, proved on their specification [SpecFloat]: comparison is
    a total preorder away from NaN, and a subtraction [x - y] of two
    numbers that differ compares with zero as [x] compares with [y],
    after rounding and also on overflow. *)

Lemma digits2_pos_size m : digits2_pos m = Pos.size m.
Proof. induction m; simpl; congruence. Qed.

Lemma digits2_pos_lower m : 2 ^ (Z.pos (digits2_pos m) - 1) <= Z.pos m.
Proof.
  rewrite digits2_pos_size.
  pose proof (Pos.size_le m) as H.
  assert (Hp : (2 ^ Pos.size m <= m~0)%positive) by exact H.
  apply Pos2Z.pos_le_pos in Hp. rewrite Pos2Z.inj_pow in Hp.
  replace (Z.pos (Pos.size m)) with (Z.succ (Z.pos (Pos.size m) - 1)) in Hp by lia.
  rewrite Z.pow_succ_r in Hp by lia. lia.
Qed.

Lemma digits2_pos_upper m : Z.pos m < 2 ^ Z.pos (digits2_pos m).
Proof.
  rewrite digits2_pos_size.
  pose proof (Pos.size_gt m) as H.
  apply Pos2Z.pos_lt_pos in H. rewrite Pos2Z.inj_pow in H. exact H.
Qed.

Lemma iter_pos_nat {A} (f : A -> A) p x :
  SpecFloat.iter_pos f p x = Nat.iter (Pos.to_nat p) f x.
Proof.
  revert x. induction p as [p IH|p IH|]; intros x; cbn [SpecFloat.iter_pos].
  - rewrite !IH, Pos2Nat.inj_xI.
    replace (S (2 * Pos.to_nat p))%nat
      with (Pos.to_nat p + S (Pos.to_nat p))%nat by lia.
    rewrite Nat.iter_add, Nat.iter_succ_r. reflexivity.
  - rewrite !IH, Pos2Nat.inj_xO.
    replace (2 * Pos.to_nat p)%nat with (Pos.to_nat p + Pos.to_nat p)%nat by lia.
    rewrite Nat.iter_add. reflexivity.
  - reflexivity.
Qed.

Lemma shr_1_m mrs : 0 <= shr_m mrs -> shr_m (shr_1 mrs) = Z.div2 (shr_m mrs).
Proof.
  destruct mrs as [m r s]; simpl.
  destruct m as [|[p|p|]|p]; simpl; try reflexivity; lia.
Qed.

Lemma iter_shr_1_m n mrs :
  0 <= shr_m mrs -> shr_m (Nat.iter n shr_1 mrs) = shr_m mrs / 2 ^ Z.of_nat n.
Proof.
  intros Hm. induction n as [|n IH].
  - simpl. rewrite Z.div_1_r. reflexivity.
  - rewrite Nat2Z.inj_succ, Z.pow_succ_r by lia. simpl.
    rewrite shr_1_m.
    + rewrite IH, Z.div2_div, Z.mul_comm, Z.div_div by lia. reflexivity. 
    + rewrite IH. apply Z.div_pos; lia.
Qed.

Lemma shr_record_of_loc_m m l : shr_m (shr_record_of_loc m l) = m.
Proof. destruct l as [|[]]; reflexivity. Qed.

Lemma shr_fexp_pos q e l mrs e' :
  emin <= e ->
  shr_fexp prec emax (Z.pos q) e l = (mrs, e') ->
  0 < shr_m mrs /\ emin <= e'.
Proof.
  intros He. unfold shr_fexp, shr. cbn [Zdigits2].
  pose proof (digits2_pos_lower q) as Hlo.
  destruct (fexp prec emax (Z.pos (digits2_pos q) + e) - e) as [|p|p] eqn:Hn;
    intros [= <- <-].
  - rewrite shr_record_of_loc_m. lia.
  - rewrite iter_pos_nat, iter_shr_1_m, shr_record_of_loc_m, positive_nat_Z
      by (rewrite shr_record_of_loc_m; lia).
    unfold fexp, SpecFloat.emin, prec, emax in *.
    split; [|lia].
    apply Z.div_str_pos. split; [apply Z.pow_pos_nonneg; lia|].
    etransitivity; [|exact Hlo]. apply Z.pow_le_mono_r; lia.
  - rewrite shr_record_of_loc_m. lia.
Qed.

Lemma round_nearest_even_pos m l : 0 < m -> 0 < round_nearest_even m l.
Proof.
  intros Hm. destruct l as [|[]]; simpl; try lia. destruct (Z.even m); lia.
Qed.

Lemma binary_round_aux_signo s q e l :
  emin <= e -> con_signo s (binary_round_aux prec emax s (Z.pos q) e l).
Proof.
  intros He. unfold binary_round_aux.
  destruct (shr_fexp prec emax (Z.pos q) e l) as [mrs1 e1] eqn:H1.
  apply shr_fexp_pos in H1 as [Hm1 He1]; [|exact He].
  pose proof (round_nearest_even_pos (shr_m mrs1) (loc_of_shr_record mrs1) Hm1) as Hr.
  destruct (round_nearest_even (shr_m mrs1) (loc_of_shr_record mrs1)) as [|q2|q2];
    try lia.
  destruct (shr_fexp prec emax (Z.pos q2) e1 loc_Exact) as [mrs2 e2] eqn:H2.
  apply shr_fexp_pos in H2 as [Hm2 He2]; [|exact He1].
  destruct (shr_m mrs2) as [|q3|q3]; try lia.
  destruct (e2 <=? emax - prec); reflexivity.
Qed.

Lemma binary_round_signo s m e :
  emin <= e -> con_signo s (binary_round prec emax s m e).
Proof.
  intros He. unfold binary_round.
  destruct (shl_align m e (fexp prec emax (Z.pos (digits2_pos m) + e)))
    as [mz ez] eqn:Hs.
  apply binary_round_aux_signo.
  unfold shl_align in Hs.
  destruct (fexp prec emax (Z.pos (digits2_pos m) + e) - e) eqn:Hd;
    injection Hs as <- <-; try lia.
  unfold fexp, SpecFloat.emin, prec, emax in *. lia.
Qed.

Lemma binary_normalize_signo m e :
  emin <= e -> m <> 0 ->
  con_signo (m <? 0) (binary_normalize prec emax m e false).
Proof.
  intros He Hm. destruct m as [|q|q]; [lia| |]; simpl; now apply binary_round_signo.
Qed.

Lemma shl_align_fst m e e' :
  e' <= e -> Z.pos (fst (shl_align m e e')) = Z.pos m * 2 ^ (e - e').
Proof.
  intros Hle. unfold shl_align.
  destruct (e' - e) as [|d|d] eqn:Hd; cbn [fst]; try lia.
  - replace (e - e') with 0 by lia. lia.
  - change (Pos.iter xO m d) with (shift_pos d m).
    rewrite shift_pos_correct, Z.pow_pos_fold.
    replace (e - e') with (Z.pos d) by lia. lia.
Qed.

Lemma bounded_inv m e :
  bounded prec emax m e = true ->
  emin <= e /\ Z.pos (digits2_pos m) <= prec /\
  (emin < e -> Z.pos (digits2_pos m) = prec).
Proof.
  unfold bounded, canonical_mantissa, fexp, SpecFloat.emin, prec, emax.
  intros [H%Z.eqb_eq _]%andb_true_iff. lia.
Qed.

Lemma alinea_lt mx ex my ey :
  bounded prec emax mx ex = true -> bounded prec emax my ey = true ->
  ex < ey ->
  Z.pos (fst (shl_align mx ex (Z.min ex ey)))
  < Z.pos (fst (shl_align my ey (Z.min ex ey))).
Proof.
  intros (Hex & Hdx & _)%bounded_inv (Hey & _ & Hdy)%bounded_inv Hlt.
  rewrite !shl_align_fst by lia.
  rewrite Z.min_l by lia. rewrite Z.sub_diag, Z.pow_0_r, Z.mul_1_r.
  pose proof (digits2_pos_upper mx) as Hux.
  pose proof (digits2_pos_lower my) as Hly.
  rewrite Hdy in Hly by lia.
  assert (Z.pos mx < 2 ^ prec) as Hmx.
  { eapply Z.lt_le_trans; [exact Hux|]. apply Z.pow_le_mono_r; lia. }
  assert (2 ^ 1 <= 2 ^ (ey - ex)) as Hp by (apply Z.pow_le_mono_r; lia).
  assert (2 ^ prec = 2 ^ (prec - 1) * 2 ^ 1) as Hpp
    by (rewrite <- Z.pow_add_r by (unfold prec; lia); f_equal; lia).
  assert (0 < 2 ^ (prec - 1)) by (apply Z.pow_pos_nonneg; unfold prec; lia).
  nia.
Qed.

Lemma alinea_eq mx my e :
  Z.pos (fst (shl_align mx e (Z.min e e))) = Z.pos mx /\
  Z.pos (fst (shl_align my e (Z.min e e))) = Z.pos my.
Proof.
  rewrite !shl_align_fst by lia. rewrite Z.min_id, Z.sub_diag. lia.
Qed.

(** The exact difference of the aligned mantissas of two valid finite
    numbers has the sign of their comparison. *)
Lemma diferencia_signo sx mx ex sy my ey c :
  bounded prec emax mx ex = true -> bounded prec emax my ey = true ->
  SFcompare (S754_finite sx mx ex) (S754_finite sy my ey) = Some c ->
  let d := cond_Zopp sx (Z.pos (fst (shl_align mx ex (Z.min ex ey))))
           - cond_Zopp sy (Z.pos (fst (shl_align my ey (Z.min ex ey)))) in
  match c with Lt => d < 0 | Eq => d = 0 | Gt => 0 < d end.
Proof.
  intros Hx Hy Hc. cbn [SFcompare] in Hc. injection Hc as <-.
  change (Pos.compare_cont Eq mx my) with (mx ?= my)%positive.
  cbv zeta.
  destruct (Z.compare_spec ex ey) as [->|Hl|Hl].
  - destruct (alinea_eq mx my ey) as [-> ->].
    destruct sx, sy; cbn [cond_Zopp]; try lia;
      destruct (Pos.compare_spec mx my); cbn [CompOpp]; lia.
  - pose proof (alinea_lt _ _ _ _ Hx Hy Hl).
    destruct sx, sy; cbn [cond_Zopp]; lia.
  - pose proof (alinea_lt _ _ _ _ Hy Hx Hl) as H.
    rewrite (Z.min_comm ey ex) in H.
    destruct sx, sy; cbn [cond_Zopp]; lia.
Qed.

(** Subtraction of two valid finite numbers that compare as different
    has the sign of the comparison, whatever the rounding and even on
    overflow. *)
Lemma SFsub_finito_signo sx mx ex sy my ey c :
  bounded prec emax mx ex = true -> bounded prec emax my ey = true ->
  SFcompare (S754_finite sx mx ex) (S754_finite sy my ey) = Some c ->
  c <> Eq ->
  con_signo (match c with Lt => true | _ => false end)
    (SFsub prec emax (S754_finite sx mx ex) (S754_finite sy my ey)).
Proof.
  intros Hx Hy Hc Hne. cbn [SFsub].
  pose proof (bounded_inv _ _ Hx) as (Hex & _).
  pose proof (bounded_inv _ _ Hy) as (Hey & _).
  pose proof (diferencia_signo _ _ _ _ _ _ _ Hx Hy Hc) as Hd. cbv zeta in Hd.
  match goal with |- con_signo _ (binary_normalize _ _ ?d ?e _) =>
    pose proof (binary_normalize_signo d e) as Hn end.
  destruct c; [congruence| |].
  - rewrite (proj2 (Z.ltb_lt _ _) Hd) in Hn. apply Hn; lia.
  - rewrite (proj2 (Z.ltb_ge _ _)) in Hn by lia. apply Hn; lia.
Qed.

Lemma SFsub_signo x y c :
  valid_binary x = true -> valid_binary y = true ->
  SFcompare x y = Some c -> c <> Eq ->
  con_signo (match c with Lt => true | _ => false end) (SFsub prec emax x y).
Proof.
  intros Hx Hy Hc Hne.
  destruct x as [sx|sx| |sx mx ex], y as [sy|sy| |sy my ey];
    try discriminate Hc;
    try (apply SFsub_finito_signo; assumption);
    cbn in Hc; injection Hc as <-;
    repeat match goal with s : bool |- _ => destruct s end;
    cbn; congruence.
Qed.

Lemma con_signo_compare s r :
  con_signo s r ->
  SFcompare r (S754_zero false) = Some (if s then Lt else Gt).
Proof. destruct r as [| | |s' m e]; cbn; try tauto; intros ->; reflexivity. Qed.

Lemma con_signo_compare_r s r :
  con_signo s r ->
  SFcompare (S754_zero false) r = Some (if s then Gt else Lt).
Proof. destruct r as [| | |s' m e]; cbn; try tauto; intros ->; reflexivity. Qed.

Lemma SFcompare_rango x y :
  x <> S754_nan -> y <> S754_nan ->
  SFcompare x y = Some (lex_compare (rango x) (rango y)).
Proof.
  intros Hx Hy.
  destruct x as [sx|sx| |sx mx ex], y as [sy|sy| |sy my ey]; try congruence;
    repeat match goal with s : bool |- _ => destruct s end;
    try reflexivity; unfold lex_compare; cbn.
  rewrite Z.compare_opp, (Z.compare_antisym ex ey).
  destruct (ex ?= ey); reflexivity.
Qed.

Lemma SFcompare_nan_l y : SFcompare S754_nan y = None.
Proof. reflexivity. Qed.

Lemma SFcompare_nan_r x : SFcompare x S754_nan = None.
Proof. destruct x; reflexivity. Qed.

Lemma lex_compare_spec a b :
  match lex_compare a b with
  | Lt => a.1 < b.1 \/
          (a.1 = b.1 /\ (a.2.1 < b.2.1 \/ (a.2.1 = b.2.1 /\ a.2.2 < b.2.2)))
  | Eq => a = b
  | Gt => b.1 < a.1 \/
          (a.1 = b.1 /\ (b.2.1 < a.2.1 \/ (a.2.1 = b.2.1 /\ b.2.2 < a.2.2)))
  end.
Proof.
  destruct a as [a1 [a2 a3]], b as [b1 [b2 b3]]. unfold lex_compare. cbn.
  destruct (Z.compare_spec a1 b1); [|lia|lia].
  destruct (Z.compare_spec a2 b2); [|lia|lia].
  destruct (Z.compare_spec a3 b3); [|lia|lia].
  congruence.
Qed.

(** *** Comparison of binary64 numbers *)

Lemma leb_fcompare x y :
  (x <=? y)%float = match fcompare x y with Some (Lt | Eq) => true | _ => false end.
Proof. rewrite FloatAxioms.leb_spec. reflexivity. Qed.

Lemma ltb_fcompare x y :
  (x <? y)%float = match fcompare x y with Some Lt => true | _ => false end.
Proof. rewrite FloatAxioms.ltb_spec. reflexivity. Qed.

Lemma eqb_fcompare x y :
  (x =? y)%float = match fcompare x y with Some Eq => true | _ => false end.
Proof. rewrite FloatAxioms.eqb_spec. reflexivity. Qed.

Lemma SFcompare_refl x : x <> S754_nan -> SFcompare x x = Some Eq.
Proof.
  intros Hx. rewrite SFcompare_rango by assumption.
  pose proof (lex_compare_spec (rango x) (rango x)) as H.
  destruct (lex_compare (rango x) (rango x)); [reflexivity|lia|lia].
Qed.

Lemma is_nan_Prim2SF x : is_nan x = true <-> Prim2SF x = S754_nan.
Proof.
  unfold is_nan. rewrite FloatAxioms.eqb_spec. unfold SFeqb. split.
  - intros H. destruct (Prim2SF x) eqn:E; try reflexivity;
      rewrite SFcompare_refl in H by discriminate; discriminate.
  - intros ->. reflexivity.
Qed.

Lemma fcompare_None x y :
  fcompare x y = None <-> is_nan x = true \/ is_nan y = true.
Proof.
  pose proof (is_nan_Prim2SF x) as Hx. pose proof (is_nan_Prim2SF y) as Hy.
  unfold fcompare. split.
  - intros H.
    destruct (Prim2SF x) eqn:Ex; [| |tauto|];
      (destruct (Prim2SF y) eqn:Ey; [| |tauto|]);
      rewrite SFcompare_rango in H by discriminate; discriminate.
  - intros [E | E]; [apply Hx in E|apply Hy in E]; rewrite E;
      [apply SFcompare_nan_l|apply SFcompare_nan_r].
Qed.

Lemma fcompare_Some x y c :
  fcompare x y = Some c -> is_nan x = false /\ is_nan y = false.
Proof.
  intros Hc.
  destruct (is_nan x) eqn:Hx, (is_nan y) eqn:Hy; auto;
    assert (fcompare x y = None) as N by (apply fcompare_None; auto);
    congruence.
Qed.

Lemma fcompare_antisym x y :
  fcompare y x = option_map CompOpp (fcompare x y).
Proof.
  unfold fcompare.
  destruct (Prim2SF x) eqn:Ex, (Prim2SF y) eqn:Ey; try reflexivity;
    rewrite 2!SFcompare_rango by discriminate; cbn [option_map]; f_equal;
    match goal with |- lex_compare ?a ?b = _ =>
      pose proof (lex_compare_spec a b); pose proof (lex_compare_spec b a);
      destruct (lex_compare a b), (lex_compare b a); cbn [CompOpp];
      first [reflexivity | exfalso; subst; lia
            | exfalso;
              repeat match goal with H : _ = _ :> (Z * (Z * Z)) |- _ =>
                rewrite H in * end; lia ]
    end.
Qed.

Lemma fcompare_trans x y z c1 c2 :
  fcompare x y = Some c1 -> fcompare y z = Some c2 ->
  c1 <> Gt -> c2 <> Gt ->
  exists c3, fcompare x z = Some c3 /\ c3 <> Gt /\
             (c3 = Eq -> c1 = Eq /\ c2 = Eq).
Proof.
  unfold fcompare. intros H1 H2 Hc1 Hc2.
  assert (Prim2SF x <> S754_nan) as Hx by (intros E; rewrite E in H1; discriminate).
  assert (Prim2SF y <> S754_nan) as Hy
    by (intros E; rewrite E in H2; discriminate).
  assert (Prim2SF z <> S754_nan) as Hz
    by (intros E; rewrite E, SFcompare_nan_r in H2; discriminate).
  rewrite SFcompare_rango in * by assumption.
  injection H1 as <-. injection H2 as <-.
  eexists; split; [reflexivity|].
  pose proof (lex_compare_spec (rango (Prim2SF x)) (rango (Prim2SF y))) as A.
  pose proof (lex_compare_spec (rango (Prim2SF y)) (rango (Prim2SF z))) as B.
  pose proof (lex_compare_spec (rango (Prim2SF x)) (rango (Prim2SF z))) as C.
  destruct (rango (Prim2SF x)) as [a1 [a2 a3]], (rango (Prim2SF y)) as [b1 [b2 b3]],
    (rango (Prim2SF z)) as [d1 [d2 d3]].
  cbn [fst snd] in *.
  destruct (lex_compare (a1, (a2, a3)) (b1, (b2, b3))); try congruence;
  destruct (lex_compare (b1, (b2, b3)) (d1, (d2, d3))); try congruence;
  destruct (lex_compare (a1, (a2, a3)) (d1, (d2, d3)));
    repeat match goal with H : (_, _) = (_, _) |- _ => injection H as ??; subst end;
    (split; [try discriminate|try (intros; split; reflexivity)]);
    try (intros ?; exfalso; lia); try (exfalso; lia); try discriminate; try lia.
Qed.

Lemma Prim2SF_cero : Prim2SF 0%float = S754_zero false.
Proof. reflexivity. Qed.

Lemma SFsub_nan_r x : SFsub prec emax x S754_nan = S754_nan.
Proof. destruct x; reflexivity. Qed.

(** [x - y] compares with zero as [x] compares with [y], unless they
    are equal. When one of them is NaN both comparisons are undefined. *)
Lemma fcompare_sub x y :
  fcompare x y <> Some Eq -> fcompare (x - y) 0 = fcompare x y.
Proof.
  intros Hne. unfold fcompare in *. rewrite sub_spec, Prim2SF_cero.
  destruct (SFcompare (Prim2SF x) (Prim2SF y)) as [c|] eqn:Hc.
  - pose proof (SFsub_signo _ _ c (Prim2SF_valid x) (Prim2SF_valid y) Hc) as Hs.
    unfold SF64sub. rewrite (con_signo_compare _ _ (Hs ltac:(congruence))).
    destruct c; congruence.
  - change (fcompare x y = None) in Hc. apply fcompare_None in Hc.
    destruct Hc as [E%is_nan_Prim2SF | E%is_nan_Prim2SF]; rewrite E.
    + reflexivity.
    + unfold SF64sub. rewrite SFsub_nan_r. reflexivity.
Qed.

(** * The comparator and the merge sort *)

Lemma antes_o_igual_spec a b :
  antes_o_igual a b =
  (calificacion b <? calificacion a)
  || ((calificacion a =? calificacion b) && (precio a <=? precio b)%float).
Proof.
  unfold antes_o_igual, comparar_productos.
  destruct (Z.eqb_spec (calificacion a) (calificacion b)) as [E|E]; cbn [negb].
  - rewrite E, Z.ltb_irrefl. cbn [orb andb].
    rewrite eqb_fcompare, leb_fcompare.
    destruct (fcompare (precio a) (precio b)) as [[]|] eqn:Hc; cbn [negb no_positivo];
      try reflexivity;
      rewrite leb_fcompare, fcompare_sub, Hc by congruence; reflexivity.
  - cbn [no_positivo andb]. rewrite orb_false_r.
    destruct (Z.leb_spec (calificacion b - calificacion a) 0),
      (Z.ltb_spec (calificacion b) (calificacion a)); try reflexivity; lia.
Qed.

Lemma leb_trans_float x y z :
  (x <=? y)%float = true -> (y <=? z)%float = true -> (x <=? z)%float = true.
Proof.
  rewrite !leb_fcompare.
  destruct (fcompare x y) as [c1|] eqn:H1; [|discriminate].
  destruct (fcompare y z) as [c2|] eqn:H2; [|destruct c1; discriminate].
  intros Hc1 Hc2.
  destruct (fcompare_trans x y z c1 c2 H1 H2) as (c3 & -> & Hc3 & _).
  - destruct c1; congruence.
  - destruct c2; congruence.
  - destruct c3; congruence.
Qed.

Lemma leb_total_float x y :
  is_nan x = false -> is_nan y = false ->
  (x <=? y)%float = false -> (y <=? x)%float = true.
Proof.
  intros Hx Hy. rewrite !leb_fcompare, (fcompare_antisym x y).
  destruct (fcompare x y) as [[]|] eqn:Hc; cbn; try congruence.
  apply fcompare_None in Hc. destruct Hc; congruence.
Qed.

Lemma leb_nan_float x y :
  (x <=? y)%float = true -> is_nan x = false /\ is_nan y = false.
Proof.
  rewrite leb_fcompare. intros H.
  destruct (is_nan x) eqn:Hx, (is_nan y) eqn:Hy; try (split; reflexivity);
    assert (fcompare x y = None) as E by (apply fcompare_None; auto);
    rewrite E in H; discriminate.
Qed.

Lemma eqb_leb_float x y :
  (x =? y)%float = (x <=? y)%float && (y <=? x)%float.
Proof.
  rewrite eqb_fcompare, !leb_fcompare, (fcompare_antisym x y).
  destruct (fcompare x y) as [[]|]; reflexivity.
Qed.

Lemma ltb_leb_float x y :
  (x <? y)%float = (x <=? y)%float && negb (y <=? x)%float.
Proof.
  rewrite ltb_fcompare, !leb_fcompare, (fcompare_antisym x y).
  destruct (fcompare x y) as [[]|]; reflexivity.
Qed.

Lemma antes_o_igual_trans a b c :
  antes_o_igual a b = true -> antes_o_igual b c = true ->
  antes_o_igual a c = true.
Proof.
  rewrite !antes_o_igual_spec.
  intros [H1%Z.ltb_lt | [E1%Z.eqb_eq L1]%andb_true_iff]%orb_true_iff
         [H2%Z.ltb_lt | [E2%Z.eqb_eq L2]%andb_true_iff]%orb_true_iff;
    apply orb_true_iff.
  - left. apply Z.ltb_lt. lia.
  - left. apply Z.ltb_lt. lia.
  - left. apply Z.ltb_lt. lia.
  - right. apply andb_true_iff. split; [apply Z.eqb_eq; lia|].
    eapply leb_trans_float; eassumption.
Qed.

Lemma antes_o_igual_total a b :
  is_nan (precio a) = false -> is_nan (precio b) = false ->
  antes_o_igual a b = false -> antes_o_igual b a = true.
Proof.
  intros Ha Hb. rewrite !antes_o_igual_spec.
  intros [H1%Z.ltb_ge H2]%orb_false_iff. apply orb_true_iff.
  destruct (Z.eqb_spec (calificacion a) (calificacion b)) as [E|E].
  - right. cbn [andb] in H2. rewrite E, Z.eqb_refl. cbn [andb].
    now apply leb_total_float.
  - left. apply Z.ltb_lt. lia.
Qed.

Lemma mezcla_nil_r l : mezcla l [] = l.
Proof. destruct l; reflexivity. Qed.

Lemma mezcla_nil_l l : mezcla [] l = l.
Proof. destruct l; reflexivity. Qed.

Lemma mezcla_cons a l1 b l2 :
  mezcla (a :: l1) (b :: l2) =
  if antes_o_igual a b then a :: mezcla l1 (b :: l2) else b :: mezcla (a :: l1) l2.
Proof. reflexivity. Qed.

Lemma drop_lookup_cons {A} (l : list A) i x :
  l !! i = Some x -> drop i l = x :: drop (S i) l.
Proof.
  revert i. induction l as [|y l IH]; intros [|i]; cbn; try discriminate.
  - intros [= ->]. rewrite drop_0. reflexivity.
  - intros H. apply IH. exact H.
Qed.

Lemma mezclar_bucle_mezcla n l1 l2 i j res :
  (length l1 - i + (length l2 - j) <= n)%nat ->
  let '(i', j', res') := mezclar_bucle n l1 l2 i j res in
  (res' ++ drop i' l1) ++ drop j' l2 = res ++ mezcla (drop i l1) (drop j l2).
Proof.
  revert i j res. induction n as [|n IH]; intros i j res Hn; cbn [mezclar_bucle].
  - rewrite !drop_ge by lia. rewrite app_nil_r. reflexivity.
  - destruct (l1 !! i) as [a|] eqn:Ha.
    + destruct (l2 !! j) as [b|] eqn:Hb.
      * pose proof (lookup_lt_Some _ _ _ Ha). pose proof (lookup_lt_Some _ _ _ Hb).
        rewrite (drop_lookup_cons l1 i a Ha), (drop_lookup_cons l2 j b Hb).
        rewrite mezcla_cons. destruct (antes_o_igual a b).
        -- specialize (IH (S i) j (res ++ [a]) ltac:(lia)).
           destruct (mezclar_bucle n l1 l2 (S i) j (res ++ [a])) as [[i' j'] res'].
           rewrite IH, <- app_assoc, <- (drop_lookup_cons l2 j b Hb). reflexivity.
        -- specialize (IH i (S j) (res ++ [b]) ltac:(lia)).
           destruct (mezclar_bucle n l1 l2 i (S j) (res ++ [b])) as [[i' j'] res'].
           rewrite IH, <- app_assoc, <- (drop_lookup_cons l1 i a Ha). reflexivity.
      * apply lookup_ge_None in Hb. rewrite (drop_ge l2) by lia.
        rewrite mezcla_nil_r, app_nil_r. reflexivity.
    + apply lookup_ge_None in Ha. rewrite (drop_ge l1) by lia.
      rewrite mezcla_nil_l, app_nil_r. reflexivity.
Qed.

Lemma mezclar_mezcla l1 l2 : mezclar l1 l2 = mezcla l1 l2.
Proof.
  unfold mezclar.
  pose proof (mezclar_bucle_mezcla (length l1 + length l2) l1 l2 0 0 []
                ltac:(lia)) as H.
  destruct (mezclar_bucle (length l1 + length l2) l1 l2 0 0 []) as [[i j] res].
  rewrite H, !drop_0. reflexivity.
Qed.

Lemma merge_sort_rec_fuel n m l :
  (length l <= n)%nat -> (length l <= m)%nat ->
  merge_sort_rec n l = merge_sort_rec m l.
Proof.
  revert m l. induction n as [|n IH]; intros [|m] l Hn Hm; cbn [merge_sort_rec];
    try reflexivity.
  - destruct (Nat.leb_spec (length l) 1); [reflexivity|lia].
  - destruct (Nat.leb_spec (length l) 1); [reflexivity|lia].
  - destruct (Nat.leb_spec (length l) 1) as [|Hl]; [reflexivity|].
    assert (1 <= length l / 2 < length l)%nat as Hh.
    { split; [apply Nat.div_le_lower_bound; lia|apply Nat.div_lt; lia]. }
    cbv zeta.
    rewrite (IH m (take _ l)), (IH m (drop _ l));
      rewrite ?length_take, ?length_drop; try lia; reflexivity.
Qed.

Lemma merge_sort_eq l :
  merge_sort l =
  if (length l <=? 1)%nat then l
  else mezclar (merge_sort (take (length l / 2) l))
               (merge_sort (drop (length l / 2) l)).
Proof.
  unfold merge_sort at 1. destruct (length l) as [|n] eqn:Hl.
  - reflexivity.
  - cbn [merge_sort_rec]. rewrite Hl.
    destruct (Nat.leb_spec (S n) 1) as [|Hn]; [reflexivity|].
    assert (1 <= S n / 2 < S n)%nat as Hh.
    { split; [apply Nat.div_le_lower_bound; lia|apply Nat.div_lt; lia]. }
    cbv zeta. unfold merge_sort.
    f_equal; apply merge_sort_rec_fuel; rewrite ?length_take, ?length_drop; lia.
Qed.

(** Induction along the recursion of [merge_sort]. *)
Lemma merge_sort_ind (P : list Producto -> list Producto -> Prop) :
  (forall l, (length l <= 1)%nat -> P l l) ->
  (forall l, (1 < length l)%nat ->
     let medio := (length l / 2)%nat in
     P (take medio l) (merge_sort (take medio l)) ->
     P (drop medio l) (merge_sort (drop medio l)) ->
     P l (mezclar (merge_sort (take medio l)) (merge_sort (drop medio l)))) ->
  forall l, P l (merge_sort l).
Proof.
  intros Hbase Hstep l.
  remember (length l) as n eqn:Hn. revert l Hn.
  induction n as [n IH] using lt_wf_ind. intros l ->.
  rewrite merge_sort_eq.
  destruct (Nat.leb_spec (length l) 1) as [Hl|Hl]; [now apply Hbase|].
  assert (1 <= length l / 2 < length l)%nat as Hh.
  { split; [apply Nat.div_le_lower_bound; lia|apply Nat.div_lt; lia]. }
  apply Hstep; [exact Hl| |];
    (eapply IH; [|reflexivity]); rewrite ?length_take, ?length_drop; lia.
Qed.

#[local] Instance precede_trans : Transitive precede.
Proof. intros a b c. apply antes_o_igual_trans. Qed.

Lemma ordenada_Sorted l : ordenada l -> Sorted precede l.
Proof.
  induction l as [|a l IH]; intros H; constructor.
  - apply IH. intros i x y Hx Hy. exact (H (S i) x y Hx Hy).
  - destruct l as [|b l]; constructor. exact (H 0%nat a b eq_refl eq_refl).
Qed.

Lemma StronglySorted_app_inv {A} (R : A -> A -> Prop) l1 l2 :
  StronglySorted R (l1 ++ l2) ->
  StronglySorted R l1 /\ StronglySorted R l2 /\
  (forall x y, In x l1 -> In y l2 -> R x y).
Proof.
  induction l1 as [|a l1 IH]; cbn; intros H.
  - repeat split; [constructor|exact H|intros ?? []].
  - inversion H as [|? ? Hs Hf]; subst. destruct (IH Hs) as (H1 & H2 & H3).
    rewrite List.Forall_app in Hf. destruct Hf as [Hf1 Hf2].
    repeat split; [constructor; assumption|assumption|].
    intros x y [<-|Hx] Hy; [|now apply H3].
    rewrite List.Forall_forall in Hf2. now apply Hf2.
Qed.

Lemma sin_nan_app l1 l2 : sin_nan (l1 ++ l2) <-> sin_nan l1 /\ sin_nan l2.
Proof.
  unfold sin_nan. split.
  - intros H. split; intros p Hp; apply H, in_or_app; auto.
  - intros [H1 H2] p [Hp|Hp]%in_app_or; auto.
Qed.

(** *** The merge step *)

Lemma mezcla_Permutation l1 l2 : mezcla l1 l2 ≡ₚ l1 ++ l2.
Proof.
  revert l2. induction l1 as [|a l1 IH1]; intros l2.
  - rewrite mezcla_nil_l. reflexivity.
  - induction l2 as [|b l2 IH2].
    + rewrite mezcla_nil_r, app_nil_r. reflexivity.
    + rewrite mezcla_cons. destruct (antes_o_igual a b).
      * cbn. rewrite IH1. reflexivity.
      * rewrite IH2. cbn. rewrite <- Permutation_middle. apply perm_swap.
Qed.

Lemma mezcla_HdRel x l1 l2 :
  HdRel precede x l1 -> HdRel precede x l2 -> HdRel precede x (mezcla l1 l2).
Proof.
  intros H1 H2. destruct l1 as [|a l1]; [now rewrite mezcla_nil_l|].
  destruct l2 as [|b l2]; [now rewrite mezcla_nil_r|].
  rewrite mezcla_cons. inversion H1; inversion H2; subst.
  destruct (antes_o_igual a b); constructor; assumption.
Qed.

Lemma mezcla_Sorted l1 l2 :
  sin_nan l1 -> sin_nan l2 ->
  Sorted precede l1 -> Sorted precede l2 -> Sorted precede (mezcla l1 l2).
Proof.
  revert l2. induction l1 as [|a l1 IH1]; intros l2 Hn1 Hn2 Hs1 Hs2.
  - now rewrite mezcla_nil_l.
  - induction l2 as [|b l2 IH2]; [now rewrite mezcla_nil_r|].
    rewrite mezcla_cons. inversion Hs1; inversion Hs2; subst.
    destruct (antes_o_igual a b) eqn:Hab.
    + constructor.
      * apply IH1; try assumption. intros p Hp. apply Hn1. now right.
      * apply mezcla_HdRel; [assumption|now constructor].
    + constructor.
      * apply IH2; try assumption. intros p Hp. apply Hn2. now right.
      * apply mezcla_HdRel; [|assumption]. constructor.
        apply antes_o_igual_total; [apply Hn1; now left|apply Hn2; now left|exact Hab].
Qed.

Lemma misma_clave_precede x e b :
  misma_clave x e = true -> misma_clave x b = true -> precede e b.
Proof.
  unfold misma_clave, precede. rewrite antes_o_igual_spec, !eqb_leb_float.
  intros [E1%Z.eqb_eq [A1 B1]%andb_true_iff]%andb_true_iff
         [E2%Z.eqb_eq [A2 B2]%andb_true_iff]%andb_true_iff.
  apply orb_true_iff. right. apply andb_true_iff.
  split; [apply Z.eqb_eq; lia|]. eapply leb_trans_float; eassumption.
Qed.

Lemma mezcla_filter x l1 l2 :
  StronglySorted precede l1 ->
  List.filter (misma_clave x) (mezcla l1 l2) =
  List.filter (misma_clave x) l1 ++ List.filter (misma_clave x) l2.
Proof.
  revert l2. induction l1 as [|a l1 IH1]; intros l2 Hs1.
  - now rewrite mezcla_nil_l.
  - induction l2 as [|b l2 IH2]; [now rewrite mezcla_nil_r, app_nil_r|].
    rewrite mezcla_cons. inversion Hs1 as [|? ? Hs Hf]; subst.
    destruct (antes_o_igual a b) eqn:Hab.
    + cbn [List.filter]. rewrite (IH1 _ Hs).
      destruct (misma_clave x a); reflexivity.
    + cbn [List.filter] in *. rewrite IH2.
      destruct (misma_clave x b) eqn:Hb; [|reflexivity].
      assert (misma_clave x a = false) as Ha.
      { destruct (misma_clave x a) eqn:Ha; [|reflexivity].
        pose proof (misma_clave_precede x a b Ha Hb) as H. unfold precede in H.
        congruence. }
      rewrite Ha.
      assert (List.filter (misma_clave x) l1 = []) as ->; [|reflexivity].
      rewrite List.Forall_forall in Hf.
      clear -Hf Hab Hb. induction l1 as [|e l1 IH]; [reflexivity|].
      cbn [List.filter]. destruct (misma_clave x e) eqn:He.
      * pose proof (misma_clave_precede x e b He Hb) as H.
        pose proof (antes_o_igual_trans a e b (Hf e (or_introl eq_refl)) H).
        congruence.
      * apply IH. intros y Hy. apply Hf. now right.
Qed.

Lemma mezcla_app l1 l2 :
  (forall x y, In x l1 -> In y l2 -> precede x y) -> mezcla l1 l2 = l1 ++ l2.
Proof.
  intros H. induction l1 as [|a l1 IH]; [now rewrite mezcla_nil_l|].
  destruct l2 as [|b l2]; [now rewrite mezcla_nil_r, app_nil_r|].
  rewrite mezcla_cons, (H a b) by (now left). cbn. f_equal.
  apply IH. intros x y Hx Hy. apply H; [now right|assumption].
Qed.

(** *** The sort *)

Lemma merge_sort_Permutation l : merge_sort l ≡ₚ l.
Proof.
  apply (merge_sort_ind (fun l out => out ≡ₚ l)); clear l.
  - reflexivity.
  - intros l _ medio H1 H2. rewrite mezclar_mezcla, mezcla_Permutation, H1, H2.
    now rewrite take_drop.
Qed.

Lemma sin_nan_Permutation l l' : l ≡ₚ l' -> sin_nan l' -> sin_nan l.
Proof. intros Hp H p Hin. apply H. now rewrite <- Hp. Qed.

Lemma sin_nan_take_drop n l : sin_nan l -> sin_nan (take n l) /\ sin_nan (drop n l).
Proof. intros H. apply sin_nan_app. now rewrite take_drop. Qed.

Lemma merge_sort_Sorted l : sin_nan l -> Sorted precede (merge_sort l).
Proof.
  apply (merge_sort_ind (fun l out => sin_nan l -> Sorted precede out)); clear l.
  - intros [|a [|b l]] Hl _; cbn in Hl; try lia; repeat constructor.
  - intros l _ medio H1 H2 Hn.
    destruct (sin_nan_take_drop medio l Hn) as [Hn1 Hn2].
    rewrite mezclar_mezcla. apply mezcla_Sorted; auto;
      eapply sin_nan_Permutation; eauto using merge_sort_Permutation.
Qed.

(** * Reporting, loading and the main program *)

(** *** Computations that do not raise a given exception *)

Lemma no_lanza_ret {A} e (x : A) : no_lanza e (mret x).
Proof. intros w. discriminate. Qed.

Lemma no_lanza_bind {A B} e (m : M A) (k : A -> M B) :
  no_lanza e m -> (forall x, no_lanza e (k x)) -> no_lanza e (m ≫= k).
Proof.
  intros Hm Hk w. unfold mbind, M_bind. specialize (Hm w).
  destruct (m w) as [w' [e'|x]]; [|apply Hk].
  cbn in *. congruence.
Qed.

Lemma no_lanza_imprimir e ev : no_lanza e (imprimir ev).
Proof. intros w. discriminate. Qed.

Lemma no_lanza_elevar {A} e (r : R A) : r <> inl e -> no_lanza e (elevar r).
Proof. intros H w. exact H. Qed.

Lemma no_lanza_para_cada {A} e (cuerpo : A -> M unit) l :
  (forall x, In x l -> no_lanza e (cuerpo x)) -> no_lanza e (para_cada cuerpo l).
Proof.
  induction l as [|x l IH]; intros H; cbn [para_cada].
  - apply no_lanza_ret.
  - apply no_lanza_bind; [apply H; now left|].
    intros _. apply IH. intros y Hy. apply H. now right.
Qed.

(** *** The histogram *)

Lemma claves_iniciales : claves_1_5 calificaciones_iniciales.
Proof.
  intros k. unfold calificaciones_iniciales.
  rewrite !lookup_insert_is_Some.
  pose proof (lookup_empty_is_Some (M := gmap Z) (A := Z) k). intuition lia.
Qed.

Lemma contar_en_dominio l d :
  claves_1_5 d -> Forall en_dominio l ->
  exists d', contar l d = inr d' /\ claves_1_5 d'.
Proof.
  revert d. induction l as [|p l IH]; intros d Hd Hl; cbn [contar].
  - eauto.
  - inversion Hl as [|? ? Hp Hl']; subst.
    destruct (proj2 (Hd (calificacion p)) Hp) as [c ->].
    apply IH; [|exact Hl'].
    intros k. rewrite lookup_insert_is_Some. specialize (Hd k).
    unfold en_dominio in Hp. destruct (decide (calificacion p = k)); [|tauto].
    subst. tauto.
Qed.

Lemma contar_fuera_dominio l d :
  claves_1_5 d -> ~ Forall en_dominio l ->
  exists k, ~ (1 <= k <= 5) /\ contar l d = inl (KeyError k).
Proof.
  revert d. induction l as [|p l IH]; intros d Hd Hl; cbn [contar].
  - destruct Hl. constructor.
  - destruct (d !! calificacion p) as [c|] eqn:Hc.
    + assert (en_dominio p) as Hp by (apply Hd; eauto).
      apply IH.
      * intros k. rewrite lookup_insert_is_Some. specialize (Hd k).
        unfold en_dominio in Hp. destruct (decide (calificacion p = k)); [|tauto].
        subst. tauto.
      * intros Hf. apply Hl. now constructor.
    + exists (calificacion p). split; [|reflexivity].
      intros Hk. apply Hd in Hk. rewrite Hc in Hk. destruct Hk; discriminate.
Qed.

Lemma contar_error l d e :
  contar l d = inl e -> exists k, e = KeyError k.
Proof.
  revert d. induction l as [|p l IH]; intros d; cbn [contar]; [discriminate|].
  destruct (d !! calificacion p); [apply IH|]. intros [= <-]. eauto.
Qed.

Lemma items_iniciales :
  sorted_reverse (map_to_list calificaciones_iniciales)
  = [(5, 0); (4, 0); (3, 0); (2, 0); (1, 0)].
Proof. vm_compute. reflexivity. Qed.

Lemma division_real_no_cero a b : b <> 0 -> division_real a b <> inl ZeroDivisionError.
Proof.
  intros Hb. unfold division_real. destruct (Z.eqb_spec b 0); [lia|discriminate].
Qed.

Lemma analizar_datos_vacia w :
  (analizar_datos [] w).2 = inl ZeroDivisionError.
Proof.
  unfold analizar_datos. cbn [contar length].
  unfold mbind, M_bind, imprimir, elevar. cbn -[sorted_reverse map_to_list].
  rewrite items_iniciales. reflexivity.
Qed.

Lemma analizar_datos_no_vacia p l :
  no_lanza ZeroDivisionError (analizar_datos (p :: l)).
Proof.
  unfold analizar_datos.
  apply no_lanza_bind; [apply no_lanza_imprimir|intros _].
  apply no_lanza_bind.
  { apply no_lanza_elevar. intros H. apply contar_error in H as [k H]. discriminate. }
  intros d. apply no_lanza_bind.
  { apply no_lanza_para_cada. intros [calif cantidad] _.
    apply no_lanza_bind; [|intros; apply no_lanza_imprimir].
    apply no_lanza_elevar, division_real_no_cero. cbn [length]. lia. }
  intros _. apply no_lanza_bind; [apply no_lanza_imprimir|intros _].
  destruct (List.filter _ _); [apply no_lanza_ret|apply no_lanza_imprimir].
Qed.

(** *** Loading and the main program *)

Section Entorno_props.
Variable int_de : string -> option Z.
Variable float_de : string -> option float.
Variable texto_de_int : Z -> string.
Variable texto_de_float : float -> string.

Lemma campo_error f c e : campo f c = inl e -> e <> ZeroDivisionError.
Proof. unfold campo. destruct (f !! c); intros [= <-]. discriminate. Qed.

Lemma convertir_error {A} (de : string -> option A) s e :
  convertir de s = inl e -> e <> ZeroDivisionError.
Proof. unfold convertir. destruct (de s); intros [= <-]. discriminate. Qed.

Lemma producto_de_fila_error f e :
  producto_de_fila int_de float_de f = inl e -> e <> ZeroDivisionError.
Proof.
  unfold producto_de_fila, mbind, R_bind.
  repeat match goal with
  | |- context [campo f ?c] =>
      let H := fresh in
      destruct (campo f c) eqn:H;
        [intros [= <-]; eapply campo_error; exact H|]
  | |- context [convertir ?d ?s] =>
      let H := fresh in
      destruct (convertir d s) eqn:H;
        [intros [= <-]; eapply convertir_error; exact H|]
  end.
  discriminate.
Qed.

Lemma leer_filas_error filas productos e :
  leer_filas int_de float_de filas productos = inl e -> e <> ZeroDivisionError.
Proof.
  revert productos. induction filas as [|f filas IH]; intros productos;
    cbn [leer_filas]; [discriminate|].
  unfold mbind, R_bind.
  destruct (producto_de_fila int_de float_de f) eqn:Hf.
  - intros [= <-]. eapply producto_de_fila_error; exact Hf.
  - apply IH.
Qed.

Lemma no_lanza_leer_csv nombre_archivo :
  no_lanza ZeroDivisionError (leer_csv int_de float_de nombre_archivo).
Proof.
  intros w. unfold leer_csv. destruct (archivos w !! nombre_archivo) as [filas|].
  - apply no_lanza_bind; [|intros; apply no_lanza_bind;
      [apply no_lanza_imprimir|intros; apply no_lanza_ret]].
    apply no_lanza_elevar. intros H. now apply leer_filas_error in H.
  - apply no_lanza_bind; [apply no_lanza_imprimir|intros; apply no_lanza_ret].
Qed.

Lemma no_lanza_main :
  no_lanza ZeroDivisionError
    (main int_de float_de texto_de_int texto_de_float).
Proof.
  unfold main.
  apply no_lanza_bind; [apply no_lanza_imprimir|intros _].
  apply no_lanza_bind; [apply no_lanza_imprimir|intros _].
  apply no_lanza_bind; [apply no_lanza_leer_csv|intros [|p l]].
  { apply no_lanza_imprimir. }
  apply no_lanza_bind; [apply no_lanza_imprimir|intros _].
  apply no_lanza_bind.
  { apply no_lanza_para_cada. intros i _.
    apply no_lanza_bind; [|intros; apply no_lanza_imprimir].
    apply no_lanza_elevar. unfold indice. destruct (_ !! _); discriminate. }
  intros _. apply no_lanza_bind; [apply analizar_datos_no_vacia|intros _].
  apply no_lanza_bind; [apply no_lanza_imprimir|intros _].
  apply no_lanza_bind; [apply no_lanza_imprimir|intros _].
  apply no_lanza_bind.
  { unfold mostrar_mejores_productos.
    apply no_lanza_bind; [apply no_lanza_imprimir|intros _].
    apply no_lanza_para_cada. intros [i q] _. apply no_lanza_imprimir. }
  intros _. apply no_lanza_bind; [apply no_lanza_imprimir|intros _].
  apply no_lanza_bind; [|intros; apply no_lanza_imprimir].
  unfold guardar_resultados.
  apply no_lanza_bind; [|intros; apply no_lanza_imprimir].
  intros w. discriminate.
Qed.

Lemma leer_csv_ausente nombre_archivo w :
  archivos w !! nombre_archivo = None ->
  leer_csv int_de float_de nombre_archivo w
  = (mkMundo (archivos w) (salida w ++ [Ev_no_existe nombre_archivo]), inr []).
Proof. intros H. unfold leer_csv. rewrite H. reflexivity. Qed.

Lemma main_ausente w :
  archivos w !! "productos.csv" = None ->
  main int_de float_de texto_de_int texto_de_float w
  = (mkMundo (archivos w)
       (salida w ++ [Ev_banner; Ev_paso_lectura;
                     Ev_no_existe "productos.csv"; Ev_saliendo]),
     inr tt).
Proof.
  intros H. unfold main, mbind, M_bind.
  unfold imprimir at 1 2. cbn [archivos salida].
  rewrite leer_csv_ausente by exact H.
  unfold imprimir. cbn [archivos salida]. rewrite <- !app_assoc. reflexivity.
Qed.

(** The guard of [main]: when [leer_csv] returns the empty list, [main]
    prints the leaving line and returns. *)
Lemma main_vacia w w' :
  leer_csv int_de float_de "productos.csv"
    (mkMundo (archivos w) (salida w ++ [Ev_banner; Ev_paso_lectura]))
  = (w', inr []) ->
  main int_de float_de texto_de_int texto_de_float w
  = (mkMundo (archivos w') (salida w' ++ [Ev_saliendo]), inr tt).
Proof.
  intros H. unfold main, mbind, M_bind.
  unfold imprimir at 1 2. cbn [archivos salida].
  rewrite <- app_assoc. cbn [app]. rewrite H. reflexivity.
Qed.
End Entorno_props.

(** * Properties of the comparator and the sort *)

(** C5 (as stated, refuted): with equal ratings and a NaN price the
    result is not negative and not zero, and it is not positive
    either: it is NaN. *)
Lemma comparar_productos_nan_sin_signo :
  calificacion prod_a = calificacion prod_nan /\
  (precio prod_a <? precio prod_nan)%float = false /\
  (precio prod_a =? precio prod_nan)%float = false /\
  es_negativo (comparar_productos prod_a prod_nan) = false /\
  es_cero (comparar_productos prod_a prod_nan) = false /\
  es_positivo (comparar_productos prod_a prod_nan) = false.
Proof. repeat split; vm_compute; reflexivity. Qed.

(** C5 (amended): [comparar_productos(a, b)] is negative exactly when
    [a] has the higher rating, or the same rating and the lower price;
    zero exactly when rating and price are equal, so the float
    difference of two unequal prices is never zero; and positive in
    every other case except one: when the ratings are equal and a
    price is NaN the result is NaN, which has no sign. *)
Theorem comparar_productos_signo (a b : Producto) :
  es_negativo (comparar_productos a b) =
    (calificacion b <? calificacion a)
    || ((calificacion a =? calificacion b) && (precio a <? precio b)%float)
  /\
  es_cero (comparar_productos a b) =
    (calificacion a =? calificacion b) && (precio a =? precio b)%float
  /\
  es_positivo (comparar_productos a b) =
    negb (es_negativo (comparar_productos a b))
    && negb (es_cero (comparar_productos a b))
    && negb ((calificacion a =? calificacion b)
             && (is_nan (precio a) || is_nan (precio b))).
Proof.
  unfold comparar_productos.
  destruct (Z.eqb_spec (calificacion a) (calificacion b)) as [E|E]; cbn [negb].
  - rewrite E, Z.ltb_irrefl. cbn [orb andb].
    rewrite eqb_fcompare, ltb_fcompare.
    destruct (fcompare (precio a) (precio b)) as [c|] eqn:Hc.
    + destruct (fcompare_Some _ _ _ Hc) as [-> ->].
      destruct c; cbn [negb es_negativo es_cero es_positivo];
        rewrite ?ltb_fcompare, ?eqb_fcompare, ?(fcompare_antisym _ 0%float),
          ?fcompare_sub, ?Hc by congruence;
        repeat split.
    + cbn [negb es_negativo es_cero es_positivo].
      rewrite ltb_fcompare, eqb_fcompare, ltb_fcompare, (fcompare_antisym _ 0%float).
      rewrite !fcompare_sub, Hc by congruence. cbn.
      apply fcompare_None in Hc. destruct Hc as [-> | ->];
        rewrite ?orb_true_r; repeat split.
  - cbn [es_negativo es_cero es_positivo andb]. rewrite orb_false_r, andb_true_r.
    repeat split.
    + destruct (Z.ltb_spec (calificacion b - calificacion a) 0),
        (Z.ltb_spec (calificacion b) (calificacion a)); try reflexivity; lia.
    + apply Z.eqb_neq. lia.
    + destruct (Z.ltb_spec 0 (calificacion b - calificacion a)),
        (Z.ltb_spec (calificacion b - calificacion a) 0),
        (Z.eqb_spec (calificacion b - calificacion a) 0); cbn; try reflexivity; lia.
Qed.

Lemma catalogo_4_sin_nan : sin_nan catalogo_4.
Proof. intros p [<-|[<-|[<-|[<-|[]]]]]; reflexivity. Defined.

Lemma merge_sort_nan_2 : merge_sort [prod_nan; prod_a] = [prod_a; prod_nan].
Proof. vm_compute. reflexivity. Qed.

(** C1 (as stated, refuted): sorting the two products [prod_nan],
    [prod_a] gives [prod_a], [prod_nan], and
    [comparar_productos(prod_a, prod_nan)] is NaN, which is not [<= 0]. *)
Lemma merge_sort_desordenada_con_nan :
  ~ ordenada (merge_sort [prod_nan; prod_a]).
Proof.
  rewrite merge_sort_nan_2. intros H.
  specialize (H 0%nat prod_a prod_nan eq_refl eq_refl).
  vm_compute in H. discriminate.
Qed.

(** C1 (amended): for every list in which no price is NaN, every
    adjacent pair [(x, y)] of the output of [merge_sort] satisfies
    [comparar_productos(x, y) <= 0]. *)
Theorem merge_sort_ordenada (l : list Producto) :
  sin_nan l -> ordenada (merge_sort l).
Proof.
  intros Hn. pose proof (merge_sort_Sorted l Hn) as Hs.
  induction Hs as [|a out Hs IH Hd]; intros i x y Hx Hy; [discriminate|].
  destruct i as [|i].
  - cbn in Hx, Hy. injection Hx as ->.
    destruct Hd as [|b out Hab]; [discriminate|].
    cbn in Hy. injection Hy as ->. exact Hab.
  - exact (IH i x y Hx Hy).
Qed.

(** C1 on the catalogue of the ranking scenario. *)
Lemma merge_sort_ordenada_testigo :
  sin_nan catalogo_4 /\ ordenada (merge_sort catalogo_4).
Proof.
  split; [exact catalogo_4_sin_nan|].
  apply (merge_sort_ordenada catalogo_4). exact catalogo_4_sin_nan.
Defined.

(** C2 (as stated, refuted): in the input [prod_a], [prod_nan],
    [prod_b], [prod_d] the products [prod_a] and [prod_b] have the same
    rating and price and [prod_a] comes first; in the output [prod_b]
    comes first. *)
Lemma merge_sort_inestable_con_nan :
  misma_clave prod_a prod_b = true /\
  List.filter (misma_clave prod_a) [prod_a; prod_nan; prod_b; prod_d]
    = [prod_a; prod_b] /\
  List.filter (misma_clave prod_a)
    (merge_sort [prod_a; prod_nan; prod_b; prod_d]) = [prod_b; prod_a].
Proof. repeat split; vm_compute; reflexivity. Qed.

(** C2 (amended): for every list in which no price is NaN,
    [merge_sort] is stable: for every product [x], the products with
    the rating and price of [x] appear in the output in the order in
    which they appear in the input. *)
Theorem merge_sort_estable (l : list Producto) (x : Producto) :
  sin_nan l ->
  List.filter (misma_clave x) (merge_sort l) = List.filter (misma_clave x) l.
Proof.
  apply (merge_sort_ind (fun l out =>
    sin_nan l -> List.filter (misma_clave x) out = List.filter (misma_clave x) l));
    clear l.
  - reflexivity.
  - intros l _ medio H1 H2 Hn.
    destruct (sin_nan_take_drop medio l Hn) as [Hn1 Hn2].
    rewrite mezclar_mezcla, mezcla_filter, H1, H2, <- List.filter_app, take_drop;
      auto.
    apply Sorted_StronglySorted; [exact precede_trans|].
    now apply merge_sort_Sorted.
Qed.

Lemma catalogo_empate_sin_nan : sin_nan catalogo_empate.
Proof. intros p [<-|[<-|[<-|[<-|[]]]]]; reflexivity. Defined.

(** C2 on a catalogue with a tie: [prod_a] and [prod_b] have the same
    rating and price and come from different halves of the list; they
    keep their order, [prod_a] before [prod_b]. *)
Lemma merge_sort_estable_testigo :
  sin_nan catalogo_empate /\
  misma_clave prod_a prod_b = true /\
  List.filter (misma_clave prod_a) catalogo_empate = [prod_a; prod_b] /\
  List.filter (misma_clave prod_a) (merge_sort catalogo_empate)
  = List.filter (misma_clave prod_a) catalogo_empate.
Proof.
  split; [exact catalogo_empate_sin_nan|].
  split; [vm_compute; reflexivity|]. split; [vm_compute; reflexivity|].
  apply (merge_sort_estable catalogo_empate prod_a).
  exact catalogo_empate_sin_nan.
Defined.

(** C3: the output of [merge_sort] is a permutation of its input, of
    the same length. *)
Theorem merge_sort_permutacion (l : list Producto) :
  merge_sort l ≡ₚ l /\ length (merge_sort l) = length l.
Proof.
  pose proof (merge_sort_Permutation l) as H. split; [exact H|].
  apply Permutation_length, H.
Qed.

(** C6: the four products of the scenario are returned in the order of
    ids 2, 3, 4, 1. *)
Theorem merge_sort_escenario :
  merge_sort [prod_1; prod_2; prod_3; prod_4] = [prod_2; prod_3; prod_4; prod_1]
  /\ id <$> merge_sort [prod_1; prod_2; prod_3; prod_4] = [2; 3; 4; 1].
Proof. split; vm_compute; reflexivity. Qed.

(** C7 (as stated, refuted): the output of [merge_sort] on [prod_nan],
    [prod_a] is not a fixed point of [merge_sort]. *)
Lemma merge_sort_no_idempotente_con_nan :
  merge_sort (merge_sort [prod_nan; prod_a]) <> merge_sort [prod_nan; prod_a].
Proof. vm_compute. discriminate. Qed.

(** C7 (amended): [merge_sort] returns every list that is already
    sorted under the comparator as it is; and the output of
    [merge_sort] on a list in which no price is NaN is such a list, so
    sorting it again changes nothing. *)
Theorem merge_sort_idempotente (l : list Producto) :
  (ordenada l -> merge_sort l = l) /\
  (sin_nan l -> merge_sort (merge_sort l) = merge_sort l).
Proof.
  assert (forall l, Sorted precede l -> merge_sort l = l) as Hid.
  { clear l. intros l.
    apply (merge_sort_ind (fun l out => Sorted precede l -> out = l)); clear l.
    - reflexivity.
    - intros l _ medio H1 H2 Hs.
      apply Sorted_StronglySorted in Hs; [|exact precede_trans].
      rewrite <- (take_drop medio l) in Hs.
      apply StronglySorted_app_inv in Hs as (Hs1 & Hs2 & Hx).
      rewrite H1, H2 by now apply StronglySorted_Sorted.
      rewrite mezclar_mezcla, mezcla_app, take_drop; auto. }
  split.
  - intros H. apply Hid, ordenada_Sorted, H.
  - intros H. apply Hid, merge_sort_Sorted, H.
Qed.

(** C7 on the catalogue of the ranking scenario. *)
Lemma merge_sort_idempotente_testigo :
  sin_nan catalogo_4 /\
  merge_sort (merge_sort catalogo_4) = merge_sort catalogo_4.
Proof.
  split; [exact catalogo_4_sin_nan|].
  apply (merge_sort_idempotente catalogo_4). exact catalogo_4_sin_nan.
Defined.

(** * Properties of reporting and loading *)

(** C4 (as stated, refuted): on the empty sequence [analizar_datos]
    raises [ZeroDivisionError]. *)
Lemma analizar_datos_vacia_division :
  (analizar_datos [] mundo_vacio).2 = inl ZeroDivisionError.
Proof. apply analizar_datos_vacia. Qed.

(** C4 (amended): [analizar_datos] has no guard of its own: it raises
    a division-by-zero error exactly when it is called on the empty
    sequence. The guard is in [main], which returns before the call
    when the loaded sequence is empty: whenever [leer_csv] returns the
    empty list, [main] prints the leaving line after what [leer_csv]
    printed and returns normally, so nothing of [analizar_datos] is
    run or printed. So the program never ends in a division-by-zero
    error. *)
Theorem analizar_datos_division
    (int_de : string -> option Z) (float_de : string -> option float)
    (texto_de_int : Z -> string) (texto_de_float : float -> string)
    (productos : list Producto) (w : mundo) :
  ((analizar_datos productos w).2 = inl ZeroDivisionError <-> productos = [])
  /\ (forall w',
        leer_csv int_de float_de "productos.csv"
          (mkMundo (archivos w) (salida w ++ [Ev_banner; Ev_paso_lectura]))
        = (w', inr []) ->
        main int_de float_de texto_de_int texto_de_float w
        = (mkMundo (archivos w') (salida w' ++ [Ev_saliendo]), inr tt))
  /\ (main int_de float_de texto_de_int texto_de_float w).2
     <> inl ZeroDivisionError.
Proof.
  split; [split|split; [intros w'; apply main_vacia|apply no_lanza_main]].
  - destruct productos as [|p l]; [reflexivity|].
    intros H. now apply analizar_datos_no_vacia in H.
  - intros ->. apply analizar_datos_vacia.
Qed.

(** C4 on a file with no data row: [leer_csv] returns the empty list
    and [main] returns after the leaving line, with no line of the
    analysis. *)
Lemma analizar_datos_division_testigo :
  leer_csv int_de_decimal float_de_tabla "productos.csv"
    (mkMundo (archivos (mundo_con []))
       (salida (mundo_con []) ++ [Ev_banner; Ev_paso_lectura]))
  = (mkMundo (archivos (mundo_con []))
       [Ev_banner; Ev_paso_lectura; Ev_leidos 0 "productos.csv"], inr [])
  /\ main int_de_decimal float_de_tabla texto_de_int_decimal
       texto_de_float_tabla (mundo_con [])
     = (mkMundo (archivos (mundo_con []))
          [Ev_banner; Ev_paso_lectura; Ev_leidos 0 "productos.csv";
           Ev_saliendo], inr tt).
Proof.
  split; [reflexivity|].
  apply (proj1 (proj2 (analizar_datos_division int_de_decimal float_de_tabla
                         texto_de_int_decimal texto_de_float_tabla []
                         (mundo_con [])))
           (mkMundo (archivos (mundo_con []))
              [Ev_banner; Ev_paso_lectura; Ev_leidos 0 "productos.csv"])).
  reflexivity.
Defined.

(** The histogram scenario: ratings 3, 5, 5, 3 give two products and
    50 per cent for the ratings 3 and 5 and none for the others. *)
Example analizar_datos_escenario :
  analizar_datos catalogo_4 mundo_vacio
  = (mkMundo ∅
       [Ev_cabecera_analisis;
        Ev_calificacion 5 2 50; Ev_calificacion 4 0 0; Ev_calificacion 3 2 50;
        Ev_calificacion 2 0 0; Ev_calificacion 1 0 0;
        Ev_cinco_estrellas 2; Ev_mas_barato "B" 5],
     inr tt).
Proof. vm_compute. reflexivity. Qed.

(** C9: when the input file does not exist, [leer_csv] prints that it
    does not exist and returns the empty list without raising, and
    [main] then prints that it is leaving and returns: nothing is
    analysed, sorted or saved. *)
Theorem leer_csv_archivo_ausente
    (int_de : string -> option Z) (float_de : string -> option float)
    (texto_de_int : Z -> string) (texto_de_float : float -> string)
    (w : mundo) :
  archivos w !! "productos.csv" = None ->
  leer_csv int_de float_de "productos.csv" w
  = (mkMundo (archivos w) (salida w ++ [Ev_no_existe "productos.csv"]), inr [])
  /\
  main int_de float_de texto_de_int texto_de_float w
  = (mkMundo (archivos w)
       (salida w ++ [Ev_banner; Ev_paso_lectura;
                     Ev_no_existe "productos.csv"; Ev_saliendo]),
     inr tt).
Proof.
  intros H. split; [now apply leer_csv_ausente|now apply main_ausente].
Qed.

(** C9 in the world with no file. *)
Lemma leer_csv_archivo_ausente_testigo :
  archivos mundo_vacio !! "productos.csv" = None /\
  main (fun _ => None) (fun _ => None) (fun _ => "") (fun _ => "") mundo_vacio
  = (mkMundo ∅ [Ev_banner; Ev_paso_lectura;
                Ev_no_existe "productos.csv"; Ev_saliendo], inr tt).
Proof.
  split; [reflexivity|].
  apply (leer_csv_archivo_ausente (fun _ => None) (fun _ => None)
           (fun _ => "") (fun _ => "") mundo_vacio).
  reflexivity.
Defined.

Lemma analizar_datos_KeyError productos k w :
  contar productos calificaciones_iniciales = inl (KeyError k) ->
  (analizar_datos productos w).2 = inl (KeyError k).
Proof.
  intros H. unfold analizar_datos, mbind, M_bind, imprimir, elevar.
  rewrite H. reflexivity.
Qed.

(** C10: the counting loop of [analizar_datos] succeeds on every list
    whose ratings all lie in 1..5, and on every list with a rating
    outside 1..5 it raises [KeyError] with such a rating as the missing
    key, which ends [analizar_datos]. *)
Theorem contar_dominio (productos : list Producto) :
  (Forall en_dominio productos ->
   exists d, contar productos calificaciones_iniciales = inr d)
  /\
  ((exists p, In p productos /\ ~ en_dominio p) ->
   exists k, ~ (1 <= k <= 5) /\
     contar productos calificaciones_iniciales = inl (KeyError k) /\
     forall w, (analizar_datos productos w).2 = inl (KeyError k)).
Proof.
  split.
  - intros H.
    destruct (contar_en_dominio productos _ claves_iniciales H) as (d & Hd & _).
    eauto.
  - intros (p & Hin & Hp).
    destruct (contar_fuera_dominio productos _ claves_iniciales) as (k & Hk & Hc).
    { intros Hf. rewrite List.Forall_forall in Hf. exact (Hp (Hf p Hin)). }
    exists k. repeat split; [exact Hk|exact Hc|].
    intros w. now apply analizar_datos_KeyError.
Qed.

(** * The object store: what the functions leave untouched *)

Section Marco.
Variable s0 : Memoria.estado.

Lemma marco_ret {A} (x : A) (Q : A -> Prop) : Q x -> marco s0 (mret x) Q.
Proof. intros HQ s Hs. split; [exact Hs|]. intros y [= <-]. exact HQ. Qed.

Lemma marco_bind {A B} (m : Memoria.M A) (k : A -> Memoria.M B) Q Q' :
  marco s0 m Q -> (forall x, Q x -> marco s0 (k x) Q') -> marco s0 (m ≫= k) Q'.
Proof.
  intros Hm Hk s Hs. destruct (Hm s Hs) as [H1 H2].
  unfold mbind, Memoria.M_bind. destruct (m s) as [s' [e|x]]; cbn in *.
  - split; [exact H1|discriminate].
  - exact (Hk x (H2 x eq_refl) s' H1).
Qed.

(** One step of a sequence, by the frame lemma of its first
    computation. *)
Tactic Notation "marco_paso" uconstr(lema) :=
  eapply marco_bind; [now apply lema|].

Lemma marco_debil {A} (m : Memoria.M A) (Q Q' : A -> Prop) :
  marco s0 m Q -> (forall x, Q x -> Q' x) -> marco s0 m Q'.
Proof. intros Hm HQ s Hs. destruct (Hm s Hs) as [H1 H2]. split; auto. Qed.

Lemma marco_lanzar {A} e (Q : A -> Prop) : marco s0 (Memoria.lanzar e) Q.
Proof. intros s Hs. split; [exact Hs|discriminate]. Qed.

Lemma marco_elevar {A} (r : R A) : marco s0 (Memoria.elevar r) (fun _ => True).
Proof. intros s Hs. split; [exact Hs|auto]. Qed.

Lemma marco_imprimir ev : marco s0 (Memoria.imprimir ev) (fun _ => True).
Proof. intros s Hs. split; [exact Hs|auto]. Qed.

Lemma marco_nuevo o : marco s0 (Memoria.nuevo o) (nueva_en s0).
Proof.
  intros s Hs. unfold Memoria.nuevo. cbn.
  pose proof (is_fresh (dom (Memoria.objetos s))) as Hf.
  rewrite not_elem_of_dom in Hf.
  assert (nueva_en s0 (fresh (dom (Memoria.objetos s)))) as Hn.
  { unfold nueva_en.
    destruct (Memoria.objetos s0 !! fresh (dom (Memoria.objetos s))) eqn:E;
      [|reflexivity].
    apply Hs in E. congruence. }
  split; [|intros x [= <-]; exact Hn].
  intros a o' Ha. cbn. rewrite lookup_insert_ne; [now apply Hs|].
  intros <-. unfold nueva_en in Hn. congruence.
Qed.

Lemma marco_escribir a o :
  nueva_en s0 a -> marco s0 (Memoria.escribir a o) (fun _ => True).
Proof.
  intros Hn s Hs. split; [|auto].
  intros b o' Hb. cbn. rewrite lookup_insert_ne; [now apply Hs|].
  intros <-. unfold nueva_en in Hn. congruence.
Qed.

Lemma marco_leer_lista a : marco s0 (Memoria.leer_lista a) (fun _ => True).
Proof.
  intros s Hs. unfold Memoria.leer_lista.
  destruct (Memoria.objetos s !! a) as [[]|]; cbn; auto.
Qed.

Lemma marco_leer_dict a : marco s0 (Memoria.leer_dict a) (fun _ => True).
Proof.
  intros s Hs. unfold Memoria.leer_dict.
  destruct (Memoria.objetos s !! a) as [[]|]; cbn; auto.
Qed.

Lemma marco_leer_producto a :
  marco s0 (Memoria.leer_producto a) (fun _ => True).
Proof.
  intros s Hs. unfold Memoria.leer_producto.
  destruct (Memoria.objetos s !! a) as [[]|]; cbn; auto.
Qed.

Lemma marco_len l : marco s0 (Memoria.len l) (fun _ => True).
Proof.
  marco_paso marco_leer_lista. intros; now apply marco_ret.
Qed.

Lemma marco_elemento l i : marco s0 (Memoria.elemento l i) (fun _ => True).
Proof.
  marco_paso marco_leer_lista. intros es _.
  destruct (es !! i); [now apply marco_ret|apply marco_lanzar].
Qed.

Lemma marco_rebanada_hasta l n :
  marco s0 (Memoria.rebanada_hasta l n) (nueva_en s0).
Proof.
  marco_paso marco_leer_lista. intros; apply marco_nuevo.
Qed.

Lemma marco_rebanada_desde l n :
  marco s0 (Memoria.rebanada_desde l n) (nueva_en s0).
Proof.
  marco_paso marco_leer_lista. intros; apply marco_nuevo.
Qed.

Lemma marco_append l x :
  nueva_en s0 l -> marco s0 (Memoria.append l x) (fun _ => True).
Proof.
  intros Hn. marco_paso marco_leer_lista.
  intros; now apply marco_escribir.
Qed.

Lemma marco_extend l otra :
  nueva_en s0 l -> marco s0 (Memoria.extend l otra) (fun _ => True).
Proof.
  intros Hn. marco_paso marco_leer_lista. intros ? _.
  marco_paso marco_leer_lista. intros; now apply marco_escribir.
Qed.

Lemma marco_dict_obtener d k :
  marco s0 (Memoria.dict_obtener d k) (fun _ => True).
Proof.
  marco_paso marco_leer_dict. intros c _.
  destruct (c !! k); [now apply marco_ret|apply marco_lanzar].
Qed.

Lemma marco_dict_asignar d k v :
  nueva_en s0 d -> marco s0 (Memoria.dict_asignar d k v) (fun _ => True).
Proof.
  intros Hn. marco_paso marco_leer_dict.
  intros; now apply marco_escribir.
Qed.

Lemma marco_iterar n l i cuerpo :
  (forall x, marco s0 (cuerpo x) (fun _ => True)) ->
  marco s0 (Memoria.iterar n l i cuerpo) (fun _ => True).
Proof.
  intros Hc. revert i. induction n as [|n IH]; intros i; cbn [Memoria.iterar].
  - now apply marco_ret.
  - marco_paso marco_len. intros largo _.
    destruct (i <? largo)%nat; [|now apply marco_ret].
    marco_paso marco_elemento. intros x _.
    marco_paso Hc. intros _ _. apply IH.
Qed.

Lemma marco_para_cada_en l cuerpo :
  (forall x, marco s0 (cuerpo x) (fun _ => True)) ->
  marco s0 (Memoria.para_cada_en l cuerpo) (fun _ => True).
Proof.
  intros Hc. marco_paso marco_len. intros; now apply marco_iterar.
Qed.

Lemma marco_para_cada {A} (cuerpo : A -> Memoria.M unit) l :
  (forall x, marco s0 (cuerpo x) (fun _ => True)) ->
  marco s0 (Memoria.para_cada cuerpo l) (fun _ => True).
Proof.
  intros Hc. induction l as [|x l IH]; cbn [Memoria.para_cada].
  - now apply marco_ret.
  - marco_paso Hc. intros; apply IH.
Qed.

Lemma marco_mezclar_bucle n izquierda derecha resultado i j :
  nueva_en s0 resultado ->
  marco s0 (Memoria.mezclar_bucle n izquierda derecha resultado i j)
    (fun _ => True).
Proof.
  intros Hn. revert i j. induction n as [|n IH]; intros i j;
    cbn [Memoria.mezclar_bucle].
  - now apply marco_ret.
  - marco_paso marco_len. intros li _.
    marco_paso marco_len. intros ld _.
    destruct ((i <? li)%nat && (j <? ld)%nat); [|now apply marco_ret].
    marco_paso marco_elemento. intros a _.
    marco_paso marco_elemento. intros b _.
    marco_paso marco_leer_producto. intros pa _.
    marco_paso marco_leer_producto. intros pb _.
    destruct (antes_o_igual pa pb);
      marco_paso marco_append; intros; apply IH.
Qed.

Lemma marco_mezclar izquierda derecha :
  marco s0 (Memoria.mezclar izquierda derecha) (fun _ => True).
Proof.
  unfold Memoria.mezclar.
  marco_paso marco_nuevo. intros resultado Hn.
  marco_paso marco_len. intros li _.
  marco_paso marco_len. intros ld _.
  marco_paso marco_mezclar_bucle. intros [i j] _.
  marco_paso marco_rebanada_desde. intros ri _.
  marco_paso marco_extend. intros _ _.
  marco_paso marco_rebanada_desde. intros rd _.
  marco_paso marco_extend. intros _ _.
  now apply marco_ret.
Qed.

Lemma marco_merge_sort_rec n productos :
  marco s0 (Memoria.merge_sort_rec n productos) (fun _ => True).
Proof.
  revert productos. induction n as [|n IH]; intros productos;
    cbn [Memoria.merge_sort_rec].
  - now apply marco_ret.
  - marco_paso marco_len. intros largo _.
    destruct (largo <=? 1)%nat; [now apply marco_ret|]. cbv zeta.
    marco_paso marco_rebanada_hasta. intros iz _.
    marco_paso marco_rebanada_desde. intros de _.
    marco_paso IH. intros io _.
    marco_paso IH. intros do _.
    apply marco_mezclar.
Qed.

Lemma marco_merge_sort productos :
  marco s0 (Memoria.merge_sort productos) (fun _ => True).
Proof.
  marco_paso marco_len. intros; apply marco_merge_sort_rec.
Qed.

Lemma marco_min_precio actual resto :
  marco s0 (Memoria.min_precio actual resto) (fun _ => True).
Proof.
  revert actual. induction resto as [|x resto IH]; intros actual;
    cbn [Memoria.min_precio].
  - now apply marco_ret.
  - marco_paso marco_leer_producto. intros px _.
    marco_paso marco_leer_producto. intros pa _.
    destruct (precio px <? precio pa)%float; apply IH.
Qed.

Lemma marco_analizar_datos productos :
  marco s0 (Memoria.analizar_datos productos) (fun _ => True).
Proof.
  unfold Memoria.analizar_datos.
  marco_paso marco_imprimir. intros _ _.
  marco_paso marco_nuevo. intros calificaciones Hn.
  eapply marco_bind.
  { apply marco_para_cada_en. intros producto.
    marco_paso marco_leer_producto. intros p _.
    marco_paso marco_dict_obtener. intros c _.
    now apply marco_dict_asignar. }
  intros _ _. marco_paso marco_leer_dict. intros contenido _.
  eapply marco_bind.
  { apply marco_para_cada. intros [calif cantidad].
    marco_paso marco_len. intros largo _.
    marco_paso marco_elevar. intros; apply marco_imprimir. }
  intros _ _. marco_paso marco_nuevo. intros cinco Hc.
  eapply marco_bind.
  { apply marco_para_cada_en. intros producto.
    marco_paso marco_leer_producto. intros p _.
    destruct (calificacion p =? 5); [now apply marco_append|now apply marco_ret]. }
  intros _ _. marco_paso marco_leer_lista. intros l5 _.
  marco_paso marco_imprimir. intros _ _.
  destruct l5 as [|primero resto]; [now apply marco_ret|].
  marco_paso marco_min_precio. intros mb _.
  marco_paso marco_leer_producto. intros; apply marco_imprimir.
Qed.
End Marco.

(** *** The object-store model computes what the functional model does *)

Lemma conserva_refl s : conserva s s.
Proof. intros a o H. exact H. Qed.

Lemma conserva_trans s1 s2 s3 :
  conserva s1 s2 -> conserva s2 s3 -> conserva s1 s3.
Proof. intros H1 H2 a o H. apply H2, H1, H. Qed.

Lemma apunta_conserva s s' es ps :
  conserva s s' -> Forall2 (apunta s) es ps -> Forall2 (apunta s') es ps.
Proof.
  intros Hc H. induction H; constructor; [|assumption]. now apply Hc.
Qed.

Lemma lista_en_conserva s s' l ps :
  conserva s s' -> lista_en s l ps -> lista_en s' l ps.
Proof.
  intros Hc (es & H1 & H2). exists es. split; [now apply Hc|].
  eapply apunta_conserva; eassumption.
Qed.

Lemma bind_eq {A B} (m : Memoria.M A) (k : A -> Memoria.M B) s s' x :
  m s = (s', inr x) -> (m ≫= k) s = k x s'.
Proof. intros H. unfold mbind, Memoria.M_bind. rewrite H. reflexivity. Qed.

(** One step of a run: the first computation of a sequence returns,
    by the lemma given. *)
Ltac paso lema := erewrite bind_eq by (eapply lema; eassumption).

Lemma leer_lista_eq s a l :
  Memoria.objetos s !! a = Some (Memoria.Obj_lista l) ->
  Memoria.leer_lista a s = (s, inr l).
Proof. intros H. unfold Memoria.leer_lista. rewrite H. reflexivity. Qed.

Lemma leer_producto_eq s a p :
  apunta s a p -> Memoria.leer_producto a s = (s, inr p).
Proof. intros H. unfold Memoria.leer_producto. rewrite H. reflexivity. Qed.

Lemma len_eq s a l :
  Memoria.objetos s !! a = Some (Memoria.Obj_lista l) ->
  Memoria.len a s = (s, inr (length l)).
Proof.
  intros H. unfold Memoria.len.
  paso leer_lista_eq. reflexivity.
Qed.

Lemma elemento_eq s a l i x :
  Memoria.objetos s !! a = Some (Memoria.Obj_lista l) -> l !! i = Some x ->
  Memoria.elemento a i s = (s, inr x).
Proof.
  intros H Hi. unfold Memoria.elemento.
  paso leer_lista_eq.
  rewrite Hi. reflexivity.
Qed.

Lemma append_eq s a l x :
  Memoria.objetos s !! a = Some (Memoria.Obj_lista l) ->
  Memoria.append a x s
  = (Memoria.poner a (Memoria.Obj_lista (l ++ [x])) s, inr tt).
Proof.
  intros H. unfold Memoria.append.
  paso leer_lista_eq. reflexivity.
Qed.

Lemma extend_eq s a l b l2 :
  Memoria.objetos s !! a = Some (Memoria.Obj_lista l) ->
  Memoria.objetos s !! b = Some (Memoria.Obj_lista l2) ->
  Memoria.extend a b s
  = (Memoria.poner a (Memoria.Obj_lista (l ++ l2)) s, inr tt).
Proof.
  intros Ha Hb. unfold Memoria.extend.
  paso leer_lista_eq.
  paso leer_lista_eq. reflexivity.
Qed.

Lemma nuevo_eq s o :
  exists a, Memoria.objetos s !! a = None /\
    Memoria.nuevo o s = (Memoria.poner a o s, inr a).
Proof.
  exists (fresh (dom (Memoria.objetos s))). split; [|reflexivity].
  apply not_elem_of_dom, is_fresh.
Qed.

Lemma rebanada_desde_eq s l es n :
  Memoria.objetos s !! l = Some (Memoria.Obj_lista es) ->
  exists a, Memoria.objetos s !! a = None /\
    Memoria.rebanada_desde l n s
    = (Memoria.poner a (Memoria.Obj_lista (drop n es)) s, inr a).
Proof.
  intros H. unfold Memoria.rebanada_desde.
  paso leer_lista_eq.
  apply nuevo_eq.
Qed.

Lemma rebanada_hasta_eq s l es n :
  Memoria.objetos s !! l = Some (Memoria.Obj_lista es) ->
  exists a, Memoria.objetos s !! a = None /\
    Memoria.rebanada_hasta l n s
    = (Memoria.poner a (Memoria.Obj_lista (take n es)) s, inr a).
Proof.
  intros H. unfold Memoria.rebanada_hasta.
  paso leer_lista_eq.
  apply nuevo_eq.
Qed.

Lemma apunta_insert s r o es ps :
  (forall p, Memoria.objetos s !! r <> Some (Memoria.Obj_producto p)) ->
  Forall2 (apunta s) es ps ->
  Forall2 (apunta (Memoria.poner r o s)) es ps.
Proof.
  intros Hr H. induction H as [|a p es ps Ha H IH]; constructor; [|exact IH].
  unfold apunta in *. cbn. rewrite lookup_insert_ne; [exact Ha|].
  intros <-. exact (Hr p Ha).
Qed.

Lemma apunta_insert_inv s r l es ps :
  Forall2 (apunta (Memoria.poner r (Memoria.Obj_lista l) s)) es ps ->
  Forall2 (apunta s) es ps.
Proof.
  intros F. induction F as [|x p xs qs Hx F IH]; constructor; [|exact IH].
  unfold apunta in *. cbn in Hx.
  rewrite lookup_insert_ne in Hx; [exact Hx|].
  intros <-. rewrite lookup_insert_eq in Hx. discriminate.
Qed.

Lemma lookup_Forall2 {A B} (P : A -> B -> Prop) l k i :
  Forall2 P l k -> (i < length l)%nat ->
  exists x y, l !! i = Some x /\ k !! i = Some y /\ P x y.
Proof.
  intros H Hi. destruct (lookup_lt_is_Some_2 l i Hi) as [x Hx].
  destruct (Forall2_lookup_l _ _ _ _ _ H Hx) as (y & Hy & Hp). eauto.
Qed.

Lemma estado_insert_id s r o :
  Memoria.objetos s !! r = Some o ->
  Memoria.poner r o s = s.
Proof. intros H. destruct s as [os sa]. cbn in *. f_equal. now apply insert_id. Qed.

(** The loop of [mezclar] on the store runs in step with the loop on
    lists: it leaves every object but [resultado] as it is. *)
Lemma mezclar_bucle_eq n izquierda derecha resultado e1 e2 ps1 ps2 :
  forall i j er pr s,
  Memoria.objetos s !! izquierda = Some (Memoria.Obj_lista e1) ->
  Memoria.objetos s !! derecha = Some (Memoria.Obj_lista e2) ->
  Forall2 (apunta s) e1 ps1 -> Forall2 (apunta s) e2 ps2 ->
  resultado <> izquierda -> resultado <> derecha ->
  Memoria.objetos s !! resultado = Some (Memoria.Obj_lista er) ->
  Forall2 (apunta s) er pr ->
  exists er',
    Memoria.mezclar_bucle n izquierda derecha resultado i j s
    = (Memoria.poner resultado (Memoria.Obj_lista er') s,
       inr (mezclar_bucle n ps1 ps2 i j pr).1) /\
    Forall2 (apunta s) er' (mezclar_bucle n ps1 ps2 i j pr).2.
Proof.
  induction n as [|n IH]; intros i j er pr s Hi Hd H1 H2 Ni Nd Hr Hp;
    cbn [Memoria.mezclar_bucle mezclar_bucle].
  - exists er. split; [|exact Hp]. now rewrite estado_insert_id.
  - paso len_eq.
    paso len_eq.
    pose proof (Forall2_length _ _ _ H1) as L1.
    pose proof (Forall2_length _ _ _ H2) as L2.
    destruct (Nat.ltb_spec i (length e1)) as [Hli|Hli]; cbn [andb].
    2:{ rewrite (proj2 (lookup_ge_None ps1 i)) by lia.
        exists er. split; [|exact Hp]. now rewrite estado_insert_id. }
    destruct (Nat.ltb_spec j (length e2)) as [Hlj|Hlj].
    2:{ rewrite (proj2 (lookup_ge_None ps2 j)) by lia.
        destruct (ps1 !! i);
          (exists er; split; [|exact Hp]; now rewrite estado_insert_id). }
    destruct (lookup_Forall2 _ _ _ i H1 Hli) as (a & pa & Ha & Hpa & Haa).
    destruct (lookup_Forall2 _ _ _ j H2 Hlj) as (b & pb & Hb & Hpb & Hbb).
    rewrite Hpa, Hpb.
    paso elemento_eq.
    paso elemento_eq.
    paso leer_producto_eq.
    paso leer_producto_eq.
    assert (forall p,
              Memoria.objetos s !! resultado <> Some (Memoria.Obj_producto p))
      as Hnp by (intros p; rewrite Hr; discriminate).
    destruct (antes_o_igual pa pb).
    + paso append_eq.
      edestruct (IH (S i) j (er ++ [a]) (pr ++ [pa])
                   (Memoria.poner resultado (Memoria.Obj_lista (er ++ [a])) s))
        as (er' & E & F); cbn.
      * rewrite lookup_insert_ne by done. exact Hi.
      * rewrite lookup_insert_ne by done. exact Hd.
      * now apply apunta_insert.
      * now apply apunta_insert.
      * exact Ni.
      * exact Nd.
      * now rewrite lookup_insert_eq.
      * apply apunta_insert; [exact Hnp|]. apply Forall2_app; [exact Hp|].
        now repeat constructor.
      * exists er'. cbn in E |- *. rewrite E. cbn. rewrite insert_insert_eq.
        split; [reflexivity|]. exact (apunta_insert_inv _ _ _ _ _ F).
    + paso append_eq.
      edestruct (IH i (S j) (er ++ [b]) (pr ++ [pb])
                   (Memoria.poner resultado (Memoria.Obj_lista (er ++ [b])) s))
        as (er' & E & F); cbn.
      * rewrite lookup_insert_ne by done. exact Hi.
      * rewrite lookup_insert_ne by done. exact Hd.
      * now apply apunta_insert.
      * now apply apunta_insert.
      * exact Ni.
      * exact Nd.
      * now rewrite lookup_insert_eq.
      * apply apunta_insert; [exact Hnp|]. apply Forall2_app; [exact Hp|].
        now repeat constructor.
      * exists er'. cbn in E |- *. rewrite E. cbn. rewrite insert_insert_eq.
        split; [reflexivity|]. exact (apunta_insert_inv _ _ _ _ _ F).
Qed.

Lemma conserva_insert s a o :
  Memoria.objetos s !! a = None ->
  conserva s (Memoria.poner a o s).
Proof.
  intros Ha b o' Hb. cbn. rewrite lookup_insert_ne; [exact Hb|]. congruence.
Qed.

Lemma lista_en_insert s a o l ps :
  Memoria.objetos s !! a = None -> lista_en s l ps ->
  lista_en (Memoria.poner a o s) l ps.
Proof. intros Ha. apply lista_en_conserva. now apply conserva_insert. Qed.

(** [mezclar] on the store returns a list object that holds the merge
    of the two lists. *)
Lemma mezclar_eq s izquierda derecha ps1 ps2 :
  lista_en s izquierda ps1 -> lista_en s derecha ps2 ->
  exists s' r,
    Memoria.mezclar izquierda derecha s = (s', inr r) /\
    lista_en s' r (mezclar ps1 ps2) /\
    conserva s s' /\ Memoria.salida s' = Memoria.salida s.
Proof.
  intros (e1 & Hi & H1) (e2 & Hd & H2).
  pose proof (marco_mezclar s izquierda derecha s (conserva_refl s)) as [Hcons _].
  revert Hcons. unfold Memoria.mezclar.
  destruct (nuevo_eq s (Memoria.Obj_lista [])) as (res & Hres & E1).
  erewrite bind_eq by exact E1.
  set (s1 := Memoria.poner res (Memoria.Obj_lista []) _) in *.
  assert (res <> izquierda) as Ni by congruence.
  assert (res <> derecha) as Nd by congruence.
  assert (conserva s s1) as C1 by now apply conserva_insert.
  erewrite bind_eq by (eapply len_eq; apply C1; eassumption).
  erewrite bind_eq by (eapply len_eq; apply C1; eassumption).
  destruct (mezclar_bucle_eq (length e1 + length e2) izquierda derecha res
              e1 e2 ps1 ps2 0 0 [] [] s1) as (er & E2 & F);
    try (now apply C1); try (eapply apunta_conserva; eassumption);
    try assumption; [apply lookup_insert_eq|constructor|].
  erewrite bind_eq by exact E2.
  unfold mezclar.
  rewrite <- (Forall2_length _ _ _ H1), <- (Forall2_length _ _ _ H2).
  destruct (mezclar_bucle (length e1 + length e2) ps1 ps2 0 0 []) as [[i j] pr].
  cbn [fst snd] in *.
  apply apunta_insert_inv in F.
  set (s2 := Memoria.poner res (Memoria.Obj_lista er) _) in *.
  assert (Memoria.objetos s2 !! res = Some (Memoria.Obj_lista er)) as R2
    by apply lookup_insert_eq.
  assert (Memoria.objetos s2 !! izquierda = Some (Memoria.Obj_lista e1)) as I2.
  { unfold s2. cbn. rewrite !lookup_insert_ne by done. exact Hi. }
  assert (Memoria.objetos s2 !! derecha = Some (Memoria.Obj_lista e2)) as D2.
  { unfold s2. cbn. rewrite !lookup_insert_ne by done. exact Hd. }
  destruct (rebanada_desde_eq s2 izquierda e1 i I2) as (ri & Hri & E3).
  erewrite bind_eq by exact E3.
  set (s3 := Memoria.poner ri _ _) in *.
  assert (ri <> res) as Nri by congruence.
  assert (ri <> derecha) as Nrd by congruence.
  erewrite bind_eq.
  2:{ eapply (extend_eq s3 res er ri (drop i e1)); unfold s3; cbn.
      - rewrite lookup_insert_ne by done. apply lookup_insert_eq.
      - apply lookup_insert_eq. }
  set (s4 := Memoria.poner res (Memoria.Obj_lista (er ++ drop i e1)) _) in *.
  assert (Memoria.objetos s4 !! derecha = Some (Memoria.Obj_lista e2)) as D4.
  { unfold s4, s3. cbn. rewrite !lookup_insert_ne by done. exact Hd. }
  destruct (rebanada_desde_eq s4 derecha e2 j D4) as (rd & Hrd & E5).
  erewrite bind_eq by exact E5.
  set (s5 := Memoria.poner rd _ _) in *.
  assert (rd <> res) as Nrr.
  { intros ->. unfold s4 in Hrd. cbn in Hrd. rewrite lookup_insert_eq in Hrd.
    discriminate. }
  erewrite bind_eq.
  2:{ eapply (extend_eq s5 res (er ++ drop i e1) rd (drop j e2)); unfold s5; cbn.
      - rewrite lookup_insert_ne by done. unfold s4. cbn. apply lookup_insert_eq.
      - apply lookup_insert_eq. }
  set (s6 := Memoria.poner res
               (Memoria.Obj_lista ((er ++ drop i e1) ++ drop j e2)) _) in *.
  intros Hcons. cbn in Hcons.
  exists s6, res. repeat split; [|exact Hcons].
  exists ((er ++ drop i e1) ++ drop j e2). split; [apply lookup_insert_eq|].
  apply (apunta_conserva s s6 _ _ Hcons).
  repeat apply Forall2_app; [exact F| |]; now apply Forall2_drop.
Qed.

Lemma merge_sort_rec_mem n :
  forall s productos ps,
  lista_en s productos ps ->
  exists s' r,
    Memoria.merge_sort_rec n productos s = (s', inr r) /\
    lista_en s' r (merge_sort_rec n ps) /\
    conserva s s' /\ Memoria.salida s' = Memoria.salida s.
Proof.
  induction n as [|n IH]; intros s productos ps Hl;
    cbn [Memoria.merge_sort_rec merge_sort_rec].
  - exists s, productos. repeat split; [exact Hl|apply conserva_refl].
  - destruct Hl as (es & Hp & Hf).
    paso len_eq.
    rewrite <- (Forall2_length _ _ _ Hf).
    destruct (length es <=? 1)%nat.
    { exists s, productos. repeat split; [|apply conserva_refl]. now exists es. }
    cbv zeta. set (medio := (length es / 2)%nat).
    destruct (rebanada_hasta_eq s productos es medio Hp) as (iz & Hiz & E1).
    erewrite bind_eq by exact E1.
    set (s1 := Memoria.poner iz _ _) in *.
    assert (conserva s s1) as C1 by now apply conserva_insert.
    destruct (rebanada_desde_eq s1 productos es medio (C1 _ _ Hp)) as (de & Hde & E2).
    erewrite bind_eq by exact E2.
    set (s2 := Memoria.poner de _ _) in *.
    assert (conserva s1 s2) as C2 by now apply conserva_insert.
    assert (lista_en s2 iz (take medio ps)) as Liz.
    { apply (lista_en_conserva s1 s2 _ _ C2). exists (take medio es).
      split; [apply lookup_insert_eq|].
      apply (apunta_conserva s s1 _ _ C1). now apply Forall2_take. }
    assert (lista_en s2 de (drop medio ps)) as Lde.
    { exists (drop medio es). split; [apply lookup_insert_eq|].
      apply (apunta_conserva s s2); [eapply conserva_trans; eassumption|].
      now apply Forall2_drop. }
    destruct (IH s2 iz _ Liz) as (s3 & io & E3 & Lio & C3 & S3).
    erewrite bind_eq by exact E3.
    destruct (IH s3 de _ (lista_en_conserva _ _ _ _ C3 Lde))
      as (s4 & do & E4 & Ldo & C4 & S4).
    erewrite bind_eq by exact E4.
    destruct (mezclar_eq s4 io do _ _ (lista_en_conserva _ _ _ _ C4 Lio) Ldo)
      as (s5 & r & E5 & Lr & C5 & S5).
    exists s5, r. repeat split; [exact E5|exact Lr| |].
    + exact (conserva_trans _ _ _ C1 (conserva_trans _ _ _ C2
               (conserva_trans _ _ _ C3 (conserva_trans _ _ _ C4 C5)))).
    + rewrite S5, S4, S3. reflexivity.
Qed.

(** [merge_sort] on the store returns a list object that holds the
    products in the order the functional [merge_sort] gives, keeps
    every object that existed and prints nothing. *)
Lemma merge_sort_mem s productos ps :
  lista_en s productos ps ->
  exists s' r,
    Memoria.merge_sort productos s = (s', inr r) /\
    lista_en s' r (merge_sort ps) /\
    conserva s s' /\ Memoria.salida s' = Memoria.salida s.
Proof.
  intros Hl. unfold Memoria.merge_sort, merge_sort.
  destruct Hl as (es & Hp & Hf).
  paso len_eq.
  rewrite <- (Forall2_length _ _ _ Hf).
  apply merge_sort_rec_mem. now exists es.
Qed.

(** *** [analizar_datos] on the store *)

Lemma bind_err {A B} (m : Memoria.M A) (k : A -> Memoria.M B) s s' e :
  m s = (s', inl e) -> (m ≫= k) s = (s', inl e).
Proof. intros H. unfold mbind, Memoria.M_bind. rewrite H. reflexivity. Qed.

Lemma leer_dict_eq s a d :
  Memoria.objetos s !! a = Some (Memoria.Obj_dict d) ->
  Memoria.leer_dict a s = (s, inr d).
Proof. intros H. unfold Memoria.leer_dict. rewrite H. reflexivity. Qed.

Lemma dict_obtener_eq s a d k v :
  Memoria.objetos s !! a = Some (Memoria.Obj_dict d) -> d !! k = Some v ->
  Memoria.dict_obtener a k s = (s, inr v).
Proof.
  intros H Hk. unfold Memoria.dict_obtener.
  paso leer_dict_eq. rewrite Hk. reflexivity.
Qed.

Lemma dict_obtener_err s a d k :
  Memoria.objetos s !! a = Some (Memoria.Obj_dict d) -> d !! k = None ->
  Memoria.dict_obtener a k s = (s, inl (KeyError k)).
Proof.
  intros H Hk. unfold Memoria.dict_obtener.
  paso leer_dict_eq. rewrite Hk. reflexivity.
Qed.

Lemma dict_asignar_eq s a d k v :
  Memoria.objetos s !! a = Some (Memoria.Obj_dict d) ->
  Memoria.dict_asignar a k v s
  = (Memoria.poner a (Memoria.Obj_dict (<[k := v]> d)) s, inr tt).
Proof.
  intros H. unfold Memoria.dict_asignar.
  paso leer_dict_eq. reflexivity.
Qed.

Lemma iterar_contar productos es ps cal n :
  forall i d s,
  Memoria.objetos s !! productos = Some (Memoria.Obj_lista es) ->
  Forall2 (apunta s) es ps ->
  Memoria.objetos s !! cal = Some (Memoria.Obj_dict d) ->
  (length es - i < n)%nat ->
  exists d',
    Memoria.iterar n productos i (cuerpo_contar cal) s
    = (Memoria.poner cal (Memoria.Obj_dict d') s,
       match contar (drop i ps) d with inr _ => inr tt | inl e => inl e end)
    /\ (forall df, contar (drop i ps) d = inr df -> d' = df).
Proof.
  induction n as [|n IH]; intros i d s Hp Hf Hc Hn; [lia|].
  cbn [Memoria.iterar].
  paso len_eq.
  pose proof (Forall2_length _ _ _ Hf) as L.
  destruct (Nat.ltb_spec i (length es)) as [Hi|Hi].
  2:{ rewrite drop_ge by lia. cbn [contar]. exists d.
      rewrite estado_insert_id by exact Hc. split; [reflexivity|congruence]. }
  destruct (lookup_Forall2 _ _ _ i Hf Hi) as (a & pa & Ha & Hpa & Haa).
  rewrite (drop_lookup_cons ps i pa Hpa). cbn [contar].
  paso elemento_eq.
  destruct (d !! calificacion pa) as [c|] eqn:Hd.
  - erewrite bind_eq.
    2:{ unfold cuerpo_contar.
        paso leer_producto_eq.
        paso dict_obtener_eq.
        erewrite dict_asignar_eq by eassumption. reflexivity. }
    edestruct (IH (S i) (<[calificacion pa := c + 1]> d)
                 (Memoria.mkEstado
                    (<[cal := Memoria.Obj_dict (<[calificacion pa := c + 1]> d)]>
                       (Memoria.objetos s)) (Memoria.salida s)))
      as (d' & E & Hd'); cbn.
    + rewrite lookup_insert_ne by congruence. exact Hp.
    + apply apunta_insert; [|exact Hf]. intros p. rewrite Hc. discriminate.
    + apply lookup_insert_eq.
    + lia.
    + exists d'. cbn in E |- *. rewrite E. cbn. rewrite insert_insert_eq.
      split; [reflexivity|exact Hd'].
  - exists d. erewrite bind_err.
    2:{ unfold cuerpo_contar.
        paso leer_producto_eq.
        erewrite bind_err by (eapply dict_obtener_err; eassumption).
        reflexivity. }
    rewrite estado_insert_id by exact Hc. split; [reflexivity|discriminate].
Qed.

Lemma iterar_filtrar productos es ps cinco n :
  forall i l5 p5 s,
  Memoria.objetos s !! productos = Some (Memoria.Obj_lista es) ->
  Forall2 (apunta s) es ps ->
  Memoria.objetos s !! cinco = Some (Memoria.Obj_lista l5) ->
  Forall2 (apunta s) l5 p5 ->
  cinco <> productos ->
  (length es - i < n)%nat ->
  exists l5',
    Memoria.iterar n productos i (cuerpo_filtrar cinco) s
    = (Memoria.poner cinco (Memoria.Obj_lista l5') s, inr tt)
    /\ Forall2 (apunta s) l5'
         (p5 ++ List.filter (fun p => calificacion p =? 5) (drop i ps)).
Proof.
  induction n as [|n IH]; intros i l5 p5 s Hp Hf Hc H5 Ne Hn; [lia|].
  cbn [Memoria.iterar].
  paso len_eq.
  pose proof (Forall2_length _ _ _ Hf) as L.
  destruct (Nat.ltb_spec i (length es)) as [Hi|Hi].
  2:{ rewrite drop_ge by lia. cbn [List.filter]. rewrite app_nil_r. exists l5.
      rewrite estado_insert_id by exact Hc. split; [reflexivity|exact H5]. }
  destruct (lookup_Forall2 _ _ _ i Hf Hi) as (a & pa & Ha & Hpa & Haa).
  rewrite (drop_lookup_cons ps i pa Hpa). cbn [List.filter].
  paso elemento_eq.
  assert (forall p,
            Memoria.objetos s !! cinco <> Some (Memoria.Obj_producto p))
    as Hnp by (intros p; rewrite Hc; discriminate).
  destruct (calificacion pa =? 5) eqn:Hcal.
  - erewrite bind_eq.
    2:{ unfold cuerpo_filtrar.
        paso leer_producto_eq.
        rewrite Hcal. erewrite append_eq by eassumption. reflexivity. }
    edestruct (IH (S i) (l5 ++ [a]) (p5 ++ [pa])
                 (Memoria.poner cinco (Memoria.Obj_lista (l5 ++ [a])) s))
      as (l5' & E & F); cbn.
    + rewrite lookup_insert_ne by done. exact Hp.
    + now apply apunta_insert.
    + apply lookup_insert_eq.
    + apply apunta_insert; [exact Hnp|]. apply Forall2_app; [exact H5|].
      now repeat constructor.
    + exact Ne.
    + lia.
    + exists l5'. cbn in E |- *. rewrite E. cbn. rewrite insert_insert_eq.
      split; [reflexivity|].
      apply apunta_insert_inv in F. rewrite <- app_assoc in F. exact F.
  - erewrite bind_eq.
    2:{ unfold cuerpo_filtrar.
        paso leer_producto_eq.
        rewrite Hcal. reflexivity. }
    apply (IH (S i) l5 p5 s); assumption || lia.
Qed.

Lemma min_precio_mem s :
  forall resto actual pa pr,
  apunta s actual pa -> Forall2 (apunta s) resto pr ->
  exists a', Memoria.min_precio actual resto s = (s, inr a') /\
             apunta s a' (min_precio pa pr).
Proof.
  induction resto as [|x resto IH]; intros actual pa pr Ha Hf;
    inversion Hf as [|? px ? pr' Hx Hf']; subst;
    cbn [Memoria.min_precio min_precio].
  - exists actual. split; [reflexivity|exact Ha].
  - paso leer_producto_eq.
    paso leer_producto_eq.
    destruct (precio px <? precio pa)%float; now apply IH.
Qed.

(** The percentage lines, on the store and on lists. *)
Lemma para_cada_porcentajes productos es (ps : list Producto) items :
  forall s w,
  Memoria.objetos s !! productos = Some (Memoria.Obj_lista es) ->
  length es = length ps ->
  Memoria.salida s = salida w ->
  exists sal r,
    lineas_porcentaje_mem productos items s
    = (Memoria.mkEstado (Memoria.objetos s) sal, r) /\
    lineas_porcentaje ps items w = (mkMundo (archivos w) sal, r).
Proof.
  unfold lineas_porcentaje_mem, lineas_porcentaje.
  induction items as [|[calif cantidad] items IH]; intros s w Hp L Hs;
    cbn [Memoria.para_cada para_cada].
  - exists (salida w), (inr tt). destruct s, w; cbn in *. subst. split; reflexivity.
  - destruct (division_real cantidad (Z.of_nat (length ps))) as [e|q] eqn:Hq.
    + exists (salida w), (inl e). split.
      * erewrite bind_err.
        2:{ paso len_eq.
            rewrite L, Hq. reflexivity. }
        destruct s; cbn in *. subst. reflexivity.
      * unfold mbind at 1, M_bind. unfold mbind at 1, M_bind, elevar. 
        destruct w; reflexivity.
    + edestruct (IH (Memoria.mkEstado (Memoria.objetos s)
                       (Memoria.salida s ++
                        [Ev_calificacion calif cantidad (q * Z_a_float 100)%float]))
                    (mkMundo (archivos w)
                       (salida w ++
                        [Ev_calificacion calif cantidad (q * Z_a_float 100)%float])))
        as (sal & r & E1 & E2); cbn; [exact Hp|exact L|now rewrite Hs|].
      exists sal, r. split.
      * erewrite bind_eq.
        2:{ paso len_eq.
            rewrite L, Hq. reflexivity. }
        exact E1.
      * unfold mbind at 1, M_bind. unfold mbind at 1, M_bind, elevar.
        unfold imprimir at 1. exact E2.
Qed.

Lemma imprimir_eq s ev :
  Memoria.imprimir ev s
  = (Memoria.mkEstado (Memoria.objetos s) (Memoria.salida s ++ [ev]), inr tt).
Proof. reflexivity. Qed.

Lemma cinco_estrellas_mem s productos es ps w :
  Memoria.objetos s !! productos = Some (Memoria.Obj_lista es) ->
  Forall2 (apunta s) es ps ->
  Memoria.salida s = salida w ->
  exists s' w',
    cola_cinco_mem productos s = (s', inr tt) /\
    cola_cinco ps w = (w', inr tt) /\
    Memoria.salida s' = salida w'.
Proof.
  intros Hp Hf Hs. unfold cola_cinco_mem, cola_cinco.
  destruct (nuevo_eq s (Memoria.Obj_lista [])) as (cinco & Hc & E1).
  erewrite bind_eq by exact E1.
  set (s1 := Memoria.poner cinco _ _) in *.
  assert (conserva s s1) as C1 by now apply conserva_insert.
  assert (cinco <> productos) as Ne by congruence.
  unfold Memoria.para_cada_en.
  edestruct (iterar_filtrar productos es ps cinco (S (length es)) 0 [] [] s1)
    as (l5 & E & F);
    [apply C1; eassumption|eapply apunta_conserva; eassumption
    |apply lookup_insert_eq|constructor|exact Ne|lia|].
  erewrite bind_eq.
  2:{ erewrite bind_eq by (eapply len_eq; apply C1; eassumption). exact E. }
  clear E.
  rewrite drop_0 in F. cbn [app] in F.
  erewrite bind_eq by (eapply leer_lista_eq; apply lookup_insert_eq).
  erewrite bind_eq by apply imprimir_eq.
  cbv zeta. rewrite (Forall2_length _ _ _ F).
  remember (List.filter (fun p => calificacion p =? 5) ps) as f5 eqn:Hf5.
  clear Hf5. destruct F as [|primero pp resto pr Hpp Hr].
  - eexists _, _. split; [reflexivity|]. split; [reflexivity|].
    cbn. now rewrite Hs.
  - assert (Forall2 (apunta s1) (primero :: resto) (pp :: pr)) as F
      by now constructor.
    apply (apunta_insert s1 cinco (Memoria.Obj_lista (primero :: resto))) in F.
    2:{ intros p. unfold s1. cbn. rewrite lookup_insert_eq. discriminate. }
    inversion F as [|? ? ? ? Hpp' Hr']; subst.
    destruct (min_precio_mem
                (Memoria.mkEstado
                   (<[cinco := Memoria.Obj_lista (primero :: resto)]>
                      (Memoria.objetos s1))
                   (Memoria.salida s1 ++ [Ev_cinco_estrellas (length (pp :: pr))]))
                resto primero pp pr Hpp' Hr') as (a' & E & Ha).
    erewrite bind_eq by exact E.
    paso leer_producto_eq.
    eexists _, _. split; [reflexivity|]. split; [reflexivity|].
    cbn. now rewrite Hs.
Qed.

Lemma analizar_datos_desplegado productos :
  Memoria.analizar_datos productos
  = (Memoria.imprimir Ev_cabecera_analisis;;
     calificaciones ← Memoria.nuevo (Memoria.Obj_dict calificaciones_iniciales);
     Memoria.para_cada_en productos (cuerpo_contar calificaciones);;
     contenido ← Memoria.leer_dict calificaciones;
     lineas_porcentaje_mem productos (sorted_reverse (map_to_list contenido));;
     cola_cinco_mem productos).
Proof. reflexivity. Qed.

Lemma analizar_datos_plegado productos :
  analizar_datos productos
  = (imprimir Ev_cabecera_analisis;;
     calificaciones ← elevar (contar productos calificaciones_iniciales);
     lineas_porcentaje productos (sorted_reverse (map_to_list calificaciones));;
     cola_cinco productos).
Proof. reflexivity. Qed.

Lemma bind_eq_p {A B} (m : M A) (k : A -> M B) w w' x :
  m w = (w', inr x) -> (m ≫= k) w = k x w'.
Proof. intros H. unfold mbind, M_bind. rewrite H. reflexivity. Qed.

Lemma bind_err_p {A B} (m : M A) (k : A -> M B) w w' e :
  m w = (w', inl e) -> (m ≫= k) w = (w', inl e).
Proof. intros H. unfold mbind, M_bind. rewrite H. reflexivity. Qed.

(** [analizar_datos] on the store prints what the functional
    [analizar_datos] prints and ends as it ends. *)
Lemma analizar_datos_mem s productos ps fs :
  lista_en s productos ps ->
  (Memoria.analizar_datos productos s).2
  = (analizar_datos ps (mkMundo fs (Memoria.salida s))).2 /\
  Memoria.salida (Memoria.analizar_datos productos s).1
  = salida (analizar_datos ps (mkMundo fs (Memoria.salida s))).1.
Proof.
  intros (es & Hp & Hf).
  rewrite analizar_datos_desplegado, analizar_datos_plegado.
  erewrite bind_eq by apply imprimir_eq.
  erewrite bind_eq_p by reflexivity.
  set (s1 := Memoria.mkEstado _ (_ ++ _)).
  set (w1 := mkMundo _ (_ ++ _)).
  destruct (nuevo_eq s1 (Memoria.Obj_dict calificaciones_iniciales))
    as (cal & Hcal & E1).
  erewrite bind_eq by exact E1.
  set (s2 := Memoria.poner cal _ _) in *.
  assert (cal <> productos) as Ne
    by (intros ->; unfold s1 in Hcal; cbn in Hcal; congruence).
  assert (Memoria.objetos s2 !! productos = Some (Memoria.Obj_lista es)) as Hp2.
  { unfold s2, s1. cbn. rewrite lookup_insert_ne by done. exact Hp. }
  assert (Forall2 (apunta s2) es ps) as Hf2.
  { unfold s2. apply apunta_insert; [|exact Hf].
    intros p. rewrite Hcal. discriminate. }
  destruct (iterar_contar productos es ps cal (S (length es)) 0
              calificaciones_iniciales s2 Hp2 Hf2) as (d' & E2 & Hd');
    [apply lookup_insert_eq|lia|].
  rewrite drop_0 in *.
  destruct (contar ps calificaciones_iniciales) as [e|df] eqn:Hcont.
  { erewrite bind_err.
    2:{ unfold Memoria.para_cada_en.
        paso len_eq. exact E2. }
    erewrite bind_err_p by reflexivity. split; reflexivity. }
  rewrite (Hd' df eq_refl) in *. clear Hd'.
  erewrite bind_eq.
  2:{ unfold Memoria.para_cada_en.
      paso len_eq. exact E2. }
  set (s3 := Memoria.poner cal (Memoria.Obj_dict df) _) in *.
  assert (Memoria.objetos s3 !! productos = Some (Memoria.Obj_lista es)) as Hp3.
  { unfold s3. cbn. rewrite lookup_insert_ne by done. exact Hp2. }
  assert (Forall2 (apunta s3) es ps) as Hf3.
  { unfold s3. apply apunta_insert; [|exact Hf2]. intros p. unfold s2. cbn.
    rewrite lookup_insert_eq. discriminate. }
  erewrite bind_eq by (eapply leer_dict_eq; apply lookup_insert_eq).
  erewrite bind_eq_p by reflexivity.
  destruct (para_cada_porcentajes productos es ps
              (sorted_reverse (map_to_list df)) s3 w1 Hp3
              (Forall2_length _ _ _ Hf) eq_refl) as (sal & r & E3 & E4).
  destruct r as [e|[]].
  { erewrite bind_err by exact E3. erewrite bind_err_p by exact E4.
    split; reflexivity. }
  erewrite bind_eq by exact E3. erewrite bind_eq_p by exact E4.
  destruct (cinco_estrellas_mem (Memoria.mkEstado (Memoria.objetos s3) sal)
              productos es ps (mkMundo (archivos w1) sal) Hp3 Hf3 eq_refl)
    as (s' & w' & E5 & E6 & Hs).
  rewrite E5, E6. split; [reflexivity|exact Hs].
Qed.

(** * The input is not mutated *)

(** C8: [merge_sort] and [analizar_datos] do not mutate their input.
    Run on a list object [productos] that holds the products [ps], each
    ends in a store where [productos] still holds [ps], in the same
    order and with the same fields, and where every object that
    existed, lists and products alike, is unchanged. The runs are
    complete ones: [merge_sort] returns a list object that holds the
    products in sorted order, and [analizar_datos] ends as the
    functional [analizar_datos] does. *)
Theorem entrada_intacta (s : Memoria.estado) (productos : Memoria.dir)
    (ps : list Producto) :
  lista_en s productos ps ->
  (lista_en (Memoria.merge_sort productos s).1 productos ps /\
   conserva s (Memoria.merge_sort productos s).1 /\
   exists r, (Memoria.merge_sort productos s).2 = inr r /\
             lista_en (Memoria.merge_sort productos s).1 r (merge_sort ps))
  /\
  (lista_en (Memoria.analizar_datos productos s).1 productos ps /\
   conserva s (Memoria.analizar_datos productos s).1 /\
   (Memoria.analizar_datos productos s).2
   = (analizar_datos ps (mkMundo ∅ (Memoria.salida s))).2).
Proof.
  intros Hl. split.
  - destruct (marco_merge_sort s productos s (conserva_refl s)) as [Hc _].
    split; [eapply lista_en_conserva; eassumption|]. split; [exact Hc|].
    destruct (merge_sort_mem s productos ps Hl) as (s' & r & E & Hr & _).
    exists r. rewrite E. split; [reflexivity|exact Hr].
  - destruct (marco_analizar_datos s productos s (conserva_refl s)) as [Hc _].
    split; [eapply lista_en_conserva; eassumption|]. split; [exact Hc|].
    apply analizar_datos_mem, Hl.
Qed.

Lemma estado_4_lista : lista_en estado_4 4%nat catalogo_4.
Proof.
  exists [0; 1; 2; 3]%nat. split; [reflexivity|].
  repeat constructor.
Defined.

(** C8 on the store of the ranking scenario. *)
Lemma entrada_intacta_testigo :
  lista_en estado_4 4%nat catalogo_4 /\
  lista_en (Memoria.merge_sort 4%nat estado_4).1 4%nat catalogo_4 /\
  lista_en (Memoria.analizar_datos 4%nat estado_4).1 4%nat catalogo_4.
Proof.
  split; [exact estado_4_lista|].
  pose proof (entrada_intacta estado_4 4%nat catalogo_4 estado_4_lista) as H.
  split; [exact (proj1 (proj1 H))|exact (proj1 (proj2 H))].
Defined.

(** * Further properties *)
(** ** The comparator and the merge *)

Lemma es_positivo_spec a b :
  es_positivo (comparar_productos a b) =
  (calificacion a <? calificacion b)
  || ((calificacion a =? calificacion b) && (precio b <? precio a)%float).
Proof.
  unfold comparar_productos.
  destruct (Z.eqb_spec (calificacion a) (calificacion b)) as [E|E]; cbn [negb].
  - rewrite E, Z.ltb_irrefl. cbn [orb andb].
    rewrite eqb_fcompare, ltb_fcompare, (fcompare_antisym (precio a) (precio b)).
    destruct (fcompare (precio a) (precio b)) as [[]|] eqn:Hc;
      cbn [negb es_positivo option_map CompOpp]; try reflexivity;
      rewrite ltb_fcompare, (fcompare_antisym _ 0%float), fcompare_sub, Hc
        by congruence; reflexivity.
  - cbn [es_positivo andb]. rewrite orb_false_r.
    destruct (Z.ltb_spec 0 (calificacion b - calificacion a)),
      (Z.ltb_spec (calificacion a) (calificacion b)); try reflexivity; lia.
Qed.

Lemma es_negativo_spec a b :
  es_negativo (comparar_productos a b) =
  (calificacion b <? calificacion a)
  || ((calificacion a =? calificacion b) && (precio a <? precio b)%float).
Proof.
  unfold comparar_productos.
  destruct (Z.eqb_spec (calificacion a) (calificacion b)) as [E|E]; cbn [negb].
  - rewrite E, Z.ltb_irrefl. cbn [orb andb].
    rewrite eqb_fcompare, ltb_fcompare.
    destruct (fcompare (precio a) (precio b)) as [[]|] eqn:Hc;
      cbn [negb es_negativo]; try reflexivity;
      rewrite ltb_fcompare, fcompare_sub, Hc by congruence; reflexivity.
  - cbn [es_negativo andb]. rewrite orb_false_r.
    destruct (Z.ltb_spec (calificacion b - calificacion a) 0),
      (Z.ltb_spec (calificacion b) (calificacion a)); try reflexivity; lia.
Qed.

Lemma es_cero_spec a b :
  es_cero (comparar_productos a b) =
  (calificacion a =? calificacion b) && (precio a =? precio b)%float.
Proof.
  unfold comparar_productos.
  destruct (Z.eqb_spec (calificacion a) (calificacion b)) as [E|E]; cbn [negb].
  - cbn [andb]. rewrite eqb_fcompare.
    destruct (fcompare (precio a) (precio b)) as [[]|] eqn:Hc;
      cbn [negb es_cero]; try reflexivity;
      rewrite eqb_fcompare, fcompare_sub, Hc by congruence; reflexivity.
  - cbn [es_cero andb]. apply Z.eqb_neq. lia.
Qed.

(** X1: swapping the arguments of [comparar_productos] swaps the sign
    of the result: it is negative for [(a, b)] exactly when it is
    positive for [(b, a)], and zero for one order exactly when it is
    zero for the other. This holds for every pair, NaN prices
    included. *)
Theorem comparar_productos_antisimetrico (a b : Producto) :
  es_negativo (comparar_productos a b) = es_positivo (comparar_productos b a)
  /\ es_cero (comparar_productos a b) = es_cero (comparar_productos b a).
Proof.
  rewrite es_negativo_spec, es_positivo_spec, !es_cero_spec. split.
  - rewrite (Z.eqb_sym (calificacion b)). reflexivity.
  - rewrite (Z.eqb_sym (calificacion b)), !eqb_fcompare,
      (fcompare_antisym (precio a) (precio b)).
    destruct (fcompare (precio a) (precio b)) as [[]|]; reflexivity.
Qed.

Lemma antes_o_igual_refl a :
  is_nan (precio a) = false -> antes_o_igual a a = true.
Proof.
  intros Ha. destruct (antes_o_igual a a) eqn:E; [reflexivity|].
  pose proof (antes_o_igual_total a a Ha Ha E). congruence.
Qed.

(** X2: the test of the merge loop, [comparar_productos(a, b) <= 0],
    is a total preorder on the products whose price is not NaN: it is
    transitive (for all products), and for prices that are not NaN it
    is reflexive and holds in at least one direction for every pair. A
    product whose price is NaN does not pass the test against itself. *)
Theorem antes_o_igual_preorden :
  (forall a b c, antes_o_igual a b = true -> antes_o_igual b c = true ->
                 antes_o_igual a c = true)
  /\ (forall a, antes_o_igual a a = negb (is_nan (precio a)))
  /\ (forall a b, is_nan (precio a) = false -> is_nan (precio b) = false ->
                  antes_o_igual a b = true \/ antes_o_igual b a = true).
Proof.
  split; [exact antes_o_igual_trans|]. split.
  - intros a. destruct (is_nan (precio a)) eqn:Ha; cbn [negb].
    + rewrite antes_o_igual_spec, Z.ltb_irrefl, Z.eqb_refl. cbn [orb andb].
      destruct (precio a <=? precio a)%float eqn:E; [|reflexivity].
      apply leb_nan_float in E. destruct E; congruence.
    + now apply antes_o_igual_refl.
  - intros a b Ha Hb. destruct (antes_o_igual a b) eqn:E; [now left|].
    right. now apply antes_o_igual_total.
Qed.

Lemma Sorted_ordenada l : Sorted precede l -> ordenada l.
Proof.
  induction 1 as [|a l Hs IH Hd]; intros i x y Hx Hy; [discriminate|].
  destruct i as [|i].
  - cbn in Hx, Hy. injection Hx as ->. destruct Hd as [|b l Hab]; [discriminate|].
    cbn in Hy. injection Hy as ->. exact Hab.
  - exact (IH i x y Hx Hy).
Qed.

(** X3: [mezclar] loses and duplicates nothing: its result is a
    permutation of the left list followed by the right list, so its
    length is the sum of their lengths, whatever the order of the
    inputs. *)
Theorem mezclar_permutacion (izquierda derecha : list Producto) :
  mezclar izquierda derecha ≡ₚ izquierda ++ derecha
  /\ length (mezclar izquierda derecha) = (length izquierda + length derecha)%nat.
Proof.
  assert (mezclar izquierda derecha ≡ₚ izquierda ++ derecha) as H
    by (rewrite mezclar_mezcla; apply mezcla_Permutation).
  split; [exact H|]. rewrite (Permutation_length H). apply length_app.
Qed.

(** X4: when one of the lists is empty the loop of [mezclar] does not
    run and the result is the other list. *)
Theorem mezclar_vacia (l : list Producto) :
  mezclar [] l = l /\ mezclar l [] = l.
Proof.
  rewrite !mezclar_mezcla. split; [apply mezcla_nil_l|apply mezcla_nil_r].
Qed.

(** X5: [mezclar] does what its docstring says on sorted lists whose
    prices are not NaN: the merge of two sorted lists is sorted. *)
Theorem mezclar_ordenada (izquierda derecha : list Producto) :
  sin_nan izquierda -> sin_nan derecha ->
  ordenada izquierda -> ordenada derecha ->
  ordenada (mezclar izquierda derecha).
Proof.
  intros N1 N2 O1 O2. rewrite mezclar_mezcla.
  apply Sorted_ordenada, mezcla_Sorted; auto using ordenada_Sorted.
Qed.

(** X6: [mezclar] puts ties from the left list first: when the left
    list is sorted, the products with the rating and price of any
    product [x] come out as those of the left list, in their order,
    followed by those of the right list, in their order. *)
Theorem mezclar_estable (izquierda derecha : list Producto) (x : Producto) :
  ordenada izquierda ->
  List.filter (misma_clave x) (mezclar izquierda derecha)
  = List.filter (misma_clave x) izquierda ++ List.filter (misma_clave x) derecha.
Proof.
  intros O1. rewrite mezclar_mezcla. apply mezcla_filter.
  apply Sorted_StronglySorted; [exact precede_trans|]. now apply ordenada_Sorted.
Qed.

(** X7: the first product of the sorted catalogue is a best one: when
    no price is NaN, it passes the comparator test against every
    product of the input (no product has a higher rating, and none of
    the same rating has a lower price). *)
Theorem merge_sort_mejor_primero (l : list Producto) (h : Producto)
    (t : list Producto) :
  sin_nan l -> merge_sort l = h :: t ->
  forall x, In x l -> antes_o_igual h x = true.
Proof.
  intros Hn E x Hx.
  pose proof (merge_sort_Sorted l Hn) as Hs.
  apply Sorted_StronglySorted in Hs; [|exact precede_trans].
  rewrite E in Hs. inversion Hs as [|? ? _ Hf]; subst.
  assert (In x (h :: t)) as [<-|Ht].
  { rewrite <- E. apply (Permutation_in x (Permutation_sym (merge_sort_Permutation l))).
    exact Hx. }
  - apply antes_o_igual_refl, Hn.
    apply (Permutation_in h (merge_sort_Permutation l)). rewrite E. now left.
  - rewrite List.Forall_forall in Hf. exact (Hf x Ht).
Qed.

Lemma ordenada_2_4 : ordenada [prod_2; prod_4].
Proof.
  intros [|[|i]] x y Hx Hy; cbn in Hx, Hy; try discriminate.
  injection Hx as <-. injection Hy as <-. vm_compute. reflexivity.
Defined.

Lemma ordenada_3_1 : ordenada [prod_3; prod_1].
Proof.
  intros [|[|i]] x y Hx Hy; cbn in Hx, Hy; try discriminate.
  injection Hx as <-. injection Hy as <-. vm_compute. reflexivity.
Defined.

Lemma sin_nan_2_4 : sin_nan [prod_2; prod_4].
Proof. intros p [<-|[<-|[]]]; reflexivity. Defined.

Lemma sin_nan_3_1 : sin_nan [prod_3; prod_1].
Proof. intros p [<-|[<-|[]]]; reflexivity. Defined.

(** X5 on two sorted halves of the ranking scenario. *)
Lemma mezclar_ordenada_testigo :
  ordenada [prod_2; prod_4] /\ ordenada [prod_3; prod_1] /\
  ordenada (mezclar [prod_2; prod_4] [prod_3; prod_1]).
Proof.
  split; [exact ordenada_2_4|]. split; [exact ordenada_3_1|].
  apply (mezclar_ordenada [prod_2; prod_4] [prod_3; prod_1]).
  - exact sin_nan_2_4.
  - exact sin_nan_3_1.
  - exact ordenada_2_4.
  - exact ordenada_3_1.
Defined.

Lemma ordenada_a_d : ordenada [prod_a; prod_d].
Proof.
  intros [|[|i]] x y Hx Hy; cbn in Hx, Hy; try discriminate.
  injection Hx as <-. injection Hy as <-. vm_compute. reflexivity.
Defined.

(** X6 on two sorted lists with a tie between them: [prod_a] on the
    left and [prod_b] on the right have the same rating and price, and
    [prod_a] comes out first. *)
Lemma mezclar_estable_testigo :
  ordenada [prod_a; prod_d] /\
  misma_clave prod_a prod_b = true /\
  List.filter (misma_clave prod_a) [prod_a; prod_d] = [prod_a] /\
  List.filter (misma_clave prod_a) [prod_2; prod_b] = [prod_b] /\
  List.filter (misma_clave prod_a) (mezclar [prod_a; prod_d] [prod_2; prod_b])
  = List.filter (misma_clave prod_a) [prod_a; prod_d]
    ++ List.filter (misma_clave prod_a) [prod_2; prod_b].
Proof.
  split; [exact ordenada_a_d|].
  split; [vm_compute; reflexivity|]. split; [vm_compute; reflexivity|].
  split; [vm_compute; reflexivity|].
  apply (mezclar_estable [prod_a; prod_d] [prod_2; prod_b] prod_a).
  exact ordenada_a_d.
Defined.

(** X7 on the catalogue of the ranking scenario: [prod_2] comes first
    and passes the test against [prod_4]. *)
Lemma merge_sort_mejor_primero_testigo :
  merge_sort catalogo_4 = prod_2 :: [prod_3; prod_4; prod_1] /\
  antes_o_igual prod_2 prod_4 = true.
Proof.
  split; [vm_compute; reflexivity|].
  apply (merge_sort_mejor_primero catalogo_4 prod_2 [prod_3; prod_4; prod_1]).
  - exact catalogo_4_sin_nan.
  - vm_compute. reflexivity.
  - right. right. right. left. reflexivity.
Defined.

(** *** The order of the ratings, NaN prices included *)

Lemma antes_o_igual_no_peor a b : antes_o_igual a b = true -> no_peor a b.
Proof.
  rewrite antes_o_igual_spec. unfold no_peor.
  intros [H%Z.ltb_lt | [H%Z.eqb_eq _]%andb_true_iff]%orb_true_iff; lia.
Qed.

Lemma no_antes_o_igual_no_peor a b : antes_o_igual a b = false -> no_peor b a.
Proof.
  rewrite antes_o_igual_spec. unfold no_peor.
  intros [H%Z.ltb_ge _]%orb_false_iff. exact H.
Qed.

Lemma mezcla_HdRel_no_peor x l1 l2 :
  HdRel no_peor x l1 -> HdRel no_peor x l2 -> HdRel no_peor x (mezcla l1 l2).
Proof.
  intros H1 H2. destruct l1 as [|a l1]; [now rewrite mezcla_nil_l|].
  destruct l2 as [|b l2]; [now rewrite mezcla_nil_r|].
  rewrite mezcla_cons. inversion H1; inversion H2; subst.
  destruct (antes_o_igual a b); constructor; assumption.
Qed.

Lemma mezcla_Sorted_no_peor l1 l2 :
  Sorted no_peor l1 -> Sorted no_peor l2 -> Sorted no_peor (mezcla l1 l2).
Proof.
  revert l2. induction l1 as [|a l1 IH1]; intros l2 Hs1 Hs2.
  - now rewrite mezcla_nil_l.
  - induction l2 as [|b l2 IH2]; [now rewrite mezcla_nil_r|].
    rewrite mezcla_cons. inversion Hs1; inversion Hs2; subst.
    destruct (antes_o_igual a b) eqn:Hab.
    + constructor; [now apply IH1|].
      apply mezcla_HdRel_no_peor; [assumption|].
      constructor. now apply antes_o_igual_no_peor.
    + constructor; [now apply IH2|].
      apply mezcla_HdRel_no_peor; [|assumption].
      constructor. now apply no_antes_o_igual_no_peor.
Qed.

(** X8: whatever the prices, NaN included, the output of [merge_sort]
    is in order of rating: along the sorted catalogue the rating never
    increases. (A NaN price can only disturb the order of the prices
    within one rating.) *)
Theorem merge_sort_por_calificacion (l : list Producto) :
  por_calificacion (merge_sort l).
Proof.
  assert (Sorted no_peor (merge_sort l)) as Hs.
  { apply (merge_sort_ind (fun _ out => Sorted no_peor out)); clear l.
    - intros [|a [|b l]] Hl; cbn in Hl; try lia; repeat constructor.
    - intros l _ medio H1 H2. rewrite mezclar_mezcla.
      now apply mezcla_Sorted_no_peor. }
  induction Hs as [|a t Hs IH Hd]; intros i x y Hx Hy; [discriminate|].
  destruct i as [|i].
  - cbn in Hx, Hy. injection Hx as ->. destruct Hd as [|b t Hab]; [discriminate|].
    cbn in Hy. injection Hy as ->. exact Hab.
  - exact (IH i x y Hx Hy).
Qed.

(** *** The list object that [merge_sort] returns *)

Lemma marco_mezclar_nueva s0 izquierda derecha :
  marco s0 (Memoria.mezclar izquierda derecha) (nueva_en s0).
Proof.
  unfold Memoria.mezclar.
  eapply marco_bind; [apply marco_nuevo|]. intros resultado Hn.
  eapply marco_bind; [apply marco_len|]. intros li _.
  eapply marco_bind; [apply marco_len|]. intros ld _.
  eapply marco_bind; [now apply marco_mezclar_bucle|]. intros [i j] _.
  eapply marco_bind; [apply marco_rebanada_desde|]. intros ri _.
  eapply marco_bind; [now apply marco_extend|]. intros _ _.
  eapply marco_bind; [apply marco_rebanada_desde|]. intros rd _.
  eapply marco_bind; [now apply marco_extend|]. intros _ _.
  now apply marco_ret.
Qed.

(** X9: the list object returned by [merge_sort]. For a list of at
    most one element it is the argument itself, and the store is left
    as it was: the caller holds two names for one list. For a longer
    list it is a list object that did not exist before the call, so it
    is neither the argument nor any other list of the caller. *)
Theorem merge_sort_objeto (s : Memoria.estado) (productos : Memoria.dir)
    (ps : list Producto) :
  lista_en s productos ps ->
  exists r,
    (Memoria.merge_sort productos s).2 = inr r /\
    if (length ps <=? 1)%nat
    then r = productos /\ (Memoria.merge_sort productos s).1 = s
    else nueva_en s r.
Proof.
  intros Hl.
  destruct (merge_sort_mem s productos ps Hl) as (s' & r & E & _).
  exists r. rewrite E. split; [reflexivity|]. cbn [fst].
  destruct Hl as (es & Hp & Hf). revert E.
  unfold Memoria.merge_sort.
  erewrite bind_eq by (eapply len_eq; eassumption).
  rewrite (Forall2_length _ _ _ Hf).
  destruct (length ps) as [|n] eqn:El; cbn [Memoria.merge_sort_rec].
  { intros [= <- <-]. cbn. auto. }
  erewrite bind_eq by (eapply len_eq; eassumption).
  rewrite (Forall2_length _ _ _ Hf), El.
  destruct (S n <=? 1)%nat eqn:E1.
  { intros [= <- <-]. auto. }
  cbv zeta. intros E.
  assert (marco s
            (izquierda ← Memoria.rebanada_hasta productos (S n / 2);
             derecha ← Memoria.rebanada_desde productos (S n / 2);
             izquierda_ordenada ← Memoria.merge_sort_rec n izquierda;
             derecha_ordenada ← Memoria.merge_sort_rec n derecha;
             Memoria.mezclar izquierda_ordenada derecha_ordenada)
            (nueva_en s)) as Hm.
  { eapply marco_bind; [apply marco_rebanada_hasta|]. intros iz _.
    eapply marco_bind; [apply marco_rebanada_desde|]. intros de _.
    eapply marco_bind; [apply marco_merge_sort_rec|]. intros io _.
    eapply marco_bind; [apply marco_merge_sort_rec|]. intros do _.
    apply marco_mezclar_nueva. }
  destruct (Hm s (conserva_refl s)) as [_ Hr]. apply Hr.
  rewrite E. reflexivity.
Qed.

(** X9 on the store of the ranking scenario: the list of four
    products is sorted into a list object that did not exist. *)
Lemma merge_sort_objeto_testigo :
  lista_en estado_4 4%nat catalogo_4 /\
  exists r, (Memoria.merge_sort 4%nat estado_4).2 = inr r /\ nueva_en estado_4 r.
Proof.
  split; [exact estado_4_lista|].
  exact (merge_sort_objeto estado_4 4%nat catalogo_4 estado_4_lista).
Defined.

(** ** The report *)

Lemma cuenta_cons k p l :
  cuenta k (p :: l) = (if calificacion p =? k then 1 else 0) + cuenta k l.
Proof.
  unfold cuenta. cbn [List.filter]. destruct (calificacion p =? k); cbn [length]; lia.
Qed.

Lemma contar_lookup l :
  forall d d', contar l d = inr d' ->
  forall k, d' !! k = (fun c => c + cuenta k l) <$> d !! k.
Proof.
  induction l as [|p l IH]; intros d d' H k; cbn [contar] in H.
  - injection H as <-. destruct (d !! k) as [c|]; cbn; [|reflexivity].
    f_equal. unfold cuenta. cbn. lia.
  - destruct (d !! calificacion p) as [c|] eqn:Hc; [|discriminate].
    rewrite (IH _ _ H k), cuenta_cons.
    destruct (Z.eqb_spec (calificacion p) k) as [E|Ne].
    + rewrite E in *. rewrite lookup_insert_eq, Hc. cbn. f_equal. lia.
    + rewrite lookup_insert_ne by exact Ne.
      destruct (d !! k); cbn; [f_equal; lia|reflexivity].
Qed.

Lemma contar_forma l d :
  contar l calificaciones_iniciales = inr d ->
  d = <[1 := cuenta 1 l]> (<[2 := cuenta 2 l]> (<[3 := cuenta 3 l]>
        (<[4 := cuenta 4 l]> (<[5 := cuenta 5 l]> ∅)))).
Proof.
  intros H. apply map_eq. intros k.
  rewrite (contar_lookup _ _ _ H k). unfold calificaciones_iniciales.
  destruct (decide (k = 1)) as [->|?]; [now rewrite !lookup_insert_eq|].
  rewrite 2!(lookup_insert_ne _ 1 k) by done.
  destruct (decide (k = 2)) as [->|?]; [now rewrite !lookup_insert_eq|].
  rewrite 2!(lookup_insert_ne _ 2 k) by done.
  destruct (decide (k = 3)) as [->|?]; [now rewrite !lookup_insert_eq|].
  rewrite 2!(lookup_insert_ne _ 3 k) by done.
  destruct (decide (k = 4)) as [->|?]; [now rewrite !lookup_insert_eq|].
  rewrite 2!(lookup_insert_ne _ 4 k) by done.
  destruct (decide (k = 5)) as [->|?]; [now rewrite !lookup_insert_eq|].
  rewrite 2!(lookup_insert_ne _ 5 k) by done.
  reflexivity.
Qed.

(** X10: when the counting loop of [analizar_datos] ends, the
    dictionary holds, for each rating from 1 to 5, the number of
    products of the list with that rating, and no other key. *)
Theorem contar_cuenta (l : list Producto) (d : gmap Z Z) :
  contar l calificaciones_iniciales = inr d ->
  forall k, d !! k = if (1 <=? k) && (k <=? 5) then Some (cuenta k l) else None.
Proof.
  intros H k. rewrite (contar_forma l d H).
  destruct (Z.leb_spec 1 k), (Z.leb_spec k 5); cbn [andb].
  - assert (k = 1 \/ k = 2 \/ k = 3 \/ k = 4 \/ k = 5) as [->|[->|[->|[->| ->]]]]
      by lia; reflexivity.
  - rewrite !lookup_insert_ne by lia. apply lookup_empty.
  - rewrite !lookup_insert_ne by lia. apply lookup_empty.
  - lia.
Qed.

Lemma items_ordenados c1 c2 c3 c4 c5 :
  sorted_reverse
    (map_to_list
       (<[1 := c1]> (<[2 := c2]> (<[3 := c3]> (<[4 := c4]> (<[5 := c5]> ∅))))
        : gmap Z Z))
  = [(5, c5); (4, c4); (3, c3); (2, c2); (1, c1)].
Proof. vm_compute. reflexivity. Qed.

Lemma linea_eq (l : list Producto) k w :
  l <> [] ->
  (cociente ← elevar (division_real (cuenta k l) (Z.of_nat (length l)));
   imprimir (Ev_calificacion k (cuenta k l) (cociente * Z_a_float 100)%float)) w
  = (mkMundo (archivos w) (salida w ++ [linea_calificacion l k]), inr tt).
Proof.
  intros Hl. unfold division_real.
  destruct (Z.eqb_spec (Z.of_nat (length l)) 0) as [E|_]; [|reflexivity].
  destruct l; [congruence|cbn in E; lia].
Qed.

Lemma analizar_datos_lineas (l : list Producto) (w : mundo) :
  l <> [] -> Forall en_dominio l ->
  analizar_datos l w
  = (mkMundo (archivos w)
       (salida w ++
        Ev_cabecera_analisis ::
        (linea_calificacion l <$> [5; 4; 3; 2; 1]) ++ lineas_cinco l),
     inr tt).
Proof.
  intros Hl Hd.
  destruct (contar_en_dominio l _ claves_iniciales Hd) as (d & Hc & _).
  pose proof (contar_forma l d Hc) as ->.
  unfold analizar_datos.
  unfold mbind at 1, M_bind. unfold imprimir at 1.
  unfold mbind at 1, M_bind. unfold elevar at 1. rewrite Hc.
  rewrite items_ordenados. cbn [para_cada].
  unfold mbind at 1, M_bind.
  repeat (unfold mbind at 1, M_bind; rewrite linea_eq by exact Hl).
  cbn [mret M_ret archivos salida]. cbv zeta. unfold lineas_cinco.
  destruct (List.filter (fun p => calificacion p =? 5) l) as [|p r];
    unfold mbind, M_bind, imprimir; cbn [archivos salida mret M_ret fmap list_fmap];
    rewrite <- !app_assoc; reflexivity.
Qed.




Lemma contar_catalogo_4 :
  contar catalogo_4 calificaciones_iniciales
  = inr (<[3 := 2]> (<[5 := 2]> calificaciones_iniciales)).
Proof. vm_compute. reflexivity. Defined.

(** X10 on the catalogue of the ranking scenario: two products of
    rating 5, two of rating 3. *)
Lemma contar_cuenta_testigo :
  contar catalogo_4 calificaciones_iniciales
  = inr (<[3 := 2]> (<[5 := 2]> calificaciones_iniciales))
  /\ (<[3 := 2]> (<[5 := 2]> calificaciones_iniciales) : gmap Z Z) !! 5
     = Some (cuenta 5 catalogo_4).
Proof.
  split; [exact contar_catalogo_4|].
  apply (contar_cuenta catalogo_4 _ contar_catalogo_4 5).
Defined.


(** *** The cheapest five-star product *)

Lemma ltb_trans_float x y z :
  (x <? y)%float = true -> (y <? z)%float = true -> (x <? z)%float = true.
Proof.
  rewrite !ltb_fcompare.
  destruct (fcompare x y) as [[]|] eqn:H1; try discriminate.
  destruct (fcompare y z) as [[]|] eqn:H2; try discriminate.
  intros _ _.
  destruct (fcompare_trans x y z Lt Lt H1 H2) as (c3 & -> & Hc3 & He);
    [discriminate|discriminate|].
  destruct c3; [destruct He; [reflexivity|discriminate]|reflexivity|congruence].
Qed.

Lemma ltb_leb_trans_float x y z :
  (x <? y)%float = true -> (y <=? z)%float = true -> (x <? z)%float = true.
Proof.
  rewrite !ltb_fcompare, leb_fcompare.
  destruct (fcompare x y) as [[]|] eqn:H1; try discriminate.
  destruct (fcompare y z) as [c2|] eqn:H2; try discriminate.
  intros _ Hc2.
  destruct (fcompare_trans x y z Lt c2 H1 H2) as (c3 & -> & Hc3 & He);
    [discriminate|destruct c2; congruence|].
  destruct c3; [destruct He; [reflexivity|discriminate]|reflexivity|congruence].
Qed.

Lemma ltb_false_leb_float x y :
  is_nan x = false -> is_nan y = false ->
  (x <? y)%float = false -> (y <=? x)%float = true.
Proof.
  intros Hx Hy. rewrite ltb_fcompare, leb_fcompare, (fcompare_antisym x y).
  destruct (fcompare x y) as [[]|] eqn:Hc; cbn; try congruence.
  apply fcompare_None in Hc. destruct Hc; congruence.
Qed.

Lemma leb_refl_float x : is_nan x = false -> (x <=? x)%float = true.
Proof.
  intros Hx. destruct (x <=? x)%float eqn:E; [reflexivity|].
  pose proof (leb_total_float x x Hx Hx E). congruence.
Qed.

(** X12: on a list with no NaN price, [min] with the price as key
    returns the first of the cheapest elements: the element returned
    is in the list, every element before it is strictly dearer and
    no element after it is cheaper. *)
Theorem min_precio_primero_mas_barato (primero : Producto) (resto : list Producto) :
  sin_nan (primero :: resto) ->
  exists antes despues,
    primero :: resto = antes ++ min_precio primero resto :: despues
    /\ (forall x, In x antes ->
          (precio (min_precio primero resto) <? precio x)%float = true)
    /\ (forall x, In x despues ->
          (precio (min_precio primero resto) <=? precio x)%float = true).
Proof.
  revert primero. induction resto as [|p resto IH]; intros a Hn; cbn [min_precio].
  - exists [], []. repeat split; intros x [].
  - assert (is_nan (precio a) = false) as Ha by (apply Hn; now left).
    assert (is_nan (precio p) = false) as Hp by (apply Hn; right; now left).
    destruct (precio p <? precio a)%float eqn:E.
    + destruct (IH p) as (l1 & l2 & Heq & H1 & H2).
      { intros x Hx. apply Hn. now right. }
      exists (a :: l1), l2. split; [cbn; now rewrite Heq|]. split; [|exact H2].
      intros x [<-|Hx]; [|now apply H1].
      destruct l1 as [|q l1]; cbn in Heq.
      * injection Heq as Hq _. rewrite <- Hq. exact E.
      * injection Heq as Hq _. subst q.
        eapply ltb_trans_float; [apply H1; now left|exact E].
    + apply ltb_false_leb_float in E; [|assumption..].
      destruct (IH a) as (l1 & l2 & Heq & H1 & H2).
      { intros x [<-|Hx]; [exact Ha|]. apply Hn. right. now right. }
      destruct l1 as [|q l1]; cbn in Heq.
      * injection Heq as Hq Hr. exists [], (p :: l2).
        split; [cbn; rewrite <- Hq; congruence|]. split; [intros x []|].
        intros x [<-|Hx]; [rewrite <- Hq; exact E|now apply H2].
      * injection Heq as Hq Hr. subst q.
        exists (a :: p :: l1), l2. split; [cbn; do 2 f_equal; exact Hr|].
        split; [|exact H2].
        intros x [<-|[<-|Hx]].
        -- apply H1. now left.
        -- eapply ltb_leb_trans_float; [apply H1; now left|exact E].
        -- apply H1. now right.
Qed.

(** X12 on the catalogue of the ranking scenario. *)
Lemma min_precio_primero_mas_barato_testigo :
  sin_nan (prod_1 :: [prod_2; prod_3; prod_4]) /\
  exists antes despues,
    prod_1 :: [prod_2; prod_3; prod_4]
    = antes ++ min_precio prod_1 [prod_2; prod_3; prod_4] :: despues.
Proof.
  split; [exact catalogo_4_sin_nan|].
  destruct (min_precio_primero_mas_barato prod_1 [prod_2; prod_3; prod_4]
              catalogo_4_sin_nan) as (antes & despues & E & _).
  exists antes, despues. exact E.
Defined.

(** ** The program's input and output *)

Lemma mundo_eta w : mkMundo (archivos w) (salida w) = w.
Proof. destruct w; reflexivity. Qed.

Lemma imprimir_eq_p ev w :
  imprimir ev w = (mkMundo (archivos w) (salida w ++ [ev]), inr tt).
Proof. reflexivity. Qed.

Lemma para_cada_imprimir {A} (f : A -> evento) l w :
  para_cada (fun x => imprimir (f x)) l w
  = (mkMundo (archivos w) (salida w ++ (f <$> l)), inr tt).
Proof.
  revert w. induction l as [|x l IH]; intros w; cbn [para_cada fmap list_fmap].
  - rewrite app_nil_r, mundo_eta. reflexivity.
  - erewrite bind_eq_p by apply imprimir_eq_p. rewrite IH. cbn [archivos salida].
    rewrite <- app_assoc. reflexivity.
Qed.

Lemma para_cada_imprimir_par {A B} (f : A -> B -> evento) l w :
  para_cada (fun '(a, b) => imprimir (f a b)) l w
  = (mkMundo (archivos w) (salida w ++ ((fun '(a, b) => f a b) <$> l)), inr tt).
Proof.
  revert w. induction l as [|[a b] l IH]; intros w;
    cbn [para_cada fmap list_fmap].
  - rewrite app_nil_r, mundo_eta. reflexivity.
  - erewrite bind_eq_p by apply imprimir_eq_p. rewrite IH. cbn [archivos salida].
    rewrite <- app_assoc. reflexivity.
Qed.

Lemma zip_seq_puestos k l :
  (fun '(i, p) => Ev_puesto i p) <$> zip (seq k (length l)) l
  = imap (fun i p => Ev_puesto (k + i) p) l.
Proof.
  revert k. induction l as [|x l IH]; intros k; [reflexivity|].
  cbn [length seq zip zip_with fmap list_fmap imap]. rewrite Nat.add_0_r.
  f_equal. rewrite IH. apply imap_ext. intros i y _. cbn. f_equal. lia.
Qed.

Lemma hasta_no_negativo {A} n (l : list A) :
  0 <= n -> hasta n l = take (Z.to_nat n) l.
Proof.
  intros Hn. unfold hasta. destruct (Z.ltb_spec n 0); [lia|reflexivity].
Qed.

Lemma hasta_negativo {A} n (l : list A) :
  n < 0 -> hasta n l = take (length l - Z.to_nat (- n)) l.
Proof.
  intros Hn. unfold hasta. destruct (Z.ltb_spec n 0); [|lia].
  f_equal. lia.
Qed.

(** X16: [mostrar_mejores_productos(productos, n)] prints the heading
    and then one line for each product of [productos[:n]], in the
    order of the list and numbered from 1: the first [n] products when
    [n] is not negative (all of them when the list is shorter), and
    all but the last [-n] products when [n] is negative (none when the
    list has no more than [-n]). It returns normally and changes no
    file. *)
Theorem mostrar_mejores_productos_salida (productos : list Producto) (n : Z)
    (w : mundo) :
  mostrar_mejores_productos productos n w
  = (mkMundo (archivos w)
       (salida w ++ Ev_cabecera_top n ::
        puestos (if 0 <=? n then take (Z.to_nat n) productos
                 else take (length productos - Z.to_nat (- n)) productos)),
     inr tt).
Proof.
  unfold mostrar_mejores_productos.
  erewrite bind_eq_p by apply imprimir_eq_p.
  rewrite para_cada_imprimir_par.
  rewrite zip_seq_puestos. cbn [archivos salida]. rewrite <- app_assoc.
  destruct (Z.leb_spec 0 n).
  - rewrite hasta_no_negativo by assumption. reflexivity.
  - rewrite hasta_negativo by assumption. reflexivity.
Qed.

Section Entorno_extra.
Variable int_de : string -> option Z.
Variable float_de : string -> option float.
Variable texto_de_int : Z -> string.
Variable texto_de_float : float -> string.

Lemma leer_filas_convierte filas ps acc :
  Forall2 (convierte int_de float_de) filas ps ->
  leer_filas int_de float_de filas acc = inr (acc ++ ps).
Proof.
  intros H. revert acc. induction H as [|f p filas ps Hf _ IH]; intros acc;
    cbn [leer_filas].
  - now rewrite app_nil_r.
  - unfold convierte in Hf. rewrite Hf. cbn [mbind R_bind].
    rewrite IH, <- app_assoc. reflexivity.
Qed.

Lemma leer_filas_mala buenas ps mala resto acc e :
  Forall2 (convierte int_de float_de) buenas ps ->
  producto_de_fila int_de float_de mala = inl e ->
  leer_filas int_de float_de (buenas ++ mala :: resto) acc = inl e.
Proof.
  intros H He. revert acc. induction H as [|f p filas ps Hf _ IH]; intros acc;
    cbn [leer_filas app].
  - rewrite He. reflexivity.
  - unfold convierte in Hf. rewrite Hf. cbn [mbind R_bind]. apply IH.
Qed.

(** X13: when the file exists and every row converts, [leer_csv]
    returns the products of the rows, in the order of the file, prints
    how many it read and changes no file. *)
Theorem leer_csv_filas (nombre_archivo : string) (filas : list fila)
    (ps : list Producto) (w : mundo) :
  archivos w !! nombre_archivo = Some filas ->
  Forall2 (convierte int_de float_de) filas ps ->
  leer_csv int_de float_de nombre_archivo w
  = (mkMundo (archivos w)
       (salida w ++ [Ev_leidos (length filas) nombre_archivo]),
     inr ps).
Proof.
  intros Ha Hf. unfold leer_csv. rewrite Ha.
  unfold mbind, M_bind, elevar.
  rewrite (leer_filas_convierte filas ps [] Hf). cbn [app].
  rewrite (Forall2_length _ _ _ Hf). reflexivity.
Qed.

Lemma leer_filas_inr filas :
  forall acc r, leer_filas int_de float_de filas acc = inr r ->
  exists ps, r = acc ++ ps /\ Forall2 (convierte int_de float_de) filas ps.
Proof.
  induction filas as [|f filas IH]; intros acc r; cbn [leer_filas].
  - intros [= <-]. exists []. split; [now rewrite app_nil_r|constructor].
  - destruct (producto_de_fila int_de float_de f) as [e|p] eqn:Hf;
      cbn [mbind R_bind]; [discriminate|].
    intros H. destruct (IH _ _ H) as (ps & -> & Hps).
    exists (p :: ps). split; [now rewrite <- app_assoc|].
    constructor; assumption.
Qed.

(** X22: [leer_csv] skips no row: when the file exists and [leer_csv]
    returns, the list returned has one product for each row of the
    file, in the order of the file, each the conversion of its row. *)
Theorem leer_csv_sin_omisiones (nombre_archivo : string) (filas : list fila)
    (ps : list Producto) (w : mundo) :
  archivos w !! nombre_archivo = Some filas ->
  (leer_csv int_de float_de nombre_archivo w).2 = inr ps ->
  Forall2 (convierte int_de float_de) filas ps.
Proof.
  intros Ha. unfold leer_csv. rewrite Ha. unfold mbind, M_bind, elevar.
  destruct (leer_filas int_de float_de filas []) as [e|r] eqn:Hr;
    cbn [snd]; [discriminate|].
  unfold imprimir. cbn [snd mret M_ret]. intros [= <-].
  destruct (leer_filas_inr filas [] r Hr) as (qs & -> & Hqs). exact Hqs.
Qed.

(** X14: when a row of the file has text in all five columns but a
    number that [int] or [float] rejects, [leer_csv] raises
    [ValueError] at the first such row: the handler for a missing file
    does not catch it, the products read so far are not returned, and
    nothing is printed. *)
Theorem leer_csv_fila_mala (nombre_archivo : string)
    (buenas : list fila) (ps : list Producto) (mala : fila)
    (resto : list fila) (e : excepcion) (w : mundo) :
  archivos w !! nombre_archivo = Some (buenas ++ mala :: resto) ->
  Forall2 (convierte int_de float_de) buenas ps ->
  Forall (fun columna => is_Some (mala !! columna)) columnas ->
  producto_de_fila int_de float_de mala = inl e ->
  e = ValueError /\
  leer_csv int_de float_de nombre_archivo w = (w, inl ValueError).
Proof.
  intros Ha Hf Hc He.
  assert (e = ValueError) as ->.
  { revert He. unfold columnas in Hc.
    repeat match goal with
    | H : Forall _ (_ :: _) |- _ =>
        let v := fresh "v" in let Hv := fresh "Hv" in
        apply Forall_cons in H as [[v Hv] H]
    end.
    unfold producto_de_fila, campo, convertir.
    rewrite Hv, Hv0, Hv1, Hv2, Hv3.
    repeat (cbn [mbind R_bind];
            match goal with
            | |- context [int_de ?s] => destruct (int_de s)
            | |- context [float_de ?s] => destruct (float_de s)
            end);
      cbn [mbind R_bind]; first [congruence | discriminate]. }
  split; [reflexivity|].
  unfold leer_csv. rewrite Ha. unfold mbind, M_bind, elevar.
  rewrite (leer_filas_mala buenas ps mala resto [] ValueError Hf He).
  reflexivity.
Qed.

End Entorno_extra.

Lemma filas_de_convierte_4 :
  Forall2 (convierte int_de_decimal float_de_tabla) (filas_de catalogo_4)
    catalogo_4.
Proof. repeat constructor; vm_compute; reflexivity. Defined.

Lemma filas_de_convierte_5 :
  Forall2 (convierte int_de_decimal float_de_tabla) (filas_de catalogo_5)
    catalogo_5.
Proof. repeat constructor; vm_compute; reflexivity. Defined.

(** X13 on the file written for the catalogue of the ranking
    scenario. *)
Lemma leer_csv_filas_testigo :
  archivos (mundo_con (filas_de catalogo_4)) !! "productos.csv"
  = Some (filas_de catalogo_4) /\
  leer_csv int_de_decimal float_de_tabla "productos.csv"
    (mundo_con (filas_de catalogo_4))
  = (mkMundo (archivos (mundo_con (filas_de catalogo_4)))
       [Ev_leidos 4 "productos.csv"], inr catalogo_4).
Proof.
  split; [reflexivity|].
  apply (leer_csv_filas int_de_decimal float_de_tabla "productos.csv"
           (filas_de catalogo_4) catalogo_4 (mundo_con (filas_de catalogo_4))).
  - reflexivity.
  - exact filas_de_convierte_4.
Defined.

(** X22 on the file written for the catalogue of the ranking
    scenario. *)
Lemma leer_csv_sin_omisiones_testigo :
  (leer_csv int_de_decimal float_de_tabla "productos.csv"
     (mundo_con (filas_de catalogo_4))).2 = inr catalogo_4 /\
  Forall2 (convierte int_de_decimal float_de_tabla) (filas_de catalogo_4)
    catalogo_4.
Proof.
  split; [vm_compute; reflexivity|].
  apply (leer_csv_sin_omisiones int_de_decimal float_de_tabla "productos.csv"
           (filas_de catalogo_4) catalogo_4 (mundo_con (filas_de catalogo_4))).
  - reflexivity.
  - vm_compute. reflexivity.
Defined.

(** X14 on a file whose second row has the price "caro". *)
Lemma leer_csv_fila_mala_testigo :
  Forall (fun columna => is_Some (fila_mala !! columna)) columnas /\
  producto_de_fila int_de_decimal float_de_tabla fila_mala = inl ValueError /\
  leer_csv int_de_decimal float_de_tabla "productos.csv"
    (mundo_con (filas_de [prod_1] ++ fila_mala :: filas_de [prod_3]))
  = (mundo_con (filas_de [prod_1] ++ fila_mala :: filas_de [prod_3]),
     inl ValueError).
Proof.
  assert (Forall (fun columna => is_Some (fila_mala !! columna)) columnas)
    as Hc by (repeat constructor; eexists; vm_compute; reflexivity).
  split; [exact Hc|]. split; [vm_compute; reflexivity|].
  apply (leer_csv_fila_mala int_de_decimal float_de_tabla "productos.csv"
           (filas_de [prod_1]) [prod_1] fila_mala (filas_de [prod_3])
           ValueError).
  - reflexivity.
  - repeat constructor; vm_compute; reflexivity.
  - exact Hc.
  - vm_compute. reflexivity.
Defined.

(** *** The main program *)

Lemma muestra_eq (ps : list Producto) n :
  forall k w, (k <= length ps)%nat ->
  para_cada (fun i => p ← elevar (indice ps i); imprimir (Ev_producto p))
    (seq k n) w
  = (mkMundo (archivos w) (salida w ++ (Ev_producto <$> take n (drop k ps))),
     if (k + n <=? length ps)%nat then inr tt else inl IndexError).
Proof.
  induction n as [|n IH]; intros k w Hk; cbn [seq para_cada].
  - rewrite take_0, app_nil_r, mundo_eta.
    destruct (Nat.leb_spec (k + 0) (length ps)); [reflexivity|lia].
  - unfold indice. destruct (ps !! k) as [p|] eqn:Hp.
    + pose proof (lookup_lt_Some _ _ _ Hp) as Hlt.
      unfold mbind at 1, M_bind. unfold mbind at 1, M_bind.
      unfold elevar, imprimir. rewrite IH by lia. cbn [archivos salida].
      rewrite (drop_S _ _ _ Hp). cbn [take fmap list_fmap].
      rewrite <- app_assoc. cbn [app].
      replace (S k + n)%nat with (k + S n)%nat by lia. reflexivity.
    + apply lookup_ge_None in Hp.
      unfold mbind at 1, M_bind. unfold mbind at 1, M_bind. unfold elevar.
      rewrite drop_ge by lia. rewrite take_nil. cbn [fmap list_fmap].
      rewrite app_nil_r, mundo_eta.
      destruct (Nat.leb_spec (k + S n) (length ps)); [lia|reflexivity].
Qed.

Section Entorno_main.
Variable int_de : string -> option Z.
Variable float_de : string -> option float.
Variable texto_de_int : Z -> string.
Variable texto_de_float : float -> string.

Lemma main_leido filas ps w :
  archivos w !! "productos.csv" = Some filas ->
  Forall2 (convierte int_de float_de) filas ps ->
  main int_de float_de texto_de_int texto_de_float w
  = main_con_productos texto_de_int texto_de_float ps
      (mkMundo (archivos w)
         (salida w ++ [Ev_banner; Ev_paso_lectura;
                       Ev_leidos (length ps) "productos.csv"])).
Proof.
  intros Ha Hf.
  change (main int_de float_de texto_de_int texto_de_float)
    with (imprimir Ev_banner;; imprimir Ev_paso_lectura;;
          productos ← leer_csv int_de float_de "productos.csv";
          main_con_productos texto_de_int texto_de_float productos).
  erewrite bind_eq_p by apply imprimir_eq_p.
  erewrite bind_eq_p by apply imprimir_eq_p.
  unfold mbind at 1, M_bind. unfold leer_csv. cbn [archivos salida].
  rewrite Ha. unfold mbind, M_bind, elevar.
  rewrite (leer_filas_convierte int_de float_de filas ps [] Hf).
  cbn [app imprimir archivos salida mret M_ret].
  rewrite <- !app_assoc. reflexivity.
Qed.

(** X17: when the input file exists but has no data row, [leer_csv]
    reports that it read 0 products and [main] then takes the same
    exit as for a missing file: it prints the leaving line and returns
    without analysing, sorting or saving anything. *)
Theorem main_sin_filas (w : mundo) :
  archivos w !! "productos.csv" = Some [] ->
  main int_de float_de texto_de_int texto_de_float w
  = (mkMundo (archivos w)
       (salida w ++ [Ev_banner; Ev_paso_lectura;
                     Ev_leidos 0 "productos.csv"; Ev_saliendo]),
     inr tt).
Proof.
  intros Ha. rewrite (main_leido [] [] w Ha) by constructor.
  unfold main_con_productos, imprimir. cbn [archivos salida length].
  rewrite <- app_assoc. reflexivity.
Qed.

(** X18: with one to four products in the input file [main] raises
    [IndexError]: the preview loop reads [productos[0]] to
    [productos[4]] whatever the length. The products are printed up to
    the missing one, and nothing is analysed, sorted or saved. *)
Theorem main_pocos_productos (filas : list fila) (ps : list Producto)
    (w : mundo) :
  archivos w !! "productos.csv" = Some filas ->
  Forall2 (convierte int_de float_de) filas ps ->
  (0 < length ps < 5)%nat ->
  main int_de float_de texto_de_int texto_de_float w
  = (mkMundo (archivos w)
       (salida w ++ [Ev_banner; Ev_paso_lectura;
                     Ev_leidos (length ps) "productos.csv"; Ev_paso_muestra]
                 ++ (Ev_producto <$> ps)),
     inl IndexError).
Proof.
  intros Ha Hf Hl. rewrite (main_leido filas ps w Ha Hf).
  destruct ps as [|p ps]; [cbn in Hl; lia|].
  cbn [main_con_productos].
  erewrite bind_eq_p by apply imprimir_eq_p.
  erewrite bind_err_p.
  2:{ rewrite muestra_eq by lia. cbn [archivos salida drop].
      destruct (Nat.leb_spec (0 + 5) (length (p :: ps))); [lia|].
      rewrite take_ge by lia. reflexivity. }
  rewrite <- !app_assoc. reflexivity.
Qed.

(** X19: with at least five products in the input file, all with
    ratings from 1 to 5, [main] runs to the end: it prints the first
    five products as loaded, the analysis, and the first 25 products of
    the sorted catalogue, and it writes the whole catalogue, sorted by
    [merge_sort], to "productos_ordenados.csv". No other file
    changes. *)
Theorem main_exito (filas : list fila) (ps : list Producto) (w : mundo) :
  archivos w !! "productos.csv" = Some filas ->
  Forall2 (convierte int_de float_de) filas ps ->
  (5 <= length ps)%nat ->
  Forall en_dominio ps ->
  main int_de float_de texto_de_int texto_de_float w
  = (mkMundo
       (<["productos_ordenados.csv" :=
            fila_de_producto texto_de_int texto_de_float <$> merge_sort ps]>
          (archivos w))
       (salida w ++ salida_main ps),
     inr tt).
Proof.
  intros Ha Hf Hl Hd. rewrite (main_leido filas ps w Ha Hf).
  assert (ps <> []) as Hne by (intros ->; cbn in Hl; lia).
  destruct ps as [|p ps']; [congruence|].
  cbn [main_con_productos]. set (ps := p :: ps') in *.
  erewrite bind_eq_p by apply imprimir_eq_p.
  erewrite bind_eq_p.
  2:{ rewrite muestra_eq by lia.
      destruct (Nat.leb_spec (0 + 5) (length ps)); [|lia]. reflexivity. }
  erewrite bind_eq_p by (apply analizar_datos_lineas; assumption).
  erewrite bind_eq_p by apply imprimir_eq_p.
  cbv zeta.
  erewrite bind_eq_p by apply imprimir_eq_p.
  erewrite bind_eq_p.
  2:{ unfold mostrar_mejores_productos.
      erewrite bind_eq_p by apply imprimir_eq_p.
      rewrite para_cada_imprimir_par, zip_seq_puestos.
      rewrite hasta_no_negativo by lia. reflexivity. }
  erewrite bind_eq_p by apply imprimir_eq_p.
  unfold guardar_resultados, mbind, M_bind, imprimir.
  cbn [archivos salida drop]. unfold salida_main, puestos.
  repeat (rewrite <- ?app_assoc; cbn [app]). reflexivity.
Qed.
End Entorno_main.

(** X17 on a file with the header only. *)
Lemma main_sin_filas_testigo :
  archivos (mundo_con []) !! "productos.csv" = Some [] /\
  (main int_de_decimal float_de_tabla texto_de_int_decimal texto_de_float_tabla
     (mundo_con [])).2 = inr tt.
Proof.
  split; [reflexivity|].
  rewrite (main_sin_filas int_de_decimal float_de_tabla texto_de_int_decimal
             texto_de_float_tabla (mundo_con [])); reflexivity.
Defined.

(** X18 on the file of the four products of the ranking scenario. *)
Lemma main_pocos_productos_testigo :
  (0 < length catalogo_4 < 5)%nat /\
  (main int_de_decimal float_de_tabla texto_de_int_decimal texto_de_float_tabla
     (mundo_con (filas_de catalogo_4))).2 = inl IndexError.
Proof.
  split; [cbn; lia|].
  rewrite (main_pocos_productos int_de_decimal float_de_tabla
             texto_de_int_decimal texto_de_float_tabla
             (filas_de catalogo_4) catalogo_4 (mundo_con (filas_de catalogo_4))).
  - reflexivity.
  - reflexivity.
  - exact filas_de_convierte_4.
  - cbn. lia.
Defined.

Lemma catalogo_5_en_dominio : Forall en_dominio catalogo_5.
Proof. repeat constructor; unfold en_dominio; cbn; lia. Defined.

(** X19 on the file of the five products: the catalogue is saved in
    ranked order. *)
Lemma main_exito_testigo :
  (5 <= length catalogo_5)%nat /\ Forall en_dominio catalogo_5 /\
  archivos
    (main int_de_decimal float_de_tabla texto_de_int_decimal
       texto_de_float_tabla (mundo_con (filas_de catalogo_5))).1
  !! "productos_ordenados.csv"
  = Some (filas_de [prod_2; prod_3; prod_5; prod_4; prod_1]).
Proof.
  split; [cbn; lia|]. split; [exact catalogo_5_en_dominio|].
  rewrite (main_exito int_de_decimal float_de_tabla texto_de_int_decimal
             texto_de_float_tabla
             (filas_de catalogo_5) catalogo_5 (mundo_con (filas_de catalogo_5))).
  - vm_compute. reflexivity.
  - reflexivity.
  - exact filas_de_convierte_5.
  - cbn. lia.
  - exact catalogo_5_en_dominio.
Defined.

(** *** Files and output that a computation leaves alone *)

Lemma solo_escribe_ret {A} n (x : A) : solo_escribe n (mret x).
Proof. intros w. split; reflexivity. Qed.

Lemma solo_escribe_bind {A B} n (m : M A) (k : A -> M B) :
  solo_escribe n m -> (forall x, solo_escribe n (k x)) ->
  solo_escribe n (m ≫= k).
Proof.
  intros Hm Hk w. unfold mbind, M_bind. specialize (Hm w).
  destruct (m w) as [w' [e|x]]; cbn [fst] in *; [exact Hm|].
  destruct Hm as [H1 H2], (Hk x w') as [H3 H4]. split.
  - now rewrite H3.
  - now transitivity (salida w').
Qed.

Lemma solo_escribe_imprimir n ev : solo_escribe n (imprimir ev).
Proof. intros w. split; [reflexivity|]. now apply prefix_app_r. Qed.

Lemma solo_escribe_elevar {A} n (r : R A) : solo_escribe n (elevar r).
Proof. intros w. split; reflexivity. Qed.

Lemma solo_escribe_para_cada {A} n (cuerpo : A -> M unit) l :
  (forall x, solo_escribe n (cuerpo x)) -> solo_escribe n (para_cada cuerpo l).
Proof.
  intros H. induction l as [|x l IH]; cbn [para_cada].
  - apply solo_escribe_ret.
  - apply solo_escribe_bind; [apply H|intros _; exact IH].
Qed.

Lemma solo_escribe_analizar_datos n l : solo_escribe n (analizar_datos l).
Proof.
  unfold analizar_datos.
  apply solo_escribe_bind; [apply solo_escribe_imprimir|intros _].
  apply solo_escribe_bind; [apply solo_escribe_elevar|intros d].
  apply solo_escribe_bind.
  { apply solo_escribe_para_cada. intros [calif cantidad].
    apply solo_escribe_bind; [apply solo_escribe_elevar|].
    intros; apply solo_escribe_imprimir. }
  intros _. apply solo_escribe_bind; [apply solo_escribe_imprimir|intros _].
  destruct (List.filter _ _); [apply solo_escribe_ret|apply solo_escribe_imprimir].
Qed.

Lemma solo_escribe_mostrar n l k : solo_escribe n (mostrar_mejores_productos l k).
Proof.
  unfold mostrar_mejores_productos.
  apply solo_escribe_bind; [apply solo_escribe_imprimir|intros _].
  apply solo_escribe_para_cada. intros [i p]. apply solo_escribe_imprimir.
Qed.

Lemma no_toca_ret {A} (x : A) : no_toca (mret x).
Proof. intros w. reflexivity. Qed.

Lemma no_toca_bind {A B} (m : M A) (k : A -> M B) :
  no_toca m -> (forall x, no_toca (k x)) -> no_toca (m ≫= k).
Proof.
  intros Hm Hk w. unfold mbind, M_bind. specialize (Hm w).
  destruct (m w) as [w' [e|x]]; cbn [fst] in *; [exact Hm|].
  now rewrite Hk.
Qed.

Lemma no_toca_imprimir ev : no_toca (imprimir ev).
Proof. intros w. reflexivity. Qed.

Lemma no_toca_elevar {A} (r : R A) : no_toca (elevar r).
Proof. intros w. reflexivity. Qed.

Lemma no_toca_para_cada {A} (cuerpo : A -> M unit) l :
  (forall x, no_toca (cuerpo x)) -> no_toca (para_cada cuerpo l).
Proof.
  intros H. induction l as [|x l IH]; cbn [para_cada].
  - apply no_toca_ret.
  - apply no_toca_bind; [apply H|intros _; exact IH].
Qed.

Lemma no_toca_analizar_datos l : no_toca (analizar_datos l).
Proof.
  unfold analizar_datos.
  apply no_toca_bind; [apply no_toca_imprimir|intros _].
  apply no_toca_bind; [apply no_toca_elevar|intros d].
  apply no_toca_bind.
  { apply no_toca_para_cada. intros [calif cantidad].
    apply no_toca_bind; [apply no_toca_elevar|].
    intros; apply no_toca_imprimir. }
  intros _. apply no_toca_bind; [apply no_toca_imprimir|intros _].
  destruct (List.filter _ _); [apply no_toca_ret|apply no_toca_imprimir].
Qed.

Lemma no_toca_mostrar l k : no_toca (mostrar_mejores_productos l k).
Proof.
  unfold mostrar_mejores_productos.
  apply no_toca_bind; [apply no_toca_imprimir|intros _].
  apply no_toca_para_cada. intros [i p]. apply no_toca_imprimir.
Qed.

Lemma falla_limpia_bind {A B} (m : M A) (k : A -> M B) :
  no_toca m -> (forall x, falla_limpia (k x)) -> falla_limpia (m ≫= k).
Proof.
  intros Hm Hk w e. unfold mbind, M_bind. specialize (Hm w).
  destruct (m w) as [w' [e'|x]]; cbn [fst] in *; [intros _; exact Hm|].
  intros He. now rewrite (Hk x w' e He).
Qed.

Lemma falla_limpia_no_toca {A} (m : M A) : no_toca m -> falla_limpia m.
Proof. intros H w e _. apply H. Qed.

Section Entorno_errores.
Variable int_de : string -> option Z.
Variable float_de : string -> option float.
Variable texto_de_int : Z -> string.
Variable texto_de_float : float -> string.

Lemma solo_escribe_leer_csv n nombre_archivo :
  solo_escribe n (leer_csv int_de float_de nombre_archivo).
Proof.
  intros w. unfold leer_csv. destruct (archivos w !! nombre_archivo) as [filas|].
  - apply solo_escribe_bind; [apply solo_escribe_elevar|intros ps].
    apply solo_escribe_bind; [apply solo_escribe_imprimir|].
    intros; apply solo_escribe_ret.
  - apply solo_escribe_bind; [apply solo_escribe_imprimir|].
    intros; apply solo_escribe_ret.
Qed.

Lemma no_toca_leer_csv nombre_archivo :
  no_toca (leer_csv int_de float_de nombre_archivo).
Proof.
  intros w. unfold leer_csv. destruct (archivos w !! nombre_archivo) as [filas|].
  - apply no_toca_bind; [apply no_toca_elevar|intros ps].
    apply no_toca_bind; [apply no_toca_imprimir|].
    intros; apply no_toca_ret.
  - apply no_toca_bind; [apply no_toca_imprimir|].
    intros; apply no_toca_ret.
Qed.

Lemma solo_escribe_guardar productos n :
  solo_escribe n (guardar_resultados texto_de_int texto_de_float productos n).
Proof.
  intros w. unfold guardar_resultados, mbind, M_bind, imprimir.
  cbn [fst archivos salida]. split; [apply delete_insert_eq|].
  now apply prefix_app_r.
Qed.

(** X20: a run of [main], however it ends, changes no file other than
    "productos_ordenados.csv" (the input file "productos.csv" is never
    written), and only adds lines to what was printed before. *)
Theorem main_solo_escribe_resultado (w : mundo) :
  delete "productos_ordenados.csv"
    (archivos (main int_de float_de texto_de_int texto_de_float w).1)
  = delete "productos_ordenados.csv" (archivos w)
  /\ salida w
     `prefix_of` salida (main int_de float_de texto_de_int texto_de_float w).1.
Proof.
  revert w.
  change (solo_escribe "productos_ordenados.csv"
            (main int_de float_de texto_de_int texto_de_float)).
  unfold main.
  apply solo_escribe_bind; [apply solo_escribe_imprimir|intros _].
  apply solo_escribe_bind; [apply solo_escribe_imprimir|intros _].
  apply solo_escribe_bind; [apply solo_escribe_leer_csv|intros [|p l]].
  { apply solo_escribe_imprimir. }
  apply solo_escribe_bind; [apply solo_escribe_imprimir|intros _].
  apply solo_escribe_bind.
  { apply solo_escribe_para_cada. intros i.
    apply solo_escribe_bind; [apply solo_escribe_elevar|].
    intros; apply solo_escribe_imprimir. }
  intros _. apply solo_escribe_bind; [apply solo_escribe_analizar_datos|intros _].
  apply solo_escribe_bind; [apply solo_escribe_imprimir|intros _].
  apply solo_escribe_bind; [apply solo_escribe_imprimir|intros _].
  apply solo_escribe_bind; [apply solo_escribe_mostrar|intros _].
  apply solo_escribe_bind; [apply solo_escribe_imprimir|intros _].
  apply solo_escribe_bind; [apply solo_escribe_guardar|intros _].
  apply solo_escribe_imprimir.
Qed.

(** X21: when a run of [main] ends with an exception, no file has been
    changed: every step that can raise comes before the ranked
    catalogue is saved, so a failed run leaves no result file, whole
    or partial. *)
Theorem main_error_sin_guardar (w : mundo) (e : excepcion) :
  (main int_de float_de texto_de_int texto_de_float w).2 = inl e ->
  archivos (main int_de float_de texto_de_int texto_de_float w).1 = archivos w.
Proof.
  revert w e.
  change (falla_limpia (main int_de float_de texto_de_int texto_de_float)).
  unfold main.
  apply falla_limpia_bind; [apply no_toca_imprimir|intros _].
  apply falla_limpia_bind; [apply no_toca_imprimir|intros _].
  apply falla_limpia_bind; [apply no_toca_leer_csv|intros [|p l]].
  { apply falla_limpia_no_toca, no_toca_imprimir. }
  apply falla_limpia_bind; [apply no_toca_imprimir|intros _].
  apply falla_limpia_bind.
  { apply no_toca_para_cada. intros i.
    apply no_toca_bind; [apply no_toca_elevar|].
    intros; apply no_toca_imprimir. }
  intros _. apply falla_limpia_bind; [apply no_toca_analizar_datos|intros _].
  apply falla_limpia_bind; [apply no_toca_imprimir|intros _].
  apply falla_limpia_bind; [apply no_toca_imprimir|intros _].
  apply falla_limpia_bind; [apply no_toca_mostrar|intros _].
  apply falla_limpia_bind; [apply no_toca_imprimir|intros _].
  intros w e. unfold guardar_resultados, mbind, M_bind, imprimir.
  cbn [snd]. discriminate.
Qed.
End Entorno_errores.

(** X21 on the file of the four products, where [main] raises
    [IndexError]. *)
Lemma main_error_sin_guardar_testigo :
  (main int_de_decimal float_de_tabla texto_de_int_decimal texto_de_float_tabla
     (mundo_con (filas_de catalogo_4))).2 = inl IndexError /\
  archivos
    (main int_de_decimal float_de_tabla texto_de_int_decimal
       texto_de_float_tabla (mundo_con (filas_de catalogo_4))).1
  = archivos (mundo_con (filas_de catalogo_4)).
Proof.
  split; [vm_compute; reflexivity|].
  apply (main_error_sin_guardar int_de_decimal float_de_tabla
           texto_de_int_decimal texto_de_float_tabla
           (mundo_con (filas_de catalogo_4)) IndexError).
  vm_compute. reflexivity.
Defined.
